(** * Flight Routes System: airports, routes and the three fixed queries

    A shallow embedding of [routes/models.py], [routes/forms.py] and
    [routes/views.py].  The database is a pair of tables kept as lists in
    insertion order; every view is a function from the database (and the
    submitted data) to a new database and a response.

    Conventions.
    - Python integers are [Z].  A [models.IntegerField] carries the range
      validators of the database backend; the backend is Django's default,
      SQLite, whose integer columns hold [INTEGER_MIN] .. [INTEGER_MAX]
      (64 bits, signed).
    - Text is [string] (8-bit characters); [upper], [strip], [isalpha] and
      [len] are the Python methods on ASCII text.  Statements about what the
      code does with a submitted or saved text assume [ascii_text] of it.
    - An integer form input is a [RawInt]: absent, not a number, or a number.
    - Exceptions are values of [Exception]; code that may raise returns a
      [result]. *)

From Stdlib Require Import ZArith List Bool Lia String Ascii.
From Stdlib Require Import Sorting.Sorted Sorting.Permutation.
Import ListNotations.

Open Scope string_scope.
Open Scope list_scope.
Open Scope Z_scope.

(** ** Data model (models.py) *)

(** [Airport]: [code] is the primary key. *)
Record Airport := mkAirport {
  code : string;
  name : string;
  position : Z
}.

(** [Route]: [route_id] is the automatic primary key; [source] and
    [destination] hold the code of the referenced airport. *)
Record Route := mkRoute {
  route_id : Z;
  source : string;
  destination : string;
  distance : Z;
  created_at : Z
}.

Record Db := mkDb {
  airports : list Airport;
  routes : list Route;
  route_seq : Z
}.

Definition empty_db : Db := mkDb [] [] 0.

Definition Airport_eq_dec (a b : Airport) : {a = b} + {a <> b}.
Proof. decide equality; (apply Z.eq_dec || apply string_dec). Defined.

(** [Model.__eq__]: two instances of one model are equal when their
    primary keys are. *)
Definition Airport_eqb (a b : Airport) : bool := (code a =? code b)%string.

(** ** Query sets *)

Section QuerySet.
Context {A : Type}.

(** [order_by]: a stable insertion sort; rows with equal keys keep their
    table order. *)
Fixpoint insert_by (leb : A -> A -> bool) (x : A) (l : list A) : list A :=
  match l with
  | [] => [x]
  | y :: l' => if leb x y then x :: l else y :: insert_by leb x l'
  end.

Fixpoint order_by (leb : A -> A -> bool) (l : list A) : list A :=
  match l with
  | [] => []
  | x :: l' => insert_by leb x (order_by leb l')
  end.

Definition first (l : list A) : option A := hd_error l.

Definition exists_ (l : list A) : bool :=
  match l with [] => false | _ :: _ => true end.

Definition count (l : list A) : Z := Z.of_nat (List.length l).

Definition exclude (p : A -> bool) (l : list A) : list A :=
  filter (fun x => negb (p x)) l.
End QuerySet.

(** [distinct()] on airport rows. *)
Definition distinct (l : list Airport) : list Airport := nodup Airport_eq_dec l.

(** [Airport.Meta.ordering = ['position']]. *)
Definition by_position (a b : Airport) : bool := position a <=? position b.

(** [Airport.objects.filter(...).first()]: the query set carries the default
    ordering of the model. *)
Definition Airport_first (qs : list Airport) : option Airport :=
  first (order_by by_position qs).

Definition by_distance (r1 r2 : Route) : bool := distance r1 <=? distance r2.

(** [order_by('source__code', 'destination__code')]. *)
Definition by_codes (r1 r2 : Route) : bool :=
  match String.compare (source r1) (source r2) with
  | Lt => true
  | Gt => false
  | Eq => String.leb (destination r1) (destination r2)
  end.

(** [aggregate(Max('distance'))]: [None] on an empty table. *)
Definition aggregate_max_distance (rs : list Route) : option Z :=
  fold_left (fun acc r =>
               match acc with
               | None => Some (distance r)
               | Some m => Some (Z.max m (distance r))
               end) rs None.

(** [airport.outgoing_routes] and [airport.incoming_routes]. *)
Definition outgoing_routes (db : Db) (a : Airport) : list Route :=
  filter (fun r => (source r =? code a)%string) (routes db).

Definition incoming_routes (db : Db) (a : Airport) : list Route :=
  filter (fun r => (destination r =? code a)%string) (routes db).

(** ** Route.get_longest_distance_airport and Route.get_shortest_route *)

Definition Route_get_longest_distance_airport (db : Db)
  : option Airport * option Z :=
  match aggregate_max_distance (routes db) with
  | None => (None, None)
  | Some max_distance =>
      let airports_with_max_distance :=
        distinct
          (filter (fun a =>
                     exists_ (filter (fun r => distance r =? max_distance)
                                (outgoing_routes db a))
                     || exists_ (filter (fun r => distance r =? max_distance)
                                   (incoming_routes db a)))
             (airports db)) in
      (Airport_first airports_with_max_distance, Some max_distance)
  end.

Definition Route_get_shortest_route (db : Db) : option Route :=
  first (order_by by_distance (routes db)).

(** ** ShortestRouteView.get_context_data *)

Record ShortestContext := mkShortestContext {
  shortest_route : option Route;
  shortest_distance : option Z;
  shortest_routes : list Route
}.

Definition ShortestRouteView_get_context_data (db : Db) : ShortestContext :=
  match Route_get_shortest_route db with
  | Some r =>
      let d := distance r in
      mkShortestContext (Some r) (Some d)
        (order_by by_codes (filter (fun r' => distance r' =? d) (routes db)))
  | None => mkShortestContext None None []
  end.

(** ** Text (the ASCII part of [str.upper], [str.strip], [str.isalpha])

    The definitions of this section agree with the Python methods on ASCII
    text, where a character is a byte.  On other text Python works on code
    points ([len]), maps letters such as e-acute to their capitals
    ([upper]), counts every Unicode letter ([isalpha]) and every Unicode
    space ([strip]); that is outside the model.  A theorem that says what
    the code does with a submitted code or name, or with a code or name
    given to [save], therefore assumes [ascii_text] of it. *)

Definition is_ascii (c : ascii) : bool := (nat_of_ascii c <? 128)%nat.

Definition is_lower (c : ascii) : bool :=
  let n := nat_of_ascii c in (97 <=? n)%nat && (n <=? 122)%nat.

Definition is_upper (c : ascii) : bool :=
  let n := nat_of_ascii c in (65 <=? n)%nat && (n <=? 90)%nat.

Definition is_alpha (c : ascii) : bool := is_lower c || is_upper c.

(** Python white space below 128: TAB..CR, FS..US and the blank. *)
Definition is_space (c : ascii) : bool :=
  let n := nat_of_ascii c in
  ((9 <=? n)%nat && (n <=? 13)%nat) || ((28 <=? n)%nat && (n <=? 32)%nat).

Definition upper_char (c : ascii) : ascii :=
  if is_lower c then ascii_of_nat (nat_of_ascii c - 32) else c.

Fixpoint upper (s : string) : string :=
  match s with
  | EmptyString => EmptyString
  | String c s' => String (upper_char c) (upper s')
  end.

Fixpoint all_chars (p : ascii -> bool) (s : string) : bool :=
  match s with
  | EmptyString => true
  | String c s' => p c && all_chars p s'
  end.

(** Text of ASCII characters only. *)
Definition ascii_text (s : string) : Prop := all_chars is_ascii s = true.

(** [str.isalpha()]: at least one character and all of them letters. *)
Definition isalpha (s : string) : bool :=
  match s with
  | EmptyString => false
  | _ => all_chars is_alpha s
  end.

Fixpoint lstrip (s : string) : string :=
  match s with
  | EmptyString => EmptyString
  | String c s' => if is_space c then lstrip s' else s
  end.

Fixpoint rstrip (s : string) : string :=
  match s with
  | EmptyString => EmptyString
  | String c s' =>
      match rstrip s' with
      | EmptyString => if is_space c then EmptyString else String c EmptyString
      | t => String c t
      end
  end.

Definition strip (s : string) : string := rstrip (lstrip s).

Definition len (s : string) : Z := Z.of_nat (String.length s).

Definition has_null (s : string) : bool :=
  negb (all_chars (fun c => negb (Ascii.eqb c zero)) s).

(** ** Exceptions and results *)

Inductive Field :=
| f_code | f_name | f_position
| f_source | f_destination | f_distance
| f_starting_airport | f_direction | f_n
| NON_FIELD_ERRORS.

Definition Field_eqb (f g : Field) : bool :=
  match f, g with
  | f_code, f_code | f_name, f_name | f_position, f_position
  | f_source, f_source | f_destination, f_destination
  | f_distance, f_distance | f_starting_airport, f_starting_airport
  | f_direction, f_direction | f_n, f_n
  | NON_FIELD_ERRORS, NON_FIELD_ERRORS => true
  | _, _ => false
  end.

(** The texts of the validation messages, with their parameters. *)
Inductive Message :=
| msg_required            (* This field is required. *)
| msg_invalid             (* Enter a whole number. *)
| msg_min_length (n : Z)
| msg_max_length (n : Z)
| msg_null_characters
| msg_min_value (n : Z)
| msg_max_value (n : Z)
| msg_invalid_choice
| msg_blank               (* This field cannot be blank. *)
| msg_null                (* This field cannot be null. *)
| msg_unique              (* ... with this ... already exists. *)
| msg_code_length         (* Airport code must be exactly 3 characters. *)
| msg_code_letters        (* Airport code must contain only letters. *)
| msg_position_taken (p : Z) (by_airport : Airport)
| msg_same_endpoints      (* Source and destination airports cannot be the same. *)
| msg_route_exists (s d : string)
| msg_distance_positive.  (* Distance must be a positive integer. *)

Definition ErrorDict := list (Field * Message).

Inductive Exception :=
| ValidationError (errors : ErrorDict)
| RelatedObjectDoesNotExist (f : Field)
| TypeError
| IntegrityError.

Inductive result (A : Type) :=
| Ok (a : A)
| Raise (e : Exception).
Arguments Ok {A} a.
Arguments Raise {A} e.

Definition bind {A B} (m : result A) (k : A -> result B) : result B :=
  match m with
  | Ok a => k a
  | Raise e => Raise e
  end.

Notation "x <- m ;; k" := (bind m (fun x => k))
  (at level 61, m at next level, right associativity).

(** [try: ... except ValidationError as e: errors.update(e)]: a validation
    error is collected, any other exception goes on. *)
Definition collect {A} (m : result A) (default : A) : result (A * ErrorDict) :=
  match m with
  | Ok a => Ok (a, [])
  | Raise (ValidationError errs) => Ok (default, errs)
  | Raise e => Raise e
  end.

Definition has_error (f : Field) (errs : ErrorDict) : bool :=
  existsb (fun fe => Field_eqb (fst fe) f) errs.

(** ** Form fields (django.forms, as configured in forms.py) *)

Inductive RawInt :=
| int_missing              (* no value submitted *)
| int_malformed            (* a value that is not a whole number *)
| int_value (z : Z).

(** [forms.CharField(min_length=, max_length=)]: required, stripped. *)
Definition CharField_clean (min_length : option Z) (max_length : Z)
    (raw : string) : string + list Message :=
  let value := strip raw in
  if (value =? "")%string then inr [msg_required]
  else
    let errs :=
      (match min_length with
       | Some n => if len value <? n then [msg_min_length n] else []
       | None => []
       end)
      ++ (if len value >? max_length then [msg_max_length max_length] else [])
      ++ (if has_null value then [msg_null_characters] else []) in
    match errs with
    | [] => inl value
    | _ => inr errs
    end.

(** [forms.IntegerField(min_value=)]: required. *)
Definition IntegerField_clean (min_value : Z) (raw : RawInt)
  : Z + list Message :=
  match raw with
  | int_missing => inr [msg_required]
  | int_malformed => inr [msg_invalid]
  | int_value z => if z <? min_value then inr [msg_min_value min_value] else inl z
  end.

(** [forms.ModelChoiceField(queryset=Airport.objects.all()...)]: the
    submitted value is a primary key, looked up with [queryset.get(pk=...)]. *)
Definition ModelChoiceField_clean (queryset : list Airport) (raw : string)
  : Airport + list Message :=
  if (raw =? "")%string then inr [msg_required]
  else match find (fun a => (code a =? raw)%string) queryset with
       | Some a => inl a
       | None => inr [msg_invalid_choice]
       end.

(** [forms.ChoiceField(choices=)]: required. *)
Definition ChoiceField_clean (choices : list string) (raw : string)
  : string + list Message :=
  if (raw =? "")%string then inr [msg_required]
  else if existsb (String.eqb raw) choices then inl raw
       else inr [msg_invalid_choice].

(** One round of [_clean_fields]: the value enters [cleaned_data] or the
    messages enter [errors] under the field's name. *)
Definition clean_field {A} (f : Field) (r : A + list Message)
  : option A * ErrorDict :=
  match r with
  | inl a => (Some a, [])
  | inr ms => (None, map (pair f) ms)
  end.

(** [clean_<name>] runs only when the field's own [clean] succeeded. *)
Definition and_then {A B} (r : A + list Message) (k : A -> B + list Message)
  : B + list Message :=
  match r with
  | inl a => k a
  | inr ms => inr ms
  end.

(** ** Airport: model validation and save (models.py) *)

(** An instance being built: a field not set yet holds its default. *)
Record AirportInstance := mkAirportInstance {
  inst_code : string;
  inst_name : string;
  inst_position : option Z
}.

(** [Airport.clean]: uppercases [self.code] in place, then may raise. *)
Definition Airport_clean (db : Db) (self : AirportInstance)
  : AirportInstance * result unit :=
  let self :=
    if negb (inst_code self =? "")%string
    then mkAirportInstance (upper (inst_code self)) (inst_name self)
           (inst_position self)
    else self in
  if negb (inst_code self =? "")%string && negb (len (inst_code self) =? 3)
  then (self, Raise (ValidationError [(f_code, msg_code_length)]))
  else
    match inst_position self with
    | Some p =>
        let existing_airport :=
          Airport_first
            (exclude (fun a => (code a =? inst_code self)%string)
               (filter (fun a => position a =? p) (airports db))) in
        match existing_airport with
        | Some ex => (self, Raise (ValidationError
                                     [(f_position, msg_position_taken p ex)]))
        | None => (self, Ok tt)
        end
    | None => (self, Ok tt)
    end.

(** The range of an integer column.  [models.IntegerField] takes it from
    the database back end and validates against it in [clean_fields]; the
    settings module is not among the sources, the range is the one of
    Django's default back end, SQLite (64-bit signed). *)
Definition INTEGER_MIN : Z := -9223372036854775808.
Definition INTEGER_MAX : Z := 9223372036854775807.

(** The validators of [models.IntegerField]: [MinValueValidator] then
    [MaxValueValidator]. *)
Definition integer_range_errors (f : Field) (z : Z) : ErrorDict :=
  (if z <? INTEGER_MIN then [(f, msg_min_value INTEGER_MIN)] else [])
  ++ (if z >? INTEGER_MAX then [(f, msg_max_value INTEGER_MAX)] else []).
Arguments integer_range_errors : simpl never.

(** [Model.clean_fields(exclude)] for Airport: [code] and [name] are
    non-blank with a maximal length, [position] is not null and in the
    range of the column. *)
Definition Airport_clean_fields (exclude_ : list Field)
    (self : AirportInstance) : ErrorDict :=
  (if existsb (Field_eqb f_code) exclude_ then []
   else if (inst_code self =? "")%string then [(f_code, msg_blank)]
   else if len (inst_code self) >? 3 then [(f_code, msg_max_length 3)] else [])
  ++ (if existsb (Field_eqb f_name) exclude_ then []
      else if (inst_name self =? "")%string then [(f_name, msg_blank)]
      else if len (inst_name self) >? 100 then [(f_name, msg_max_length 100)]
      else [])
  ++ (if existsb (Field_eqb f_position) exclude_ then []
      else match inst_position self with
           | None => [(f_position, msg_null)]
           | Some p => integer_range_errors f_position p
           end).

(** [Model.validate_unique(exclude)] for an Airport being added:
    [code] (primary key) and [position] are unique. *)
Definition Airport_validate_unique (db : Db) (exclude_ : list Field)
    (self : AirportInstance) : ErrorDict :=
  (if existsb (Field_eqb f_code) exclude_ then []
   else if exists_ (filter (fun a => (code a =? inst_code self)%string)
                      (airports db))
        then [(f_code, msg_unique)] else [])
  ++ (if existsb (Field_eqb f_position) exclude_ then []
      else match inst_position self with
           | Some p =>
               if exists_ (filter (fun a => position a =? p) (airports db))
               then [(f_position, msg_unique)] else []
           | None => []
           end).

(** [Model.full_clean(exclude, validate_unique)]: the errors of the three
    stages are gathered; here they are returned, the caller raises. *)
Definition Airport_full_clean (db : Db) (exclude_ : list Field)
    (validate_unique : bool) (self : AirportInstance)
  : result (AirportInstance * ErrorDict) :=
  let e1 := Airport_clean_fields exclude_ self in
  let (self, r) := Airport_clean db self in
  ue <- collect r tt ;;
  let errors := e1 ++ snd ue in
  let e3 :=
    if validate_unique
    then Airport_validate_unique db (exclude_ ++ map fst errors) self
    else [] in
  Ok (self, errors ++ e3).

(** [super().save()] for a row with an explicit primary key: UPDATE the row
    with that key, INSERT when there is none; UNIQUE(position). *)
Definition Airport_super_save (db : Db) (a : Airport) : result Db :=
  if exists_ (filter (fun b => (position b =? position a)
                               && negb (code b =? code a)%string)
                (airports db))
  then Raise IntegrityError
  else if exists_ (filter (fun b => (code b =? code a)%string) (airports db))
  then Ok (mkDb (map (fun b => if (code b =? code a)%string then a else b)
                   (airports db))
             (routes db) (route_seq db))
  else Ok (mkDb (airports db ++ [a]) (routes db) (route_seq db)).

(** [Airport.save]: [self.full_clean()] then [super().save()]. *)
Definition Airport_save (db : Db) (self : AirportInstance)
  : result (Db * Airport) :=
  ce <- Airport_full_clean db [] true self ;;
  match snd ce with
  | _ :: _ => Raise (ValidationError (snd ce))
  | [] =>
      match inst_position (fst ce) with
      | None => Raise IntegrityError
      | Some p =>
          let a := mkAirport (inst_code (fst ce)) (inst_name (fst ce)) p in
          db' <- Airport_super_save db a ;;
          Ok (db', a)
      end
  end.

(** [Airport.delete()]: the collector first deletes the rows that point to
    the airport through a CASCADE foreign key, then the airport. *)
Definition Airport_delete (db : Db) (a : Airport) : Db :=
  mkDb (exclude (fun b => (code b =? code a)%string) (airports db))
       (exclude (fun r => (source r =? code a)%string
                          || (destination r =? code a)%string) (routes db))
       (route_seq db).

(** ** AirportForm (forms.py) *)

Record AirportFormData := mkAirportFormData {
  post_code : string;
  post_name : string;
  post_position : RawInt
}.

(** [AirportForm.clean_code], on the value cleaned by the field. *)
Definition AirportForm_clean_code (cleaned : string) : string + list Message :=
  let code := strip (upper cleaned) in
  if negb (len code =? 3) then inr [msg_code_length]
  else if negb (isalpha code) then inr [msg_code_letters]
  else inl code.

(** [AirportForm.clean_position]: the form's instance is new, its primary
    key is empty, so [exclude(pk=None)] leaves every row in. *)
Definition AirportForm_clean_position (db : Db) (position_ : Z)
  : Z + list Message :=
  let existing_airport :=
    Airport_first
      (exclude (fun _ => false)
         (filter (fun a => position a =? position_) (airports db))) in
  match existing_airport with
  | Some ex => inr [msg_position_taken position_ ex]
  | None => inl position_
  end.

(** [_get_validation_exclusions]: the fields that failed form validation. *)
Definition failed_fields (fields : list Field) (errs : ErrorDict) : list Field :=
  filter (fun f => has_error f errs) fields.

(** [form.full_clean()]: [_clean_fields], [_clean_form] (nothing of its own
    here), [_post_clean]: the instance is built from [cleaned_data] (a field
    that failed keeps its default), validated with
    [instance.full_clean(exclude=<failed fields>, validate_unique=False)],
    then [validate_unique()].  Returns the instance and [form.errors]. *)
Definition AirportForm_full_clean (db : Db) (data : AirportFormData)
  : result (AirportInstance * ErrorDict) :=
  let (cd_code, e_code) :=
    clean_field f_code
      (and_then (CharField_clean (Some 3) 3 (post_code data))
         AirportForm_clean_code) in
  let (cd_name, e_name) :=
    clean_field f_name (CharField_clean None 100 (post_name data)) in
  let (cd_position, e_position) :=
    clean_field f_position
      (and_then (IntegerField_clean 1 (post_position data))
         (AirportForm_clean_position db)) in
  let errors := e_code ++ e_name ++ e_position in
  (* _post_clean *)
  let exclude_ := failed_fields [f_code; f_name; f_position] errors in
  let instance :=
    mkAirportInstance
      (match cd_code with Some c => c | None => "" end)
      (match cd_name with Some n => n | None => "" end)
      cd_position in
  ie <- Airport_full_clean db exclude_ false instance ;;
  let errors := errors ++ snd ie in
  let exclude_ := failed_fields [f_code; f_name; f_position] errors in
  Ok (fst ie, errors ++ Airport_validate_unique db exclude_ (fst ie)).

(** ** Route: model validation and save (models.py) *)

Record RouteInstance := mkRouteInstance {
  inst_source : option Airport;
  inst_destination : option Airport;
  inst_distance : option Z
}.

(** Reading a foreign key that is not set (and not nullable). *)
Definition related (f : Field) (o : option Airport) : result Airport :=
  match o with
  | Some a => Ok a
  | None => Raise (RelatedObjectDoesNotExist f)
  end.

(** [Route.clean].  [self.distance <= 0] with no distance is a comparison of
    [None] with an [int]. *)
Definition Route_clean (self : RouteInstance) : result unit :=
  src <- related f_source (inst_source self) ;;
  dst <- related f_destination (inst_destination self) ;;
  if Airport_eqb src dst
  then Raise (ValidationError [(f_destination, msg_same_endpoints)])
  else
    match inst_distance self with
    | None => Raise TypeError
    | Some d =>
        if d <=? 0
        then Raise (ValidationError [(f_distance, msg_distance_positive)])
        else Ok tt
    end.

(** [Model.clean_fields(exclude)] for Route: no field is null, a foreign
    key names an existing row and the distance is in the range of the
    column. *)
Definition Route_clean_fields (db : Db) (exclude_ : list Field)
    (self : RouteInstance) : ErrorDict :=
  let fk (f : Field) (o : option Airport) : ErrorDict :=
    if existsb (Field_eqb f) exclude_ then []
    else match o with
         | None => [(f, msg_null)]
         | Some a =>
             if exists_ (filter (fun b => (code b =? code a)%string)
                           (airports db))
             then [] else [(f, msg_invalid_choice)]
         end in
  fk f_source (inst_source self)
  ++ fk f_destination (inst_destination self)
  ++ (if existsb (Field_eqb f_distance) exclude_ then []
      else match inst_distance self with
           | None => [(f_distance, msg_null)]
           | Some z => integer_range_errors f_distance z
           end).

(** [Model.validate_unique(exclude)] for a Route being added:
    [unique_together = [['source', 'destination']]]. *)
Definition Route_validate_unique (db : Db) (exclude_ : list Field)
    (self : RouteInstance) : ErrorDict :=
  if existsb (Field_eqb f_source) exclude_
     || existsb (Field_eqb f_destination) exclude_ then []
  else match inst_source self, inst_destination self with
       | Some s, Some d =>
           if exists_ (filter (fun r => (source r =? code s)%string
                                        && (destination r =? code d)%string)
                         (routes db))
           then [(NON_FIELD_ERRORS, msg_unique)] else []
       | _, _ => []
       end.

Definition Route_full_clean (db : Db) (exclude_ : list Field)
    (validate_unique : bool) (self : RouteInstance) : result ErrorDict :=
  let e1 := Route_clean_fields db exclude_ self in
  ue <- collect (Route_clean self) tt ;;
  let errors := e1 ++ snd ue in
  let e3 :=
    if validate_unique
    then Route_validate_unique db (exclude_ ++ map fst errors) self
    else [] in
  Ok (errors ++ e3).

(** [super().save()] for a row with an automatic key: INSERT; both foreign
    keys and UNIQUE(source, destination) are database constraints. *)
Definition Route_super_save (db : Db) (now : Z) (s d : Airport) (dist : Z)
  : result (Db * Route) :=
  if negb (exists_ (filter (fun b => (code b =? code s)%string) (airports db)))
     || negb (exists_ (filter (fun b => (code b =? code d)%string) (airports db)))
     || exists_ (filter (fun r => (source r =? code s)%string
                                  && (destination r =? code d)%string)
                   (routes db))
  then Raise IntegrityError
  else
    let r := mkRoute (route_seq db + 1) (code s) (code d) dist now in
    Ok (mkDb (airports db) (routes db ++ [r]) (route_seq db + 1), r).

(** [Route.save]: [self.full_clean()] then [super().save()]. *)
Definition Route_save (db : Db) (now : Z) (self : RouteInstance)
  : result (Db * Route) :=
  errors <- Route_full_clean db [] true self ;;
  match errors with
  | _ :: _ => Raise (ValidationError errors)
  | [] =>
      match inst_source self, inst_destination self, inst_distance self with
      | Some s, Some d, Some dist => Route_super_save db now s d dist
      | _, _, _ => Raise IntegrityError
      end
  end.

(** [Route.delete()]. *)
Definition Route_delete (db : Db) (r : Route) : Db :=
  mkDb (airports db)
       (exclude (fun r' => route_id r' =? route_id r) (routes db))
       (route_seq db).

(** ** AirportRouteForm (forms.py) *)

Record RouteFormData := mkRouteFormData {
  post_source : string;
  post_destination : string;
  post_distance : RawInt
}.

(** [AirportRouteForm.clean], on [cleaned_data]; the form's instance is new. *)
Definition AirportRouteForm_clean (db : Db)
    (source_ destination_ : option Airport) : result unit :=
  _ <- match source_, destination_ with
       | Some s, Some d =>
           if Airport_eqb s d
           then Raise (ValidationError [(NON_FIELD_ERRORS, msg_same_endpoints)])
           else Ok tt
       | _, _ => Ok tt
       end ;;
  match source_, destination_ with
  | Some s, Some d =>
      let existing_route :=
        exists_ (filter (fun r => (source r =? code s)%string
                                  && (destination r =? code d)%string)
                   (routes db)) in
      if existing_route
      then Raise (ValidationError
                    [(NON_FIELD_ERRORS, msg_route_exists (code s) (code d))])
      else Ok tt
  | _, _ => Ok tt
  end.

(** [form.full_clean()] of the route form: [_clean_fields], [_clean_form],
    [_post_clean].  [_post_clean] builds the instance from [cleaned_data] (a
    field that failed keeps its default, [None]) and calls
    [instance.full_clean(exclude=<failed fields>, validate_unique=False)],
    which runs [Route.clean] whatever the field errors; only a
    [ValidationError] is caught there, any other exception leaves
    [form.is_valid()]. *)
Definition AirportRouteForm_full_clean (db : Db) (data : RouteFormData)
  : result (RouteInstance * ErrorDict) :=
  let (cd_source, e_source) :=
    clean_field f_source (ModelChoiceField_clean (airports db) (post_source data)) in
  let (cd_destination, e_destination) :=
    clean_field f_destination
      (ModelChoiceField_clean (airports db) (post_destination data)) in
  let (cd_distance, e_distance) :=
    clean_field f_distance (IntegerField_clean 1 (post_distance data)) in
  let errors := e_source ++ e_destination ++ e_distance in
  (* _clean_form *)
  ue <- collect (AirportRouteForm_clean db cd_source cd_destination) tt ;;
  let errors := errors ++ snd ue in
  (* _post_clean *)
  let exclude_ := failed_fields [f_source; f_destination; f_distance] errors in
  let instance := mkRouteInstance cd_source cd_destination cd_distance in
  e3 <- Route_full_clean db exclude_ false instance ;;
  let errors := errors ++ e3 in
  let exclude_ := failed_fields [f_source; f_destination; f_distance] errors in
  Ok (instance, errors ++ Route_validate_unique db exclude_ instance).

(** ** SearchForm (forms.py) *)

Record SearchFormData := mkSearchFormData {
  post_starting_airport : string;
  post_direction : string;
  post_n : RawInt
}.

Record SearchCleaned := mkSearchCleaned {
  starting_airport : Airport;
  direction : string;
  n : Z
}.

Definition DIRECTION_CHOICES : list string := ["left"; "right"].

(** [form.is_valid()] with [form.cleaned_data], or [form.errors]. *)
Definition SearchForm_full_clean (db : Db) (data : SearchFormData)
  : SearchCleaned + ErrorDict :=
  let (cd_start, e_start) :=
    clean_field f_starting_airport
      (ModelChoiceField_clean (airports db) (post_starting_airport data)) in
  let (cd_direction, e_direction) :=
    clean_field f_direction
      (ChoiceField_clean DIRECTION_CHOICES (post_direction data)) in
  let (cd_n, e_n) := clean_field f_n (IntegerField_clean 1 (post_n data)) in
  match cd_start, cd_direction, cd_n with
  | Some a, Some d, Some k => inl (mkSearchCleaned a d k)
  | _, _, _ => inr (e_start ++ e_direction ++ e_n)
  end.

(** ** Views (views.py) *)

Inductive Flash :=
| airport_added (a : Airport)
| route_added (r : Route)
| airport_deleted (airport_code airport_name : string)
| route_deleted (source_code dest_code : string) (dist : Z)
| error_raised (e : Exception)       (* "Error ...: {str(e)}" *)
| correct_the_errors_below
| cannot_delete_airport (airport_code : string) (total_routes : Z).

Inductive Response :=
| Redirect (message : Flash)
| Render (message : Flash) (form_errors : ErrorDict)
| Http404
| Unhandled (e : Exception).         (* the exception leaves the view *)

(** [with transaction.atomic(): ...]: commit on return, roll back when the
    block raises. *)
Definition atomic {A} (db : Db) (block : result (Db * A)) : Db * result A :=
  match block with
  | Ok (db', a) => (db', Ok a)
  | Raise e => (db, Raise e)
  end.

(** [AddAirportView.post]. *)
Definition AddAirportView_post (db : Db) (data : AirportFormData)
  : Db * Response :=
  match AirportForm_full_clean db data with
  | Raise e => (db, Unhandled e)
  | Ok (instance, []) =>
      match atomic db (Airport_save db instance) with
      | (db', Ok airport) => (db', Redirect (airport_added airport))
      | (db', Raise e) => (db', Render (error_raised e) [])
      end
  | Ok (_, errors) => (db, Render correct_the_errors_below errors)
  end.

(** [AddRouteView.post]; [now] is the clock read by [auto_now_add]. *)
Definition AddRouteView_post (db : Db) (now : Z) (data : RouteFormData)
  : Db * Response :=
  match AirportRouteForm_full_clean db data with
  | Raise e => (db, Unhandled e)
  | Ok (instance, []) =>
      match atomic db (Route_save db now instance) with
      | (db', Ok route) => (db', Redirect (route_added route))
      | (db', Raise e) => (db', Render (error_raised e) [])
      end
  | Ok (_, errors) => (db, Render correct_the_errors_below errors)
  end.

(** [delete_airport]. *)
Definition delete_airport (db : Db) (code_ : string) : Db * Response :=
  match find (fun a => (code a =? code_)%string) (airports db) with
  | None => (db, Http404)
  | Some airport =>
      let outgoing_count := count (outgoing_routes db airport) in
      let incoming_count := count (incoming_routes db airport) in
      let total_routes := outgoing_count + incoming_count in
      if total_routes >? 0
      then (db, Redirect (cannot_delete_airport (code airport) total_routes))
      else
        match atomic db (Ok (Airport_delete db airport, tt)) with
        | (db', Ok _) =>
            (db', Redirect (airport_deleted (code airport) (name airport)))
        | (db', Raise e) => (db', Redirect (error_raised e))
        end
  end.

(** [delete_route]. *)
Definition delete_route (db : Db) (pk : Z) : Db * Response :=
  match find (fun r => route_id r =? pk) (routes db) with
  | None => (db, Http404)
  | Some route =>
      match atomic db (Ok (Route_delete db route, tt)) with
      | (db', Ok _) =>
          (db', Redirect (route_deleted (source route) (destination route)
                            (distance route)))
      | (db', Raise e) => (db', Redirect (error_raised e))
      end
  end.

(** [NthNodeSearchView.post]: the context handed to the template. *)
Record NthResult := mkNthResult {
  res_starting_airport : Airport;
  res_direction : string;
  res_n : Z;
  target_airport : Airport;
  start_position : Z;
  target_position : Z
}.

Inductive NthError :=
| no_airport_at (target : Z).    (* "No airport found at position ..." *)

Record NthContext := mkNthContext {
  form_errors : ErrorDict;
  result_ : option NthResult;
  error_message : option NthError
}.

(** The body of the [try] block of [NthNodeSearchView.post], on the cleaned
    data: [(result, error_message)]. *)
Definition NthNodeSearchView_search (db : Db) (cleaned_data : SearchCleaned)
  : option NthResult * option NthError :=
  let starting_airport := starting_airport cleaned_data in
  let direction := direction cleaned_data in
  let n := n cleaned_data in
  let start_position := position starting_airport in
  let target_position :=
    if (direction =? "left")%string
    then start_position - n
    else start_position + n in
  let target_airport :=
    Airport_first
      (filter (fun a => position a =? target_position) (airports db)) in
  match target_airport with
  | Some t =>
      (Some (mkNthResult starting_airport direction n t
               start_position target_position), None)
  | None => (None, Some (no_airport_at target_position))
  end.

Definition NthNodeSearchView_post (db : Db) (data : SearchFormData)
  : NthContext :=
  match SearchForm_full_clean db data with
  | inl cleaned_data =>
      let (result, error_message) := NthNodeSearchView_search db cleaned_data in
      mkNthContext [] result error_message
  | inr errors => mkNthContext errors None None
  end.

(** ** The read-only views (views.py) *)

(** [HomeView.get_context_data]. *)
Record HomeContext := mkHomeContext {
  airport_count : Z;
  route_count : Z
}.

Definition HomeView_get_context_data (db : Db) : HomeContext :=
  mkHomeContext (count (airports db)) (count (routes db)).

(** [Route.Meta.ordering = ['-created_at']]: newest first. *)
Definition by_created_at_desc (r1 r2 : Route) : bool :=
  created_at r2 <=? created_at r1.

(** [LongestDurationView.get_context_data].  [if max_distance:] is false for
    [None] and for [0]; [Q(source=airport) | Q(destination=airport)] with no
    airport matches no row; the routes come in the default ordering of the
    model. *)
Record LongestContext := mkLongestContext {
  longest_airport : option Airport;
  longest_max_distance : option Z;
  longest_routes : list Route
}.

Definition LongestDurationView_get_context_data (db : Db) : LongestContext :=
  let (airport, max_distance) := Route_get_longest_distance_airport db in
  let routes_ :=
    match max_distance with
    | Some m =>
        if negb (m =? 0)
        then order_by by_created_at_desc
               (filter (fun r =>
                          match airport with
                          | Some a => ((source r =? code a)%string
                                       || (destination r =? code a)%string)
                                      && (distance r =? m)
                          | None => false
                          end) (routes db))
        else []
    | None => []
    end in
  mkLongestContext airport max_distance routes_.


(** [RouteListView.get_queryset]. *)
Definition RouteListView_get_queryset (db : Db) : list Route :=
  order_by by_created_at_desc (routes db).

(** ** The application as a transition system *)

Inductive Request :=
| POST_add_airport (data : AirportFormData)
| POST_add_route (now : Z) (data : RouteFormData)
| POST_delete_airport (code_ : string)
| POST_delete_route (pk : Z)
| model_delete_airport (code_ : string).   (* [Airport.delete()] called
                                              directly, as the admin site does *)

Definition handle (db : Db) (req : Request) : Db :=
  match req with
  | POST_add_airport data => fst (AddAirportView_post db data)
  | POST_add_route now data => fst (AddRouteView_post db now data)
  | POST_delete_airport c => fst (delete_airport db c)
  | POST_delete_route pk => fst (delete_route db pk)
  | model_delete_airport c =>
      match find (fun a => (code a =? c)%string) (airports db) with
      | Some a => Airport_delete db a
      | None => db
      end
  end.

Inductive reachable : Db -> Prop :=
| reachable_empty : reachable empty_db
| reachable_step db req : reachable db -> reachable (handle db req).

(** A request whose submitted code and name are ASCII text.  The other
    requests carry keys, which the code only compares for equality. *)
Definition ascii_request (req : Request) : Prop :=
  match req with
  | POST_add_airport data =>
      ascii_text (post_code data) /\ ascii_text (post_name data)
  | _ => True
  end.

(** The states reached from the empty database through such requests. *)
Inductive reachable_ascii : Db -> Prop :=
| reachable_ascii_empty : reachable_ascii empty_db
| reachable_ascii_step db req :
    reachable_ascii db -> ascii_request req -> reachable_ascii (handle db req).

(** ** State predicates *)

Definition positions_unique (db : Db) : Prop :=
  NoDup (map position (airports db)).

Definition codes_unique (db : Db) : Prop :=
  NoDup (map code (airports db)).

Definition airport_exists (db : Db) (c : string) : Prop :=
  exists a, In a (airports db) /\ code a = c.

Definition referential_integrity (db : Db) : Prop :=
  forall r, In r (routes db) ->
    airport_exists db (source r) /\ airport_exists db (destination r).

(** A route touches an airport as its source or its destination. *)
Definition touches (r : Route) (a : Airport) : Prop :=
  source r = code a \/ destination r = code a.

Definition is_max_distance (m : Z) (rs : list Route) : Prop :=
  (exists r, In r rs /\ distance r = m) /\
  (forall r, In r rs -> distance r <= m).

(** Source code first, destination code among equal sources. *)
Definition codes_le (r1 r2 : Route) : Prop :=
  String.ltb (source r1) (source r2) = true \/
  (source r1 = source r2 /\
   String.leb (destination r1) (destination r2) = true).

(** The position looked up by [NthNodeSearchView.post] for cleaned data. *)
Definition target_of (cd : SearchCleaned) : Z :=
  if (direction cd =? "left")%string
  then position (starting_airport cd) - n cd
  else position (starting_airport cd) + n cd.

(** Every error is attached to one of the three fields of the airport form. *)
Definition on_airport_fields (errs : ErrorDict) : Prop :=
  forall fe, In fe errs ->
    fst fe = f_code \/ fst fe = f_name \/ fst fe = f_position.

(** The conditions under which an airport registration is accepted, [p]
    being the submitted position: the trimmed code has three letters and its
    uppercase form is no existing code, the trimmed name is not empty, has at
    most 100 characters and no null character, the position is at least 1,
    at most [INTEGER_MAX] and not the position of an existing airport. *)
Definition registration_acceptable (db : Db) (data : AirportFormData) (p : Z)
  : Prop :=
  let v := strip (post_code data) in
  let nm := strip (post_name data) in
  len v = 3 /\ all_chars is_alpha v = true /\
  nm <> "" /\ len nm <= 100 /\ has_null nm = false /\
  post_position data = int_value p /\ 1 <= p <= INTEGER_MAX /\
  (forall b, In b (airports db) -> position b <> p) /\
  (forall b, In b (airports db) -> code b <> upper v).

(** ** Further state predicates *)

(** What the airport form lets into the table. *)
Definition airport_well_formed (a : Airport) : Prop :=
  len (code a) = 3 /\ all_chars is_upper (code a) = true /\
  name a <> "" /\ len (name a) <= 100 /\ 1 <= position a.

(** What [Route.clean] lets into the table. *)
Definition route_well_formed (r : Route) : Prop :=
  source r <> destination r /\ 1 <= distance r.

(** [unique_together = [['source', 'destination']]]. *)
Definition pairs_unique (db : Db) : Prop :=
  NoDup (map (fun r => (source r, destination r)) (routes db)).

(** The automatic keys are distinct and were all handed out already. *)
Definition route_ids_unique (db : Db) : Prop :=
  NoDup (map route_id (routes db)) /\
  forall r, In r (routes db) -> 1 <= route_id r <= route_seq db.

(** A submission of the route form that creates a route, with its cleaned
    endpoints and distance: the endpoints are different airports of the
    table, the distance is between 1 and [INTEGER_MAX] and the ordered pair
    has no route. *)
Definition route_acceptable (db : Db) (data : RouteFormData)
    (s d : Airport) (z : Z) : Prop :=
  ModelChoiceField_clean (airports db) (post_source data) = inl s /\
  ModelChoiceField_clean (airports db) (post_destination data) = inl d /\
  code s <> code d /\
  post_distance data = int_value z /\ 1 <= z <= INTEGER_MAX /\
  (forall r, In r (routes db) ->
     ~ (source r = code s /\ destination r = code d)).

(** The routes that name an airport as source or destination. *)
Definition touching (db : Db) (a : Airport) : list Route :=
  filter (fun r => (source r =? code a)%string
                   || (destination r =? code a)%string) (routes db).

(** Posting [delete_route] for each key of a list, in order. *)
Definition delete_routes (db : Db) (pks : list Z) : Db :=
  fold_left (fun db' pk => fst (delete_route db' pk)) pks db.

(** ** Sample data (the airports and routes of tests.py) *)

Definition JFK : Airport :=
  mkAirport "JFK" "John F. Kennedy International Airport" 1.
Definition LAX : Airport :=
  mkAirport "LAX" "Los Angeles International Airport" 2.
Definition ORD : Airport := mkAirport "ORD" "Chicago O'Hare" 3.

Definition JFK_LAX : Route := mkRoute 1 "JFK" "LAX" 360 10.
Definition LAX_ORD : Route := mkRoute 2 "LAX" "ORD" 500 11.

(** Two airports, no route. *)
Definition two_airports : Db := mkDb [JFK; LAX] [] 0.

(** Three airports, routes JFK->LAX:360 and LAX->ORD:500. *)
Definition sample_db : Db := mkDb [JFK; LAX; ORD] [JFK_LAX; LAX_ORD] 2.

(** ** A session that builds the sample data *)

(** Serving a list of requests in order. *)
Definition run (db : Db) (reqs : list Request) : Db := fold_left handle reqs db.

Definition sample_requests : list Request :=
  [ POST_add_airport
      (mkAirportFormData "jfk" "John F. Kennedy International Airport" (int_value 1));
    POST_add_airport
      (mkAirportFormData "lax" "Los Angeles International Airport" (int_value 2));
    POST_add_airport (mkAirportFormData "ord" "Chicago O'Hare" (int_value 3));
    POST_add_route 10 (mkRouteFormData "JFK" "LAX" (int_value 360));
    POST_add_route 11 (mkRouteFormData "LAX" "ORD" (int_value 500)) ].

(** A character that [str.upper] leaves as it is. *)
Definition is_upper_fixed (c : ascii) : bool := Ascii.eqb (upper_char c) c.

(** The other direction of the search form. *)
Definition opposite (d : string) : string :=
  if (d =? "left")%string then "right" else "left".

(** * Properties *)

(** ** Ordered query sets *)

Section OrderBy.
Context {A : Type} (leb : A -> A -> bool).

Lemma insert_by_perm (x : A) (l : list A) :
  Permutation (insert_by leb x l) (x :: l).
Proof.
  induction l as [|y l IH]; simpl; [reflexivity|].
  destruct (leb x y); [reflexivity|].
  rewrite IH. apply perm_swap.
Qed.

Lemma order_by_perm (l : list A) : Permutation (order_by leb l) l.
Proof.
  induction l as [|x l IH]; simpl; [constructor|].
  rewrite insert_by_perm. now constructor.
Qed.

Lemma order_by_In (l : list A) (x : A) : In x (order_by leb l) <-> In x l.
Proof.
  split; apply Permutation_in;
    [apply order_by_perm | symmetry; apply order_by_perm].
Qed.

Lemma first_order_by_None (l : list A) :
  first (order_by leb l) = None <-> l = [].
Proof.
  split; [|intros ->; reflexivity].
  intros H. destruct (order_by leb l) eqn:E; [|discriminate].
  destruct l as [|x l]; [reflexivity|].
  assert (Hin : In x (order_by leb (x :: l))) by (apply order_by_In; now left).
  rewrite E in Hin. destruct Hin.
Qed.

Lemma first_order_by_In (l : list A) (x : A) :
  first (order_by leb l) = Some x -> In x l.
Proof.
  intros H. apply order_by_In.
  destruct (order_by leb l); simpl in H; [discriminate|].
  injection H as ->. now left.
Qed.

Hypothesis leb_total : forall x y, leb x y = false -> leb y x = true.

Lemma insert_by_sorted (x : A) (l : list A) :
  Sorted (fun a b => leb a b = true) l ->
  Sorted (fun a b => leb a b = true) (insert_by leb x l).
Proof.
  induction 1 as [|y l Hs IH Hhd]; simpl.
  - repeat constructor.
  - destruct (leb x y) eqn:E.
    + constructor; [now constructor | now constructor].
    + constructor; [exact IH|].
      destruct l as [|z l]; simpl.
      * constructor. now apply leb_total.
      * destruct (leb x z); constructor.
        -- now apply leb_total.
        -- now inversion Hhd.
Qed.

Lemma order_by_sorted (l : list A) :
  Sorted (fun a b => leb a b = true) (order_by leb l).
Proof.
  induction l; simpl; [constructor | now apply insert_by_sorted].
Qed.

Hypothesis leb_trans :
  forall x y z, leb x y = true -> leb y z = true -> leb x z = true.

(** The first row of an ordered query set is a least one. *)
Lemma first_order_by_least (l : list A) (m : A) :
  first (order_by leb l) = Some m ->
  forall x, In x l -> leb m x = true.
Proof.
  intros H x Hx.
  assert (Hss : StronglySorted (fun a b => leb a b = true) (order_by leb l)).
  { apply Sorted_StronglySorted; [|apply order_by_sorted].
    intros a b c. apply leb_trans. }
  apply order_by_In in Hx.
  destruct (order_by leb l) as [|y t]; simpl in H; [discriminate|].
  injection H as ->.
  destruct Hx as [->|Hx].
  - destruct (leb x x) eqn:E; [reflexivity|].
    pose proof (leb_total _ _ E). congruence.
  - inversion Hss as [|? ? _ Hall]; subst.
    rewrite Forall_forall in Hall. now apply Hall.
Qed.
End OrderBy.

(** ** Orders used by the queries *)

Lemma by_distance_total r1 r2 :
  by_distance r1 r2 = false -> by_distance r2 r1 = true.
Proof. unfold by_distance. intros H. apply Z.leb_gt in H. apply Z.leb_le. lia. Qed.

Lemma by_distance_trans r1 r2 r3 :
  by_distance r1 r2 = true -> by_distance r2 r3 = true ->
  by_distance r1 r3 = true.
Proof. unfold by_distance. rewrite !Z.leb_le. lia. Qed.

Lemma by_codes_total r1 r2 :
  by_codes r1 r2 = false -> by_codes r2 r1 = true.
Proof.
  unfold by_codes.
  rewrite (String.compare_antisym (source r2) (source r1)).
  destruct (String.compare (source r1) (source r2)); simpl; intros H.
  - destruct (String.leb_total (destination r1) (destination r2)); congruence.
  - discriminate.
  - reflexivity.
Qed.

Lemma by_codes_le r1 r2 : by_codes r1 r2 = true -> codes_le r1 r2.
Proof.
  unfold by_codes, codes_le, String.ltb.
  destruct (String.compare (source r1) (source r2)) eqn:E; intros H.
  - right. split; [now apply String.compare_eq_iff | exact H].
  - now left.
  - discriminate.
Qed.

Lemma Sorted_impl {A} (R S : A -> A -> Prop) (l : list A) :
  (forall a b, R a b -> S a b) -> Sorted R l -> Sorted S l.
Proof.
  intros HRS. induction 1 as [|x l Hs IH Hhd]; constructor; [exact IH|].
  destruct Hhd; constructor. now apply HRS.
Qed.

Lemma aggregate_max_from (rs : list Route) (m0 : Z) :
  exists m,
    fold_left (fun acc r =>
                 match acc with
                 | None => Some (distance r)
                 | Some m => Some (Z.max m (distance r))
                 end) rs (Some m0) = Some m /\
    m0 <= m /\
    (forall r, In r rs -> distance r <= m) /\
    (m = m0 \/ exists r, In r rs /\ distance r = m).
Proof.
  revert m0. induction rs as [|r rs IH]; intros m0; simpl.
  - exists m0. repeat split; [lia | intros r [] | now left].
  - destruct (IH (Z.max m0 (distance r))) as (m & Hf & Hle & Hall & Hex).
    exists m. split; [exact Hf|]. split; [lia|]. split.
    + intros r' [<-|Hin]; [lia | now apply Hall].
    + destruct Hex as [->|(r' & Hin & Hd)].
      * destruct (Z.max_spec m0 (distance r)) as [[_ E]|[_ E]]; rewrite E.
        -- right. exists r. split; [now left | reflexivity].
        -- now left.
      * right. exists r'. split; [now right | exact Hd].
Qed.

Lemma aggregate_max_distance_None (rs : list Route) :
  aggregate_max_distance rs = None <-> rs = [].
Proof.
  split; [|intros ->; reflexivity].
  destruct rs as [|r rs]; [reflexivity|].
  unfold aggregate_max_distance. simpl.
  destruct (aggregate_max_from rs (distance r)) as (m & Hf & _).
  rewrite Hf. discriminate.
Qed.

Lemma aggregate_max_distance_Some (rs : list Route) (m : Z) :
  aggregate_max_distance rs = Some m -> is_max_distance m rs.
Proof.
  destruct rs as [|r rs]; [discriminate|].
  unfold aggregate_max_distance. simpl.
  destruct (aggregate_max_from rs (distance r)) as (m' & Hf & Hle & Hall & Hex).
  rewrite Hf. intros [= <-]. split.
  - destruct Hex as [->|(r' & Hin & Hd)].
    + exists r. split; [now left | reflexivity].
    + exists r'. split; [now right | exact Hd].
  - intros r' [<-|Hin]; [exact Hle | now apply Hall].
Qed.

Lemma exists_filter_true {A} (p : A -> bool) (l : list A) :
  exists_ (filter p l) = true <-> exists x, In x l /\ p x = true.
Proof.
  split.
  - destruct (filter p l) as [|x t] eqn:E; [discriminate|]. intros _.
    exists x. apply filter_In. rewrite E. now left.
  - intros (x & Hin & Hp).
    assert (H : In x (filter p l)) by (apply filter_In; now split).
    destruct (filter p l); [destruct H | reflexivity].
Qed.

Lemma exists_filter_false {A} (p : A -> bool) (l : list A) :
  exists_ (filter p l) = false <-> forall x, In x l -> p x = false.
Proof.
  split.
  - intros H x Hin. destruct (p x) eqn:E; [|reflexivity].
    assert (exists_ (filter p l) = true)
      by (apply exists_filter_true; now exists x).
    congruence.
  - intros H. destruct (exists_ (filter p l)) eqn:E; [|reflexivity].
    apply exists_filter_true in E. destruct E as (x & Hin & Hp).
    rewrite (H x Hin) in Hp. discriminate.
Qed.

Lemma Airport_first_None (qs : list Airport) :
  Airport_first qs = None <-> qs = [].
Proof. apply first_order_by_None. Qed.

Lemma Airport_first_In (qs : list Airport) (a : Airport) :
  Airport_first qs = Some a -> In a qs.
Proof. apply first_order_by_In. Qed.

(** ** The longest-route query *)

(** C2. [Route.get_longest_distance_airport] returns [(None, None)] exactly
    when the routes table is empty; otherwise it returns the greatest
    distance of the table together with an airport that is the source or the
    destination of a route of that distance. *)
Theorem longest_distance_airport_query (db : Db) :
  referential_integrity db ->
  (Route_get_longest_distance_airport db = (None, None) <-> routes db = []) /\
  (routes db <> [] ->
   exists a m,
     Route_get_longest_distance_airport db = (Some a, Some m) /\
     is_max_distance m (routes db) /\
     In a (airports db) /\
     exists r, In r (routes db) /\ distance r = m /\ touches r a).
Proof.
  intros Href. unfold Route_get_longest_distance_airport.
  destruct (aggregate_max_distance (routes db)) as [m|] eqn:Hmax.
  - assert (Hne : routes db <> []).
    { intros E. apply aggregate_max_distance_None in E. congruence. }
    split; [split; [discriminate | intros E; contradiction]|].
    intros _.
    pose proof (aggregate_max_distance_Some _ _ Hmax) as Hm.
    set (p := fun a : Airport =>
                exists_ (filter (fun r => distance r =? m) (outgoing_routes db a))
                || exists_ (filter (fun r => distance r =? m)
                              (incoming_routes db a))).
    assert (Hp : forall a, p a = true ->
                 exists r, In r (routes db) /\ distance r = m /\ touches r a).
    { intros a Ha. unfold p in Ha. apply orb_true_iff in Ha.
      destruct Ha as [Ha|Ha]; apply exists_filter_true in Ha;
        destruct Ha as (r & Hin & Hd); apply filter_In in Hin;
        destruct Hin as [Hin Hc]; apply String.eqb_eq in Hc;
        apply Z.eqb_eq in Hd; exists r; unfold touches; auto. }
    destruct (Airport_first (distinct (filter p (airports db)))) as [a|] eqn:Hf.
    + exists a, m. split; [reflexivity|]. split; [exact Hm|].
      apply Airport_first_In in Hf. apply nodup_In in Hf.
      apply filter_In in Hf. destruct Hf as [Hin Ha].
      split; [exact Hin | now apply Hp].
    + exfalso. apply Airport_first_None in Hf.
      destruct Hm as [(r & Hin & Hd) _].
      destruct (Href r Hin) as [(a & Ha & Hc) _].
      assert (Hpa : p a = true).
      { unfold p. apply orb_true_iff. left. apply exists_filter_true.
        exists r. split; [|now apply Z.eqb_eq].
        apply filter_In. split; [exact Hin | now apply String.eqb_eq]. }
      assert (Hd' : In a (distinct (filter p (airports db)))).
      { apply nodup_In. apply filter_In. now split. }
      rewrite Hf in Hd'. destruct Hd'.
  - apply aggregate_max_distance_None in Hmax.
    split; [split; [intros _; exact Hmax | reflexivity]|].
    intros Hne. contradiction.
Qed.

Lemma sample_db_referential_integrity : referential_integrity sample_db.
Proof.
  intros r [<-|[<-|[]]]; split.
  - exists JFK. split; [now left | reflexivity].
  - exists LAX. split; [right; now left | reflexivity].
  - exists LAX. split; [right; now left | reflexivity].
  - exists ORD. split; [right; right; now left | reflexivity].
Qed.

(** With routes JFK->LAX:360 and LAX->ORD:500 the answer has distance 500 and
    an airport touching a route of distance 500. *)
Lemma longest_distance_airport_query_witness :
  exists a m,
    Route_get_longest_distance_airport sample_db = (Some a, Some m) /\
    is_max_distance m (routes sample_db) /\
    In a (airports sample_db) /\
    exists r, In r (routes sample_db) /\ distance r = m /\ touches r a.
Proof.
  apply (longest_distance_airport_query sample_db).
  - exact sample_db_referential_integrity.
  - discriminate.
Defined.

Example longest_distance_airport_no_routes :
  Route_get_longest_distance_airport two_airports = (None, None).
Proof. reflexivity. Qed.

Example longest_distance_airport_sample :
  Route_get_longest_distance_airport sample_db = (Some LAX, Some 500).
Proof. reflexivity. Qed.

(** ** The shortest-route query *)

(** C3. [Route.get_shortest_route] returns [None] exactly when the routes
    table is empty; otherwise it returns a route of the table whose distance
    is at most the distance of every route, and the view lists exactly the
    routes of that distance, ordered by source code, then destination
    code. *)
Theorem shortest_route_query (db : Db) :
  (Route_get_shortest_route db = None <-> routes db = []) /\
  (forall r, Route_get_shortest_route db = Some r ->
     In r (routes db) /\
     (forall r', In r' (routes db) -> distance r <= distance r') /\
     shortest_route (ShortestRouteView_get_context_data db) = Some r /\
     shortest_distance (ShortestRouteView_get_context_data db)
       = Some (distance r) /\
     Permutation (shortest_routes (ShortestRouteView_get_context_data db))
       (filter (fun r' => distance r' =? distance r) (routes db)) /\
     Sorted codes_le (shortest_routes (ShortestRouteView_get_context_data db))).
Proof.
  split; [apply first_order_by_None|].
  intros r Hr. split; [now apply first_order_by_In in Hr|]. split.
  - intros r' Hin. apply Z.leb_le.
    apply (first_order_by_least by_distance by_distance_total
             by_distance_trans (routes db) r Hr r' Hin).
  - unfold ShortestRouteView_get_context_data. rewrite Hr. simpl.
    repeat split.
    + apply order_by_perm.
    + apply Sorted_impl with (R := fun a b => by_codes a b = true).
      * apply by_codes_le.
      * apply order_by_sorted. apply by_codes_total.
Qed.

Lemma shortest_route_query_witness :
  In JFK_LAX (routes sample_db) /\
  (forall r', In r' (routes sample_db) -> distance JFK_LAX <= distance r') /\
  shortest_route (ShortestRouteView_get_context_data sample_db) = Some JFK_LAX /\
  shortest_distance (ShortestRouteView_get_context_data sample_db)
    = Some (distance JFK_LAX) /\
  Permutation (shortest_routes (ShortestRouteView_get_context_data sample_db))
    (filter (fun r' => distance r' =? distance JFK_LAX) (routes sample_db)) /\
  Sorted codes_le (shortest_routes (ShortestRouteView_get_context_data sample_db)).
Proof.
  apply (proj2 (shortest_route_query sample_db) JFK_LAX). reflexivity.
Defined.

Example shortest_route_empty :
  ShortestRouteView_get_context_data two_airports = mkShortestContext None None [].
Proof. reflexivity. Qed.

(** ** The Nth-node query *)

Lemma NoDup_map_eq {A B} (f : A -> B) (l : list A) (a b : A) :
  NoDup (map f l) -> In a l -> In b l -> f a = f b -> a = b.
Proof.
  induction l as [|x l IH]; simpl; intros Hnd Ha Hb Hf; [destruct Ha|].
  inversion Hnd as [|? ? Hnin Hnd']; subst.
  destruct Ha as [->|Ha], Hb as [->|Hb]; auto.
  - exfalso. apply Hnin. rewrite Hf. now apply in_map.
  - exfalso. apply Hnin. rewrite <- Hf. now apply in_map.
Qed.

Lemma filter_none {A} (p : A -> bool) (l : list A) :
  (forall x, In x l -> p x = false) -> filter p l = [].
Proof.
  induction l as [|y l IH]; simpl; intros H; [reflexivity|].
  rewrite (H y) by now left. apply IH. intros x Hx. apply H. now right.
Qed.

Lemma filter_position_unique (db : Db) (a : Airport) :
  positions_unique db -> In a (airports db) ->
  filter (fun b => position b =? position a) (airports db) = [a].
Proof.
  unfold positions_unique. induction (airports db) as [|x l IH]; simpl;
    intros Hnd Hin; [destruct Hin|].
  inversion Hnd as [|? ? Hnin Hnd']; subst.
  destruct Hin as [->|Hin].
  - rewrite Z.eqb_refl. f_equal. apply filter_none.
    intros b Hb. apply Z.eqb_neq. intros E.
    apply Hnin. rewrite <- E. now apply in_map.
  - destruct (position x =? position a) eqn:E.
    + exfalso. apply Z.eqb_eq in E. apply Hnin. rewrite E. now apply in_map.
    + now apply IH.
Qed.

Lemma SearchForm_full_clean_inl (db : Db) (data : SearchFormData)
    (cd : SearchCleaned) :
  SearchForm_full_clean db data = inl cd ->
  ModelChoiceField_clean (airports db) (post_starting_airport data)
    = inl (starting_airport cd) /\
  ChoiceField_clean DIRECTION_CHOICES (post_direction data)
    = inl (direction cd) /\
  IntegerField_clean 1 (post_n data) = inl (n cd).
Proof.
  unfold SearchForm_full_clean.
  destruct (ModelChoiceField_clean _ _) as [a|?];
    destruct (ChoiceField_clean _ _) as [d|?];
    destruct (IntegerField_clean _ _) as [k|?]; simpl;
    intros H; inversion H; subst; auto.
Qed.

Lemma SearchForm_direction (db : Db) (data : SearchFormData)
    (cd : SearchCleaned) :
  SearchForm_full_clean db data = inl cd ->
  direction cd = "left" \/ direction cd = "right".
Proof.
  intros H. apply SearchForm_full_clean_inl in H. destruct H as (_ & H & _).
  unfold ChoiceField_clean, DIRECTION_CHOICES in H.
  destruct (post_direction data =? "")%string; [discriminate|].
  simpl in H.
  destruct (post_direction data =? "left")%string eqn:El.
  - apply String.eqb_eq in El. inversion H. left. congruence.
  - destruct (post_direction data =? "right")%string eqn:Er; [|discriminate].
    apply String.eqb_eq in Er. inversion H. right. congruence.
Qed.

Lemma NthNodeSearchView_search_spec (db : Db) (cd : SearchCleaned) :
  (exists t,
      In t (airports db) /\ position t = target_of cd /\
      NthNodeSearchView_search db cd =
        (Some (mkNthResult (starting_airport cd) (direction cd) (n cd) t
                 (position (starting_airport cd)) (target_of cd)), None) /\
      (positions_unique db ->
       forall a, In a (airports db) -> position a = target_of cd -> a = t))
  \/
  ((forall a, In a (airports db) -> position a <> target_of cd) /\
   NthNodeSearchView_search db cd = (None, Some (no_airport_at (target_of cd)))).
Proof.
  unfold NthNodeSearchView_search. fold (target_of cd).
  destruct (Airport_first _) as [t|] eqn:E.
  - left. exists t. apply Airport_first_In in E. apply filter_In in E.
    destruct E as [Hin Hpos]. apply Z.eqb_eq in Hpos.
    repeat split; auto.
    intros Hu a Ha Hp.
    apply (NoDup_map_eq position (airports db)); auto. congruence.
  - right. split; [|reflexivity].
    apply Airport_first_None in E. intros a Ha Hp.
    assert (H : In a (filter (fun a0 => position a0 =? target_of cd) (airports db))).
    { apply filter_In. split; [exact Ha | now apply Z.eqb_eq]. }
    rewrite E in H. destruct H.
Qed.

(** C1. For a submission accepted by the search form, the looked-up position
    is [P + n] for direction right and [P - n] for direction left, where [P]
    is the position of the starting airport; the view returns an airport of
    that position when there is one (the only one when positions are
    unique) and reports not-found otherwise; two accepted submissions with
    the same looked-up position get the same answer. *)
Theorem nth_node_query (db : Db) (data : SearchFormData) (cd : SearchCleaned) :
  SearchForm_full_clean db data = inl cd ->
  (direction cd = "right" /\
     target_of cd = position (starting_airport cd) + n cd
   \/ direction cd = "left" /\
     target_of cd = position (starting_airport cd) - n cd) /\
  ((exists t,
       In t (airports db) /\ position t = target_of cd /\
       result_ (NthNodeSearchView_post db data) =
         Some (mkNthResult (starting_airport cd) (direction cd) (n cd) t
                 (position (starting_airport cd)) (target_of cd)) /\
       error_message (NthNodeSearchView_post db data) = None /\
       (positions_unique db ->
        forall a, In a (airports db) -> position a = target_of cd -> a = t))
   \/
   ((forall a, In a (airports db) -> position a <> target_of cd) /\
    result_ (NthNodeSearchView_post db data) = None /\
    error_message (NthNodeSearchView_post db data)
      = Some (no_airport_at (target_of cd)))) /\
  (forall data' cd',
     SearchForm_full_clean db data' = inl cd' ->
     target_of cd' = target_of cd ->
     option_map target_airport (result_ (NthNodeSearchView_post db data'))
       = option_map target_airport (result_ (NthNodeSearchView_post db data))
     /\ error_message (NthNodeSearchView_post db data')
        = error_message (NthNodeSearchView_post db data)).
Proof.
  intros Hcd. split; [|split].
  - destruct (SearchForm_direction _ _ _ Hcd) as [E|E]; unfold target_of;
      rewrite E; simpl; auto.
  - unfold NthNodeSearchView_post. rewrite Hcd.
    destruct (NthNodeSearchView_search_spec db cd)
      as [(t & Hin & Hpos & Hs & Hu)|(Hnone & Hs)]; rewrite Hs; simpl.
    + left. exists t. auto.
    + right. auto.
  - intros data' cd' Hcd' Ht.
    unfold NthNodeSearchView_post. rewrite Hcd, Hcd'.
    unfold NthNodeSearchView_search. fold (target_of cd) (target_of cd').
    rewrite Ht.
    destruct (Airport_first _); simpl; auto.
Qed.

Lemma nth_node_query_witness :
  let data := mkSearchFormData "JFK" "right" (int_value 2) in
  let cd := mkSearchCleaned JFK "right" 2 in
  (direction cd = "right" /\
     target_of cd = position (starting_airport cd) + n cd
   \/ direction cd = "left" /\
     target_of cd = position (starting_airport cd) - n cd) /\
  ((exists t,
       In t (airports sample_db) /\ position t = target_of cd /\
       result_ (NthNodeSearchView_post sample_db data) =
         Some (mkNthResult (starting_airport cd) (direction cd) (n cd) t
                 (position (starting_airport cd)) (target_of cd)) /\
       error_message (NthNodeSearchView_post sample_db data) = None /\
       (positions_unique sample_db ->
        forall a, In a (airports sample_db) ->
                  position a = target_of cd -> a = t))
   \/
   ((forall a, In a (airports sample_db) -> position a <> target_of cd) /\
    result_ (NthNodeSearchView_post sample_db data) = None /\
    error_message (NthNodeSearchView_post sample_db data)
      = Some (no_airport_at (target_of cd)))) /\
  (forall data' cd',
     SearchForm_full_clean sample_db data' = inl cd' ->
     target_of cd' = target_of cd ->
     option_map target_airport (result_ (NthNodeSearchView_post sample_db data'))
       = option_map target_airport
           (result_ (NthNodeSearchView_post sample_db data))
     /\ error_message (NthNodeSearchView_post sample_db data')
        = error_message (NthNodeSearchView_post sample_db data)).
Proof.
  intros data cd. apply (nth_node_query sample_db data cd). reflexivity.
Defined.

Example nth_node_right_sample :
  result_ (NthNodeSearchView_post sample_db
             (mkSearchFormData "JFK" "right" (int_value 2)))
  = Some (mkNthResult JFK "right" 2 ORD 1 3).
Proof. reflexivity. Qed.

Example nth_node_left_out_of_bounds :
  NthNodeSearchView_post sample_db (mkSearchFormData "JFK" "left" (int_value 2))
  = mkNthContext [] None (Some (no_airport_at (-1))).
Proof. reflexivity. Qed.

(** C10. Every submission accepted by the search form has [n >= 1]; a
    submitted magnitude of zero or less is refused with the minimal-value
    error on [n] and no query is made; were the offset zero, the query would
    return the starting airport itself. *)
Theorem search_form_magnitude (db : Db) (data : SearchFormData) :
  (forall cd, SearchForm_full_clean db data = inl cd ->
     1 <= n cd /\ post_n data = int_value (n cd)) /\
  (forall z, post_n data = int_value z -> z <= 0 ->
     exists errors,
       SearchForm_full_clean db data = inr errors /\
       In (f_n, msg_min_value 1) errors /\
       NthNodeSearchView_post db data = mkNthContext errors None None) /\
  (forall a d, positions_unique db -> In a (airports db) ->
     NthNodeSearchView_search db (mkSearchCleaned a d 0)
     = (Some (mkNthResult a d 0 a (position a) (position a)), None)).
Proof.
  split; [|split].
  - intros cd H. apply SearchForm_full_clean_inl in H.
    destruct H as (_ & _ & H). unfold IntegerField_clean in H.
    destruct (post_n data) as [| |z]; try discriminate.
    destruct (z <? 1) eqn:E; [discriminate|].
    inversion H; subst. apply Z.ltb_ge in E. auto.
  - intros z Hz Hle. unfold NthNodeSearchView_post, SearchForm_full_clean.
    rewrite Hz. simpl.
    assert (E : (z <? 1) = true) by (apply Z.ltb_lt; lia).
    rewrite E.
    destruct (clean_field f_starting_airport _) as [s es].
    destruct (clean_field f_direction _) as [dr ed]. simpl.
    exists (es ++ ed ++ [(f_n, msg_min_value 1)]).
    assert (Hin : In (f_n, msg_min_value 1) (es ++ ed ++ [(f_n, msg_min_value 1)])).
    { apply in_or_app. right. apply in_or_app. right. now left. }
    destruct s, dr; auto.
  - intros a d Hu Hin. unfold NthNodeSearchView_search. simpl.
    assert (Ht : (if (d =? "left")%string then position a - 0 else position a + 0)
                 = position a) by (destruct (d =? "left")%string; lia).
    rewrite Ht. rewrite (filter_position_unique db a Hu Hin). reflexivity.
Qed.

Lemma sample_db_positions_unique : positions_unique sample_db.
Proof.
  unfold positions_unique. simpl.
  repeat constructor; simpl; intuition discriminate.
Qed.

Lemma search_form_magnitude_witness :
  (1 <= 2 /\ int_value 2 = int_value 2) /\
  (exists errors,
      SearchForm_full_clean sample_db (mkSearchFormData "JFK" "right" (int_value 0))
        = inr errors /\
      In (f_n, msg_min_value 1) errors /\
      NthNodeSearchView_post sample_db (mkSearchFormData "JFK" "right" (int_value 0))
        = mkNthContext errors None None) /\
  NthNodeSearchView_search sample_db (mkSearchCleaned JFK "right" 0)
  = (Some (mkNthResult JFK "right" 0 JFK 1 1), None).
Proof.
  split; [|split].
  - apply (proj1 (search_form_magnitude sample_db
                    (mkSearchFormData "JFK" "right" (int_value 2)))
             (mkSearchCleaned JFK "right" 2)).
    reflexivity.
  - apply (proj1 (proj2 (search_form_magnitude sample_db
                    (mkSearchFormData "JFK" "right" (int_value 0)))) 0).
    + reflexivity.
    + lia.
  - apply (proj2 (proj2 (search_form_magnitude sample_db
                    (mkSearchFormData "JFK" "right" (int_value 0)))) JFK "right").
    + exact sample_db_positions_unique.
    + simpl. auto.
Defined.

(** ** What a write can do to the database *)

Lemma app_nil_both {A} (l1 l2 : list A) : l1 ++ l2 = [] -> l1 = [] /\ l2 = [].
Proof. destruct l1; simpl; [auto | discriminate]. Qed.

Lemma Airport_super_save_fresh (db : Db) (a : Airport) :
  (forall b, In b (airports db) -> code b <> code a) ->
  (forall b, In b (airports db) -> position b <> position a) ->
  Airport_super_save db a
  = Ok (mkDb (airports db ++ [a]) (routes db) (route_seq db)).
Proof.
  intros Hc Hp. unfold Airport_super_save.
  assert (E1 : exists_ (filter (fun b => (position b =? position a)
                                         && negb (code b =? code a)%string)
                          (airports db)) = false).
  { apply exists_filter_false. intros b Hb.
    apply andb_false_iff. left. apply Z.eqb_neq. now apply Hp. }
  assert (E2 : exists_ (filter (fun b => (code b =? code a)%string)
                          (airports db)) = false).
  { apply exists_filter_false. intros b Hb. apply String.eqb_neq. now apply Hc. }
  now rewrite E1, E2.
Qed.

(** A saved airport is a new row whose code and position were free. *)
Lemma Airport_save_Ok (db db' : Db) (self : AirportInstance) (a : Airport) :
  Airport_save db self = Ok (db', a) ->
  db' = mkDb (airports db ++ [a]) (routes db) (route_seq db) /\
  (forall b, In b (airports db) -> code b <> code a) /\
  (forall b, In b (airports db) -> position b <> position a).
Proof.
  unfold Airport_save, Airport_full_clean.
  destruct (Airport_clean db self) as [self' r].
  destruct (collect r tt) as [[u ce]|e]; simpl; [|discriminate].
  destruct (Airport_clean_fields [] self ++ ce) as [|x xs]; simpl;
    [|discriminate].
  destruct (Airport_validate_unique db [] self') eqn:Ev; [|discriminate].
  revert Ev. unfold Airport_validate_unique. simpl. intros Ev.
  apply app_nil_both in Ev. destruct Ev as [Ec Ep].
  destruct (inst_position self') as [p|]; [|discriminate].
  destruct (exists_ (filter (fun a0 => (code a0 =? inst_code self')%string) _))
    eqn:E1; [discriminate|].
  destruct (exists_ (filter (fun a0 => position a0 =? p) _))
    eqn:E2; [discriminate|].
  assert (Hc : forall b, In b (airports db) -> code b <> inst_code self').
  { intros b Hb. apply String.eqb_neq.
    apply (proj1 (exists_filter_false _ _) E1 b Hb). }
  assert (Hp : forall b, In b (airports db) -> position b <> p).
  { intros b Hb. apply Z.eqb_neq.
    apply (proj1 (exists_filter_false _ _) E2 b Hb). }
  rewrite Airport_super_save_fresh by assumption. simpl.
  intros H. inversion H; subst. auto.
Qed.

Lemma AddAirportView_post_cases (db : Db) (data : AirportFormData) :
  (fst (AddAirportView_post db data) = db /\
   forall a, snd (AddAirportView_post db data) <> Redirect (airport_added a))
  \/
  (exists a,
      AddAirportView_post db data
      = (mkDb (airports db ++ [a]) (routes db) (route_seq db),
         Redirect (airport_added a)) /\
      (forall b, In b (airports db) -> code b <> code a) /\
      (forall b, In b (airports db) -> position b <> position a)).
Proof.
  unfold AddAirportView_post.
  destruct (AirportForm_full_clean db data) as [[instance errors]|e].
  - destruct errors as [|x xs].
    + unfold atomic. destruct (Airport_save db instance) as [[db' a]|e] eqn:E.
      * right. exists a. apply Airport_save_Ok in E.
        destruct E as (-> & Hc & Hp). auto.
      * left. simpl. split; [reflexivity | discriminate].
    + left. simpl. split; [reflexivity | discriminate].
  - left. simpl. split; [reflexivity | discriminate].
Qed.

(** A saved route is a new row between two existing airports, for a pair
    that had no route. *)
Lemma Route_save_Ok (db db' : Db) (now : Z) (self : RouteInstance) (r : Route) :
  Route_save db now self = Ok (db', r) ->
  db' = mkDb (airports db) (routes db ++ [r]) (route_seq db + 1) /\
  airport_exists db (source r) /\ airport_exists db (destination r) /\
  (forall r', In r' (routes db) ->
     ~ (source r' = source r /\ destination r' = destination r)) /\
  exists s d dist,
    self = mkRouteInstance (Some s) (Some d) (Some dist) /\
    r = mkRoute (route_seq db + 1) (code s) (code d) dist now.
Proof.
  unfold Route_save.
  destruct (Route_full_clean db [] true self) as [errors|e]; simpl;
    [|discriminate].
  destruct errors; [|discriminate].
  destruct self as [[s|] [d|] [dist|]]; simpl; try discriminate.
  unfold Route_super_save.
  destruct (exists_ (filter (fun b => (code b =? code s)%string) (airports db)))
    eqn:Es; simpl; [|discriminate].
  destruct (exists_ (filter (fun b => (code b =? code d)%string) (airports db)))
    eqn:Ed; simpl; [|discriminate].
  destruct (exists_ (filter (fun r0 => (source r0 =? code s)%string
                                       && (destination r0 =? code d)%string)
                       (routes db))) eqn:Er; [discriminate|].
  intros H. inversion H; subst; clear H. simpl.
  split; [reflexivity|].
  apply exists_filter_true in Es. destruct Es as (a & Ha & Hca).
  apply exists_filter_true in Ed. destruct Ed as (b & Hb & Hcb).
  apply String.eqb_eq in Hca, Hcb.
  split; [now exists a|]. split; [now exists b|]. split.
  - intros r' Hin [E1 E2].
    pose proof (proj1 (exists_filter_false _ _) Er r' Hin) as Hf.
    simpl in Hf. rewrite E1, E2, !String.eqb_refl in Hf. discriminate.
  - now exists s, d, dist.
Qed.

Lemma AddRouteView_post_cases (db : Db) (now : Z) (data : RouteFormData) :
  (fst (AddRouteView_post db now data) = db /\
   forall r, snd (AddRouteView_post db now data) <> Redirect (route_added r))
  \/
  (exists r,
      AddRouteView_post db now data
      = (mkDb (airports db) (routes db ++ [r]) (route_seq db + 1),
         Redirect (route_added r)) /\
      airport_exists db (source r) /\ airport_exists db (destination r) /\
      (forall r', In r' (routes db) ->
         ~ (source r' = source r /\ destination r' = destination r))).
Proof.
  unfold AddRouteView_post.
  destruct (AirportRouteForm_full_clean db data) as [[instance errors]|e].
  - destruct errors as [|x xs].
    + unfold atomic. destruct (Route_save db now instance) as [[db' r]|e] eqn:E.
      * right. exists r. apply Route_save_Ok in E.
        destruct E as (-> & Hs & Hd & Hu & _). auto.
      * left. simpl. split; [reflexivity | discriminate].
    + left. simpl. split; [reflexivity | discriminate].
  - left. simpl. split; [reflexivity | discriminate].
Qed.

Lemma delete_airport_cases (db : Db) (c : string) :
  fst (delete_airport db c) = db \/
  exists a, In a (airports db) /\ code a = c /\
            fst (delete_airport db c) = Airport_delete db a.
Proof.
  unfold delete_airport.
  destruct (find _ (airports db)) as [a|] eqn:E; [|now left].
  apply find_some in E. destruct E as [Hin Hc]. apply String.eqb_eq in Hc.
  destruct (_ >? 0); [now left|]. right. exists a. auto.
Qed.

Lemma delete_route_cases (db : Db) (pk : Z) :
  fst (delete_route db pk) = db \/
  exists r, In r (routes db) /\ fst (delete_route db pk) = Route_delete db r.
Proof.
  unfold delete_route.
  destruct (find _ (routes db)) as [r|] eqn:E; [|now left].
  apply find_some in E. destruct E as [Hin _]. right. exists r. auto.
Qed.

(** ** Invariants of the reachable states *)

Lemma NoDup_map_filter {A B} (key : A -> B) (keep : A -> bool)
    (rows : list A) :
  NoDup (map key rows) -> NoDup (map key (filter keep rows)).
Proof.
  induction rows as [|x rows IH]; simpl; intros H; [constructor|].
  inversion H as [|? ? Hnin Hnd]; subst.
  destruct (keep x); simpl; [|now apply IH].
  constructor; [|now apply IH].
  intros Hin. apply Hnin. apply in_map_iff in Hin.
  destruct Hin as (y & Hy & Hin). apply filter_In in Hin.
  apply in_map_iff. exists y. tauto.
Qed.

Lemma NoDup_map_snoc {A B} (f : A -> B) (l : list A) (a : A) :
  NoDup (map f l) -> (forall b, In b l -> f b <> f a) ->
  NoDup (map f (l ++ [a])).
Proof.
  intros Hnd Hfresh. rewrite map_app. simpl.
  apply NoDup_app. 
  - exact Hnd.
  - repeat constructor. intros [].
  - intros y Hy [<-|[]]. apply in_map_iff in Hy.
    destruct Hy as (b & Hb & Hin). now apply (Hfresh b Hin).
Qed.

Lemma Airport_delete_positions (db : Db) (a : Airport) :
  positions_unique db -> positions_unique (Airport_delete db a).
Proof. unfold positions_unique. simpl. apply NoDup_map_filter. Qed.

Lemma Airport_delete_codes (db : Db) (a : Airport) :
  codes_unique db -> codes_unique (Airport_delete db a).
Proof. unfold codes_unique. simpl. apply NoDup_map_filter. Qed.

(** Cascade: after [Airport.delete()] no route names the deleted code, and
    the routes that are left still name existing airports. *)
Lemma Airport_delete_referential_integrity (db : Db) (a : Airport) :
  referential_integrity db -> referential_integrity (Airport_delete db a).
Proof.
  intros Href r Hr. simpl in Hr. unfold exclude in Hr.
  apply filter_In in Hr. destruct Hr as [Hin Hn].
  apply negb_true_iff, orb_false_iff in Hn. destruct Hn as [Hs Hd].
  apply String.eqb_neq in Hs, Hd.
  destruct (Href r Hin) as [(x & Hx & Hcx) (y & Hy & Hcy)].
  split; [exists x | exists y]; (split; [|assumption]); simpl;
    apply filter_In; (split; [assumption|]); apply negb_true_iff;
    apply String.eqb_neq; congruence.
Qed.

Lemma handle_positions_unique (db : Db) (req : Request) :
  positions_unique db -> positions_unique (handle db req).
Proof.
  intros H. destruct req as [data|now data|c|pk|c]; simpl.
  - destruct (AddAirportView_post_cases db data) as [[-> _]|(a & -> & _ & Hp)];
      [exact H|].
    unfold positions_unique. simpl. now apply NoDup_map_snoc.
  - destruct (AddRouteView_post_cases db now data) as [[-> _]|(r & -> & _)];
      exact H.
  - destruct (delete_airport_cases db c) as [->|(a & _ & _ & ->)];
      [exact H | now apply Airport_delete_positions].
  - destruct (delete_route_cases db pk) as [->|(r & _ & ->)]; exact H.
  - destruct (find _ (airports db)); [now apply Airport_delete_positions | exact H].
Qed.

Lemma handle_codes_unique (db : Db) (req : Request) :
  codes_unique db -> codes_unique (handle db req).
Proof.
  intros H. destruct req as [data|now data|c|pk|c]; simpl.
  - destruct (AddAirportView_post_cases db data) as [[-> _]|(a & -> & Hc & _)];
      [exact H|].
    unfold codes_unique. simpl. now apply NoDup_map_snoc.
  - destruct (AddRouteView_post_cases db now data) as [[-> _]|(r & -> & _)];
      exact H.
  - destruct (delete_airport_cases db c) as [->|(a & _ & _ & ->)];
      [exact H | now apply Airport_delete_codes].
  - destruct (delete_route_cases db pk) as [->|(r & _ & ->)]; exact H.
  - destruct (find _ (airports db)); [now apply Airport_delete_codes | exact H].
Qed.

Lemma airport_exists_snoc (db : Db) (a : Airport) (c : string) :
  airport_exists db c ->
  airport_exists (mkDb (airports db ++ [a]) (routes db) (route_seq db)) c.
Proof.
  intros (x & Hx & Hc). exists x. split; [|exact Hc].
  simpl. apply in_or_app. now left.
Qed.

Lemma handle_referential_integrity (db : Db) (req : Request) :
  referential_integrity db -> referential_integrity (handle db req).
Proof.
  intros H. destruct req as [data|now data|c|pk|c]; simpl.
  - destruct (AddAirportView_post_cases db data) as [[-> _]|(a & -> & _)];
      [exact H|].
    intros r Hr. simpl in Hr. destruct (H r Hr).
    split; now apply airport_exists_snoc.
  - destruct (AddRouteView_post_cases db now data)
      as [[-> _]|(r & -> & Hs & Hd & _)]; [exact H|].
    intros r' Hr'. simpl in Hr'. apply in_app_or in Hr'.
    destruct Hr' as [Hr'|[<-|[]]]; [exact (H r' Hr')|]. split; assumption.
  - destruct (delete_airport_cases db c) as [->|(a & _ & _ & ->)];
      [exact H | now apply Airport_delete_referential_integrity].
  - destruct (delete_route_cases db pk) as [->|(r & _ & ->)]; [exact H|].
    intros r' Hr'. simpl in Hr'. apply filter_In in Hr'. now apply H.
  - destruct (find _ (airports db));
      [now apply Airport_delete_referential_integrity | exact H].
Qed.

(** [Airport.clean] raises nothing but validation errors on its two fields. *)
Lemma Airport_clean_raises (db : Db) (self : AirportInstance) :
  snd (Airport_clean db self) = Ok tt \/
  exists f m, (f = f_code \/ f = f_position) /\
              snd (Airport_clean db self) = Raise (ValidationError [(f, m)]).
Proof.
  unfold Airport_clean.
  set (self' := if negb (inst_code self =? "")%string then _ else self).
  destruct (negb (inst_code self' =? "")%string && negb (len (inst_code self') =? 3)).
  - right. exists f_code, msg_code_length. auto.
  - destruct (inst_position self') as [p|]; [|now left].
    destruct (Airport_first _) as [ex|]; [|now left].
    right. exists f_position, (msg_position_taken p ex). auto.
Qed.

Lemma on_airport_fields_app (e1 e2 : ErrorDict) :
  on_airport_fields e1 -> on_airport_fields e2 -> on_airport_fields (e1 ++ e2).
Proof. intros H1 H2 fe Hin. apply in_app_or in Hin. destruct Hin; auto. Qed.

Lemma on_airport_fields_nil : on_airport_fields [].
Proof. intros fe []. Qed.

Lemma on_airport_fields_map (f : Field) (ms : list Message) :
  f = f_code \/ f = f_name \/ f = f_position ->
  on_airport_fields (map (pair f) ms).
Proof.
  intros Hf fe Hin. apply in_map_iff in Hin. destruct Hin as (m & <- & _).
  exact Hf.
Qed.

Lemma clean_field_on_fields {A} (f : Field) (r : A + list Message) :
  f = f_code \/ f = f_name \/ f = f_position ->
  on_airport_fields (snd (clean_field f r)).
Proof.
  intros Hf. destruct r; simpl;
    [apply on_airport_fields_nil | now apply on_airport_fields_map].
Qed.

Lemma integer_range_errors_field (f : Field) (z : Z) (fe : Field * Message) :
  In fe (integer_range_errors f z) -> fst fe = f.
Proof.
  unfold integer_range_errors. intros H. apply in_app_or in H.
  destruct H as [H|H];
    [destruct (z <? INTEGER_MIN) | destruct (z >? INTEGER_MAX)];
    simpl in H; try contradiction; destruct H as [<-|[]]; reflexivity.
Qed.

Lemma integer_range_errors_nil (f : Field) (z : Z) :
  integer_range_errors f z = [] <-> INTEGER_MIN <= z <= INTEGER_MAX.
Proof.
  unfold integer_range_errors. rewrite Z.gtb_ltb.
  destruct (Z.ltb_spec z INTEGER_MIN); destruct (Z.ltb_spec INTEGER_MAX z);
    simpl; split; try discriminate; try reflexivity; lia.
Qed.

Lemma Airport_clean_fields_on_fields (ex : list Field) (self : AirportInstance) :
  on_airport_fields (Airport_clean_fields ex self).
Proof.
  unfold Airport_clean_fields.
  apply on_airport_fields_app; [|apply on_airport_fields_app].
  - destruct (existsb _ ex); [apply on_airport_fields_nil|].
    destruct (_ =? _)%string; [intros fe [<-|[]]; simpl; auto|].
    destruct (_ >? _); [intros fe [<-|[]]; simpl; auto
                       | apply on_airport_fields_nil].
  - destruct (existsb _ ex); [apply on_airport_fields_nil|].
    destruct (_ =? _)%string; [intros fe [<-|[]]; simpl; auto|].
    destruct (_ >? _); [intros fe [<-|[]]; simpl; auto
                       | apply on_airport_fields_nil].
  - destruct (existsb _ ex); [apply on_airport_fields_nil|].
    destruct (inst_position self) as [p|]; [|intros fe [<-|[]]; simpl; auto].
    intros fe Hfe. apply integer_range_errors_field in Hfe. auto.
Qed.

Lemma Airport_validate_unique_on_fields (db : Db) (ex : list Field)
    (self : AirportInstance) :
  on_airport_fields (Airport_validate_unique db ex self).
Proof.
  unfold Airport_validate_unique.
  repeat apply on_airport_fields_app;
    repeat match goal with
           | |- context [if ?b then _ else _] => destruct b
           | |- context [match ?o with Some _ => _ | None => _ end] => destruct o
           end;
    try apply on_airport_fields_nil;
    intros fe [<-|[]]; simpl; auto.
Qed.

Lemma Airport_full_clean_Ok (db : Db) (ex : list Field) (vu : bool)
    (self : AirportInstance) :
  exists errs, Airport_full_clean db ex vu self
               = Ok (fst (Airport_clean db self), errs) /\
               on_airport_fields errs.
Proof.
  unfold Airport_full_clean.
  destruct (Airport_clean_raises db self) as [E|(f & m & Hf & E)];
    destruct (Airport_clean db self) as [self' r]; simpl in *; subst r; simpl;
    eexists; (split; [reflexivity|]);
    (apply on_airport_fields_app;
     [apply on_airport_fields_app; [apply Airport_clean_fields_on_fields|]
     | destruct vu; [apply Airport_validate_unique_on_fields
                    | apply on_airport_fields_nil]]).
  - apply on_airport_fields_nil.
  - intros fe [<-|[]]. simpl. tauto.
Qed.

(** The form never raises; its errors start with the errors of the three
    fields and are all attached to a field. *)
Lemma AirportForm_full_clean_Ok (db : Db) (data : AirportFormData) :
  exists instance more,
    AirportForm_full_clean db data
    = Ok (instance,
          (snd (clean_field f_code
                  (and_then (CharField_clean (Some 3) 3 (post_code data))
                     AirportForm_clean_code))
           ++ snd (clean_field f_name (CharField_clean None 100 (post_name data)))
           ++ snd (clean_field f_position
                     (and_then (IntegerField_clean 1 (post_position data))
                        (AirportForm_clean_position db))))
          ++ more) /\
    on_airport_fields
      ((snd (clean_field f_code
               (and_then (CharField_clean (Some 3) 3 (post_code data))
                  AirportForm_clean_code))
        ++ snd (clean_field f_name (CharField_clean None 100 (post_name data)))
        ++ snd (clean_field f_position
                  (and_then (IntegerField_clean 1 (post_position data))
                     (AirportForm_clean_position db))))
       ++ more).
Proof.
  unfold AirportForm_full_clean.
  destruct (clean_field f_code _) as [cd_code e_code] eqn:Ec.
  destruct (clean_field f_name _) as [cd_name e_name] eqn:En.
  destruct (clean_field f_position _) as [cd_position e_position] eqn:Ep.
  simpl.
  match goal with
  | |- context [Airport_full_clean db ?ex false ?i] =>
      destruct (Airport_full_clean_Ok db ex false i) as (errs & -> & Herrs)
  end.
  simpl. eexists. eexists. split.
  - rewrite <- app_assoc. reflexivity.
  - assert (Hc : on_airport_fields e_code).
    { change e_code with (snd (cd_code, e_code)). rewrite <- Ec.
      apply clean_field_on_fields. auto. }
    assert (Hn : on_airport_fields e_name).
    { change e_name with (snd (cd_name, e_name)). rewrite <- En.
      apply clean_field_on_fields. auto. }
    assert (Hp : on_airport_fields e_position).
    { change e_position with (snd (cd_position, e_position)). rewrite <- Ep.
      apply clean_field_on_fields. auto. }
    apply on_airport_fields_app;
      [apply on_airport_fields_app; [exact Hc|];
       apply on_airport_fields_app; assumption|].
    apply on_airport_fields_app;
      [exact Herrs | apply Airport_validate_unique_on_fields].
Qed.

Lemma has_error_In (f : Field) (m : Message) (errs : ErrorDict) :
  In (f, m) errs -> has_error f errs = true.
Proof.
  intros H. unfold has_error. apply existsb_exists. exists (f, m).
  split; [exact H|]. simpl. destruct f; reflexivity.
Qed.

(** A submitted position that is taken (or below 1) fails the position
    field. *)
Lemma position_field_taken (db : Db) (p : Z) (a : Airport) :
  In a (airports db) -> position a = p ->
  exists m,
    snd (clean_field f_position
           (and_then (IntegerField_clean 1 (int_value p))
              (AirportForm_clean_position db)))
    = [(f_position, m)].
Proof.
  intros Hin Hp. simpl. destruct (p <? 1); simpl; [eauto|].
  unfold AirportForm_clean_position.
  destruct (Airport_first _) as [ex|] eqn:E; simpl; [eauto|].
  exfalso. apply Airport_first_None in E.
  assert (H : In a (exclude (fun _ => false)
                      (filter (fun b => position b =? p) (airports db)))).
  { unfold exclude. apply filter_In. split; [|reflexivity].
    apply filter_In. split; [exact Hin | now apply Z.eqb_eq]. }
  rewrite E in H. destruct H.
Qed.

(** C7. In every reachable state no two airports have the same position;
    every request keeps it so; a registration whose position is the position
    of an existing airport is refused with an error on the position field
    and the database is as before. *)
Theorem positions_stay_unique :
  (forall db, reachable db -> positions_unique db) /\
  (forall db req, positions_unique db -> positions_unique (handle db req)) /\
  (forall db data p a,
     post_position data = int_value p ->
     In a (airports db) -> position a = p ->
     exists errors,
       AddAirportView_post db data
       = (db, Render correct_the_errors_below errors) /\
       has_error f_position errors = true).
Proof.
  split; [|split].
  - induction 1 as [|db req _ IH]; [constructor|].
    now apply handle_positions_unique.
  - apply handle_positions_unique.
  - intros db data p a Hpost Hin Hp.
    destruct (AirportForm_full_clean_Ok db data) as (inst & more & E & _).
    rewrite Hpost in E.
    destruct (position_field_taken db p a Hin Hp) as (m & Em).
    rewrite Em in E.
    unfold AddAirportView_post. rewrite E.
    match goal with
    | |- exists _, match ?l with [] => _ | _ :: _ => _ end = _ /\ _ =>
        assert (Hl : In (f_position, m) l)
          by (apply in_or_app; left; apply in_or_app; right;
              apply in_or_app; right; now left);
        destruct l as [|x xs]; [destruct Hl|]
    end.
    eexists. split; [reflexivity|]. now apply has_error_In with (m := m).
Qed.

Lemma positions_stay_unique_witness :
  positions_unique
    (handle empty_db
       (POST_add_airport (mkAirportFormData "jfk" "Kennedy" (int_value 1)))) /\
  exists errors,
    AddAirportView_post sample_db
      (mkAirportFormData "SFO" "San Francisco" (int_value 2))
    = (sample_db, Render correct_the_errors_below errors) /\
    has_error f_position errors = true.
Proof.
  split.
  - apply (proj1 positions_stay_unique).
    apply reachable_step, reachable_empty.
  - apply (proj2 (proj2 positions_stay_unique) sample_db
             (mkAirportFormData "SFO" "San Francisco" (int_value 2)) 2 LAX).
    + reflexivity.
    + simpl. auto.
    + reflexivity.
Defined.

(** ** Referential integrity and the cascade *)

Lemma find_by_code (db : Db) (a : Airport) :
  codes_unique db -> In a (airports db) ->
  find (fun b => (code b =? code a)%string) (airports db) = Some a.
Proof.
  unfold codes_unique. induction (airports db) as [|x l IH]; simpl;
    intros Hnd Hin; [destruct Hin|].
  inversion Hnd as [|? ? Hnin Hnd']; subst.
  destruct Hin as [->|Hin]; [now rewrite String.eqb_refl|].
  destruct (code x =? code a)%string eqn:E; [|now apply IH].
  exfalso. apply String.eqb_eq in E. apply Hnin. rewrite E. now apply in_map.
Qed.

Lemma count_filter_pos {A} (p : A -> bool) (l : list A) :
  0 <= count (filter p l) /\
  (count (filter p l) = 0 <-> forall x, In x l -> p x = false).
Proof.
  unfold count. split; [lia|]. split.
  - intros H. apply exists_filter_false.
    destruct (filter p l); [reflexivity | simpl in H; lia].
  - intros H. rewrite filter_none; auto.
Qed.

(** [total_routes] is positive exactly when a route touches the airport. *)
Lemma count_touching (db : Db) (a : Airport) :
  (count (outgoing_routes db a) + count (incoming_routes db a) > 0 /\
   exists r, In r (routes db) /\ touches r a)
  \/
  ((count (outgoing_routes db a) + count (incoming_routes db a) >? 0) = false /\
   forall r, In r (routes db) -> ~ touches r a).
Proof.
  unfold outgoing_routes, incoming_routes.
  destruct (count_filter_pos (fun r => (source r =? code a)%string) (routes db))
    as [Ho Hoz].
  destruct (count_filter_pos (fun r => (destination r =? code a)%string) (routes db))
    as [Hi Hiz].
  destruct (Z.eq_dec (count (filter (fun r => (source r =? code a)%string)
                               (routes db))) 0) as [Eo|Eo].
  - destruct (Z.eq_dec (count (filter (fun r => (destination r =? code a)%string)
                                 (routes db))) 0) as [Ei|Ei].
    + right. split; [rewrite Eo, Ei; reflexivity|].
      intros r Hr [Hs|Hd].
      * pose proof (proj1 Hoz Eo r Hr) as H. simpl in H.
        apply String.eqb_neq in H. contradiction.
      * pose proof (proj1 Hiz Ei r Hr) as H. simpl in H.
        apply String.eqb_neq in H. contradiction.
    + left. split; [lia|].
      destruct (exists_ (filter (fun r => (destination r =? code a)%string)
                           (routes db))) eqn:E.
      * apply exists_filter_true in E. destruct E as (r & Hr & Hd).
        apply String.eqb_eq in Hd. exists r. unfold touches. auto.
      * exfalso. apply Ei. apply Hiz. now apply exists_filter_false.
  - left. split; [lia|].
    destruct (exists_ (filter (fun r => (source r =? code a)%string)
                         (routes db))) eqn:E.
    + apply exists_filter_true in E. destruct E as (r & Hr & Hs).
      apply String.eqb_eq in Hs. exists r. unfold touches. auto.
    + exfalso. apply Eo. apply Hoz. now apply exists_filter_false.
Qed.


(** C9. In every reachable state each route's source and destination are
    codes of existing airports.  [Airport.delete()] never refuses: it removes
    the airport and every route naming it as source or destination, and the
    result keeps referential integrity.  The view [delete_airport] is what
    refuses: it leaves the database alone exactly when some route names the
    airport. *)
Theorem referential_integrity_by_cascade :
  (forall db, reachable db -> referential_integrity db) /\
  (forall db a,
     (forall r, In r (routes (Airport_delete db a)) <->
                In r (routes db) /\ source r <> code a /\ destination r <> code a) /\
     (forall b, In b (airports (Airport_delete db a)) <->
                In b (airports db) /\ code b <> code a) /\
     (referential_integrity db ->
      referential_integrity (Airport_delete db a))) /\
  (forall db a,
     codes_unique db -> In a (airports db) ->
     (fst (delete_airport db (code a)) = db /\
      exists r, In r (routes db) /\ touches r a)
     \/
     (fst (delete_airport db (code a)) = Airport_delete db a /\
      forall r, In r (routes db) -> ~ touches r a)).
Proof.
  split; [|split].
  - induction 1 as [|db req _ IH].
    + intros r [].
    + now apply handle_referential_integrity.
  - intros db a. split; [|split].
    + intros r. simpl. unfold exclude. rewrite filter_In.
      rewrite negb_true_iff, orb_false_iff, !String.eqb_neq. tauto.
    + intros b. simpl. unfold exclude. rewrite filter_In.
      rewrite negb_true_iff, String.eqb_neq. tauto.
    + apply Airport_delete_referential_integrity.
  - intros db a Hu Hin. unfold delete_airport.
    rewrite (find_by_code db a Hu Hin).
    destruct (count_touching db a) as [(Hpos & r & Hr & Ht)|(Hz & Hnone)].
    + left. apply Z.gt_lt, Z.gtb_lt in Hpos. rewrite Hpos. simpl. eauto.
    + right. rewrite Hz. simpl. auto.
Qed.

Lemma sample_db_codes_unique : codes_unique sample_db.
Proof.
  unfold codes_unique. simpl.
  repeat constructor; simpl; intuition discriminate.
Qed.

Lemma referential_integrity_by_cascade_witness :
  referential_integrity
    (handle empty_db
       (POST_add_airport (mkAirportFormData "jfk" "Kennedy" (int_value 1)))) /\
  referential_integrity (Airport_delete sample_db LAX) /\
  ((fst (delete_airport sample_db (code JFK)) = sample_db /\
    exists r, In r (routes sample_db) /\ touches r JFK)
   \/
   (fst (delete_airport sample_db (code JFK)) = Airport_delete sample_db JFK /\
    forall r, In r (routes sample_db) -> ~ touches r JFK)).
Proof.
  split; [|split].
  - apply (proj1 referential_integrity_by_cascade).
    apply reachable_step, reachable_empty.
  - apply (proj2 (proj2 (proj1 (proj2 referential_integrity_by_cascade)
                           sample_db LAX))).
    exact sample_db_referential_integrity.
  - apply (proj2 (proj2 referential_integrity_by_cascade) sample_db JFK).
    + exact sample_db_codes_unique.
    + simpl. auto.
Defined.

(** At the model layer the airport and its route go together. *)
Example Airport_delete_cascades :
  Airport_delete sample_db JFK = mkDb [LAX; ORD] [LAX_ORD] 2.
Proof. reflexivity. Qed.

(** ** The delete-airport guard *)

Lemma exclude_none {A} (p : A -> bool) (l : list A) :
  (forall x, In x l -> p x = false) -> exclude p l = l.
Proof.
  unfold exclude. induction l as [|y l IH]; simpl; intros H; [reflexivity|].
  rewrite (H y) by now left. simpl. f_equal. apply IH.
  intros x Hx. apply H. now right.
Qed.

Lemma exclude_code_perm (l : list Airport) (a : Airport) :
  NoDup (map code l) -> In a l ->
  Permutation l (a :: exclude (fun b => (code b =? code a)%string) l).
Proof.
  induction l as [|x l IH]; simpl; intros Hnd Hin; [destruct Hin|].
  inversion Hnd as [|? ? Hnin Hnd']; subst.
  destruct Hin as [->|Hin].
  - unfold exclude. simpl. rewrite String.eqb_refl. simpl.
    fold (exclude (fun b => (code b =? code a)%string) l).
    rewrite exclude_none; [reflexivity|].
    intros b Hb. apply String.eqb_neq. intros E. apply Hnin.
    rewrite <- E. now apply in_map.
  - unfold exclude. simpl.
    destruct (code x =? code a)%string eqn:E.
    + exfalso. apply String.eqb_eq in E. apply Hnin. rewrite E. now apply in_map.
    + simpl. fold (exclude (fun b => (code b =? code a)%string) l).
      rewrite (IH Hnd' Hin) at 1. apply perm_swap.
Qed.

(** C4. For an airport A of the database: when a route names A as source or
    destination, [delete_airport] refuses with an error message and the
    database is as before; when no route names A, it succeeds, the routes
    are as before and the airports are those of before without A. *)
Theorem delete_airport_guard (db : Db) (a : Airport) :
  codes_unique db -> In a (airports db) ->
  ((exists r, In r (routes db) /\ touches r a) ->
   exists total_routes,
     0 < total_routes /\
     delete_airport db (code a)
     = (db, Redirect (cannot_delete_airport (code a) total_routes))) /\
  ((forall r, In r (routes db) -> ~ touches r a) ->
   delete_airport db (code a)
   = (Airport_delete db a, Redirect (airport_deleted (code a) (name a))) /\
   routes (Airport_delete db a) = routes db /\
   route_seq (Airport_delete db a) = route_seq db /\
   Permutation (airports db) (a :: airports (Airport_delete db a)) /\
   ~ In a (airports (Airport_delete db a))).
Proof.
  intros Hu Hin. unfold delete_airport. rewrite (find_by_code db a Hu Hin).
  destruct (count_touching db a) as [(Hpos & r & Hr & Ht)|(Hz & Hnone)].
  - split.
    + intros _. eexists. split; [apply Z.gt_lt; exact Hpos|].
      apply Z.gt_lt, Z.gtb_lt in Hpos. now rewrite Hpos.
    + intros Hnone. destruct (Hnone r Hr Ht).
  - split.
    + intros (r & Hr & Ht). destruct (Hnone r Hr Ht).
    + intros _. rewrite Hz. simpl. split; [reflexivity|].
      split; [|split; [reflexivity|split]].
      * apply exclude_none. intros r Hr. apply orb_false_iff.
        rewrite !String.eqb_neq. unfold touches in Hnone.
        split; intros E; apply (Hnone r Hr); auto.
      * now apply exclude_code_perm.
      * unfold exclude. rewrite filter_In, String.eqb_refl. simpl.
        intros [_ H]. discriminate.
Qed.

Lemma delete_airport_guard_witness :
  (exists total_routes,
      0 < total_routes /\
      delete_airport sample_db (code ORD)
      = (sample_db, Redirect (cannot_delete_airport (code ORD) total_routes))) /\
  (delete_airport two_airports (code LAX)
   = (Airport_delete two_airports LAX,
      Redirect (airport_deleted (code LAX) (name LAX))) /\
   routes (Airport_delete two_airports LAX) = routes two_airports /\
   route_seq (Airport_delete two_airports LAX) = route_seq two_airports /\
   Permutation (airports two_airports)
     (LAX :: airports (Airport_delete two_airports LAX)) /\
   ~ In LAX (airports (Airport_delete two_airports LAX))).
Proof.
  split.
  - apply (delete_airport_guard sample_db ORD).
    + exact sample_db_codes_unique.
    + simpl. auto.
    + exists LAX_ORD. split; [simpl; auto | right; reflexivity].
  - apply (delete_airport_guard two_airports LAX).
    + unfold codes_unique. simpl.
      repeat constructor; simpl; intuition discriminate.
    + simpl. auto.
    + intros r [].
Defined.

Example delete_airport_refused :
  delete_airport sample_db "ORD"
  = (sample_db, Redirect (cannot_delete_airport "ORD" 1)).
Proof. reflexivity. Qed.

Example delete_airport_succeeds :
  delete_airport two_airports "LAX"
  = (mkDb [JFK] [] 0,
     Redirect (airport_deleted "LAX" "Los Angeles International Airport")).
Proof. reflexivity. Qed.

(** ** Text lemmas *)

Ltac by_cases_on_char c :=
  destruct c as [[] [] [] [] [] [] [] []]; vm_compute; try reflexivity;
  try discriminate; auto.

Lemma is_alpha_upper_char (c : ascii) : is_alpha (upper_char c) = is_alpha c.
Proof. by_cases_on_char c. Qed.

Lemma upper_char_idem (c : ascii) : upper_char (upper_char c) = upper_char c.
Proof. by_cases_on_char c. Qed.

Lemma is_alpha_not_space (c : ascii) : is_alpha c = true -> is_space c = false.
Proof. by_cases_on_char c. Qed.

Lemma is_alpha_not_null (c : ascii) :
  is_alpha c = true -> Ascii.eqb c zero = false.
Proof. by_cases_on_char c. Qed.

Lemma length_upper (s : string) : String.length (upper s) = String.length s.
Proof. induction s; simpl; congruence. Qed.

Lemma len_upper (s : string) : len (upper s) = len s.
Proof. unfold len. now rewrite length_upper. Qed.

Lemma all_alpha_upper (s : string) :
  all_chars is_alpha (upper s) = all_chars is_alpha s.
Proof. induction s; simpl; [reflexivity|]. now rewrite is_alpha_upper_char, IHs. Qed.

Lemma upper_idem (s : string) : upper (upper s) = upper s.
Proof. induction s; simpl; [reflexivity|]. now rewrite upper_char_idem, IHs. Qed.

Lemma length_lstrip (s : string) :
  (String.length (lstrip s) <= String.length s)%nat /\
  (String.length (lstrip s) = String.length s -> lstrip s = s).
Proof.
  induction s as [|c s IH]; simpl; [auto|].
  destruct (is_space c); simpl; [|auto].
  destruct IH as [IH _]. split; [lia | intros; lia].
Qed.

Lemma length_rstrip (s : string) :
  (String.length (rstrip s) <= String.length s)%nat /\
  (String.length (rstrip s) = String.length s -> rstrip s = s).
Proof.
  induction s as [|c s [IH1 IH2]]; simpl; [auto|].
  destruct (rstrip s) as [|d t] eqn:E.
  - destruct (is_space c); simpl in *.
    + split; [lia | intros; lia].
    + split; [lia|]. intros H. destruct s; [reflexivity | simpl in H; lia].
  - simpl in *. split; [lia|]. intros H. f_equal. apply IH2. lia.
Qed.

Lemma strip_same_length (s : string) :
  String.length (strip s) = String.length s -> strip s = s.
Proof.
  unfold strip. intros H.
  destruct (length_lstrip s) as [L1 L2].
  destruct (length_rstrip (lstrip s)) as [R1 R2].
  assert (El : lstrip s = s) by (apply L2; lia).
  rewrite El in *. now apply R2.
Qed.

Lemma rstrip_alpha (s : string) : all_chars is_alpha s = true -> rstrip s = s.
Proof.
  induction s as [|c s IH]; simpl; [reflexivity|].
  intros H. apply andb_true_iff in H. destruct H as [Hc Hs].
  rewrite (IH Hs). destruct s; [|reflexivity].
  now rewrite (is_alpha_not_space c Hc).
Qed.

Lemma strip_alpha (s : string) : all_chars is_alpha s = true -> strip s = s.
Proof.
  intros H. unfold strip.
  assert (El : lstrip s = s).
  { destruct s as [|c s]; [reflexivity|]. simpl in *.
    apply andb_true_iff in H. destruct H as [Hc _].
    now rewrite (is_alpha_not_space c Hc). }
  rewrite El. now apply rstrip_alpha.
Qed.

Lemma alpha_has_no_null (s : string) :
  all_chars is_alpha s = true -> has_null s = false.
Proof.
  unfold has_null. intros H. apply negb_false_iff.
  induction s as [|c s IH]; simpl in *; [reflexivity|].
  apply andb_true_iff in H. destruct H as [Hc Hs].
  now rewrite (is_alpha_not_null c Hc), (IH Hs).
Qed.

Lemma len_3_nonempty (s : string) : len s = 3 -> (s =? "")%string = false.
Proof. destruct s; [discriminate | reflexivity]. Qed.

Lemma isalpha_all (s : string) :
  isalpha s = true <-> s <> "" /\ all_chars is_alpha s = true.
Proof.
  destruct s as [|c s]; simpl; split.
  - discriminate.
  - intros [H _]. now destruct H.
  - intros H. split; [discriminate | exact H].
  - intros [_ H]. exact H.
Qed.

(** ** The fields of the airport form *)

Lemma CharField_clean_inl (min_length : option Z) (max_length : Z)
    (raw v : string) :
  CharField_clean min_length max_length raw = inl v <->
  v = strip raw /\ v <> "" /\
  match min_length with Some k => k <= len v | None => True end /\
  len v <= max_length /\ has_null v = false.
Proof.
  unfold CharField_clean.
  destruct (strip raw =? "")%string eqn:E0.
  - apply String.eqb_eq in E0. split; [discriminate|].
    intros (-> & H & _). contradiction.
  - apply String.eqb_neq in E0.
    rewrite Z.gtb_ltb.
    destruct min_length as [k|];
      [destruct (Z.ltb_spec (len (strip raw)) k)|];
      destruct (Z.ltb_spec max_length (len (strip raw)));
      destruct (has_null (strip raw)) eqn:En; simpl;
      (split; [intros Hx; inversion Hx; subst; repeat split; auto; lia
              | intros (-> & _ & Hx1 & Hx2 & Hx3);
                try reflexivity; try congruence; try lia]).
Qed.

Lemma CharField_clean_inr (min_length : option Z) (max_length : Z)
    (raw : string) (ms : list Message) :
  CharField_clean min_length max_length raw = inr ms -> ms <> [].
Proof.
  unfold CharField_clean.
  destruct (strip raw =? "")%string; [intros [= <-]; discriminate|].
  match goal with
  | |- match ?l with [] => _ | _ :: _ => _ end = _ -> _ => destruct l eqn:E
  end; [discriminate|].
  intros [= <-]. discriminate.
Qed.

Lemma code_field_inl (raw c : string) :
  and_then (CharField_clean (Some 3) 3 raw) AirportForm_clean_code = inl c <->
  len (strip raw) = 3 /\ all_chars is_alpha (strip raw) = true /\
  c = upper (strip raw).
Proof.
  split.
  - destruct (CharField_clean (Some 3) 3 raw) as [v|ms] eqn:E; simpl;
      [|discriminate].
    apply CharField_clean_inl in E. destruct E as (-> & Hne & Hmin & Hmax & _).
    assert (Hlen : len (strip raw) = 3) by lia.
    unfold AirportForm_clean_code.
    destruct (len (strip (upper (strip raw))) =? 3) eqn:E3; simpl;
      [|discriminate].
    destruct (isalpha (strip (upper (strip raw)))) eqn:Ea; simpl;
      [|discriminate].
    intros [= <-]. apply Z.eqb_eq in E3.
    assert (Es : strip (upper (strip raw)) = upper (strip raw)).
    { apply strip_same_length. rewrite length_upper.
      unfold len in *. lia. }
    rewrite Es in *. apply isalpha_all in Ea. destruct Ea as [_ Ea].
    rewrite all_alpha_upper in Ea. auto.
  - intros (Hlen & Ha & ->).
    assert (E : CharField_clean (Some 3) 3 raw = inl (strip raw)).
    { apply CharField_clean_inl. repeat split; try lia.
      - intros E. rewrite E in Hlen. discriminate.
      - now apply alpha_has_no_null. }
    rewrite E. simpl. unfold AirportForm_clean_code.
    assert (Hau : all_chars is_alpha (upper (strip raw)) = true)
      by now rewrite all_alpha_upper.
    rewrite (strip_alpha _ Hau), len_upper, Hlen. simpl.
    assert (Hi : isalpha (upper (strip raw)) = true).
    { apply isalpha_all. split; [|exact Hau].
      intros E'. pose proof (len_upper (strip raw)) as L.
      rewrite E', Hlen in L. discriminate. }
    now rewrite Hi.
Qed.

Lemma code_field_inr (raw : string) (ms : list Message) :
  and_then (CharField_clean (Some 3) 3 raw) AirportForm_clean_code = inr ms ->
  ms <> [].
Proof.
  destruct (CharField_clean (Some 3) 3 raw) as [v|ms'] eqn:E; simpl.
  - unfold AirportForm_clean_code.
    destruct (negb _); [intros [= <-]; discriminate|].
    destruct (negb _); [intros [= <-]; discriminate | discriminate].
  - intros [= <-]. now apply CharField_clean_inr in E.
Qed.

Lemma position_field_inl (db : Db) (raw : RawInt) (p : Z) :
  and_then (IntegerField_clean 1 raw) (AirportForm_clean_position db) = inl p
  <->
  raw = int_value p /\ 1 <= p /\
  (forall b, In b (airports db) -> position b <> p).
Proof.
  unfold IntegerField_clean, AirportForm_clean_position.
  split.
  - destruct raw as [| |z]; simpl; try discriminate.
    destruct (Z.ltb_spec z 1); simpl; [discriminate|].
    destruct (Airport_first _) as [ex|] eqn:E; [discriminate|].
    intros [= <-]. repeat split; auto.
    apply Airport_first_None in E. intros b Hb Hp.
    assert (Hin : In b (exclude (fun _ => false)
                          (filter (fun a => position a =? z) (airports db)))).
    { unfold exclude. apply filter_In. split; [|reflexivity].
      apply filter_In. split; [exact Hb | now apply Z.eqb_eq]. }
    rewrite E in Hin. destruct Hin.
  - intros (-> & Hp & Hfree). simpl.
    destruct (Z.ltb_spec p 1); [lia|]. simpl.
    rewrite (filter_none (fun a => position a =? p) (airports db)).
    + reflexivity.
    + intros b Hb. apply Z.eqb_neq. now apply Hfree.
Qed.

Lemma position_field_inr (db : Db) (raw : RawInt) (ms : list Message) :
  and_then (IntegerField_clean 1 raw) (AirportForm_clean_position db) = inr ms
  -> ms <> [].
Proof.
  unfold IntegerField_clean, AirportForm_clean_position.
  destruct raw as [| |z]; simpl; try (intros [= <-]; discriminate).
  destruct (z <? 1); simpl; [intros [= <-]; discriminate|].
  destruct (Airport_first _); [intros [= <-]; discriminate | discriminate].
Qed.

Lemma clean_field_no_error {A} (f : Field) (r : A + list Message) :
  (forall ms, r = inr ms -> ms <> []) ->
  snd (clean_field f r) = [] -> exists a, r = inl a.
Proof.
  intros Hne. destruct r as [a|ms]; simpl; [eauto|].
  intros H. destruct ms; [now destruct (Hne [] eq_refl) | discriminate].
Qed.

(** ** Airport registration *)

Lemma Airport_clean_ok (db : Db) (c nm : string) (p : Z) :
  len c = 3 -> upper c = c ->
  (forall b, In b (airports db) -> position b <> p) ->
  Airport_clean db (mkAirportInstance c nm (Some p))
  = (mkAirportInstance c nm (Some p), Ok tt).
Proof.
  intros Hlen Hup Hfree. unfold Airport_clean. simpl.
  rewrite (len_3_nonempty c Hlen). simpl. rewrite Hup, Hlen. simpl.
  rewrite (len_3_nonempty c Hlen). simpl.
  rewrite (filter_none (fun a => position a =? p) (airports db)).
  - reflexivity.
  - intros b Hb. apply Z.eqb_neq. now apply Hfree.
Qed.

Lemma Airport_clean_fields_range (c nm : string) (p : Z) :
  len c = 3 -> nm <> "" -> len nm <= 100 ->
  Airport_clean_fields [] (mkAirportInstance c nm (Some p))
  = integer_range_errors f_position p.
Proof.
  intros Hlen Hne Hnm. unfold Airport_clean_fields. simpl.
  rewrite (len_3_nonempty c Hlen), Hlen. simpl.
  apply String.eqb_neq in Hne. rewrite Hne.
  rewrite Z.gtb_ltb. destruct (Z.ltb_spec 100 (len nm)); [lia | reflexivity].
Qed.

Lemma Airport_clean_fields_ok (c nm : string) (p : Z) :
  len c = 3 -> nm <> "" -> len nm <= 100 ->
  INTEGER_MIN <= p <= INTEGER_MAX ->
  Airport_clean_fields [] (mkAirportInstance c nm (Some p)) = [].
Proof.
  intros Hlen Hne Hnm Hp.
  rewrite (Airport_clean_fields_range c nm p Hlen Hne Hnm).
  now apply integer_range_errors_nil.
Qed.

Lemma Airport_validate_unique_free (db : Db) (c nm : string) (p : Z) :
  (forall b, In b (airports db) -> position b <> p) ->
  Airport_validate_unique db [] (mkAirportInstance c nm (Some p))
  = if exists_ (filter (fun a => (code a =? c)%string) (airports db))
    then [(f_code, msg_unique)] else [].
Proof.
  intros Hfree. unfold Airport_validate_unique. simpl.
  rewrite (filter_none (fun a => position a =? p) (airports db)).
  - simpl. apply app_nil_r.
  - intros b Hb. apply Z.eqb_neq. now apply Hfree.
Qed.

Lemma INTEGER_MIN_below_1 (p : Z) : 1 <= p -> INTEGER_MIN <= p.
Proof. unfold INTEGER_MIN. lia. Qed.

(** When the three fields pass and the position is in the range of the
    column, the only error left is a code in use. *)
Lemma AirportForm_full_clean_fields_ok (db : Db) (data : AirportFormData)
    (p : Z) :
  len (strip (post_code data)) = 3 ->
  all_chars is_alpha (strip (post_code data)) = true ->
  strip (post_name data) <> "" -> len (strip (post_name data)) <= 100 ->
  has_null (strip (post_name data)) = false ->
  post_position data = int_value p -> 1 <= p <= INTEGER_MAX ->
  (forall b, In b (airports db) -> position b <> p) ->
  AirportForm_full_clean db data
  = Ok (mkAirportInstance (upper (strip (post_code data)))
          (strip (post_name data)) (Some p),
        if exists_ (filter (fun a => (code a =? upper (strip (post_code data)))%string)
                      (airports db))
        then [(f_code, msg_unique)] else []).
Proof.
  intros Hlen Ha Hne Hnm Hnull Hpost [Hp Hmax] Hfree.
  unfold AirportForm_full_clean.
  rewrite (proj2 (code_field_inl (post_code data) _)
             (conj Hlen (conj Ha eq_refl))).
  rewrite (proj2 (CharField_clean_inl None 100 (post_name data) _)
             (conj eq_refl (conj Hne (conj I (conj Hnm Hnull))))).
  rewrite (proj2 (position_field_inl db (post_position data) p)
             (conj Hpost (conj Hp Hfree))).
  simpl. unfold Airport_full_clean.
  assert (Hlu : len (upper (strip (post_code data))) = 3)
    by now rewrite len_upper.
  rewrite (Airport_clean_ok db _ _ p Hlu (upper_idem _) Hfree).
  rewrite (Airport_clean_fields_ok _ _ p Hlu Hne Hnm
             (conj (INTEGER_MIN_below_1 p Hp) Hmax)). simpl.
  now rewrite (Airport_validate_unique_free db _ _ p Hfree).
Qed.

(** When the three fields pass and the position is above the range of the
    column, the model field refuses it. *)
Lemma AirportForm_full_clean_out_of_range (db : Db) (data : AirportFormData)
    (p : Z) :
  len (strip (post_code data)) = 3 ->
  all_chars is_alpha (strip (post_code data)) = true ->
  strip (post_name data) <> "" -> len (strip (post_name data)) <= 100 ->
  has_null (strip (post_name data)) = false ->
  post_position data = int_value p -> 1 <= p -> INTEGER_MAX < p ->
  (forall b, In b (airports db) -> position b <> p) ->
  exists instance errors,
    AirportForm_full_clean db data
    = Ok (instance, (f_position, msg_max_value INTEGER_MAX) :: errors).
Proof.
  intros Hlen Ha Hne Hnm Hnull Hpost Hp Hmax Hfree.
  unfold AirportForm_full_clean.
  rewrite (proj2 (code_field_inl (post_code data) _)
             (conj Hlen (conj Ha eq_refl))).
  rewrite (proj2 (CharField_clean_inl None 100 (post_name data) _)
             (conj eq_refl (conj Hne (conj I (conj Hnm Hnull))))).
  rewrite (proj2 (position_field_inl db (post_position data) p)
             (conj Hpost (conj Hp Hfree))).
  simpl. unfold Airport_full_clean.
  assert (Hlu : len (upper (strip (post_code data))) = 3)
    by now rewrite len_upper.
  rewrite (Airport_clean_ok db _ _ p Hlu (upper_idem _) Hfree).
  rewrite (Airport_clean_fields_range _ _ p Hlu Hne Hnm).
  unfold integer_range_errors. rewrite Z.gtb_ltb.
  destruct (Z.ltb_spec p INTEGER_MIN); [unfold INTEGER_MIN in *; lia|].
  destruct (Z.ltb_spec INTEGER_MAX p); [|lia].
  simpl. eexists. eexists. reflexivity.
Qed.

(** A cleaned instance with a free code and a free position is saved. *)
Lemma Airport_save_fresh (db : Db) (c nm : string) (p : Z) :
  len c = 3 -> upper c = c -> nm <> "" -> len nm <= 100 ->
  INTEGER_MIN <= p <= INTEGER_MAX ->
  (forall b, In b (airports db) -> position b <> p) ->
  (forall b, In b (airports db) -> code b <> c) ->
  Airport_save db (mkAirportInstance c nm (Some p))
  = Ok (mkDb (airports db ++ [mkAirport c nm p]) (routes db) (route_seq db),
        mkAirport c nm p).
Proof.
  intros Hlen Hup Hne Hnm Hp Hfree Hcode.
  unfold Airport_save, Airport_full_clean.
  rewrite (Airport_clean_ok db c nm p Hlen Hup Hfree).
  rewrite (Airport_clean_fields_ok c nm p Hlen Hne Hnm Hp). simpl.
  rewrite (Airport_validate_unique_free db c nm p Hfree).
  assert (E : exists_ (filter (fun a => (code a =? c)%string) (airports db))
              = false).
  { apply exists_filter_false. intros b Hb. apply String.eqb_neq.
    now apply Hcode. }
  rewrite E. simpl.
  now rewrite (Airport_super_save_fresh db (mkAirport c nm p) Hcode Hfree).
Qed.



(** A position above the range of the column is refused on the position
    field although it is positive and free. *)
Example position_out_of_range_is_refused :
  AddAirportView_post two_airports
    (mkAirportFormData "ORD" "Chicago O'Hare" (int_value (INTEGER_MAX + 1)))
  = (two_airports,
     Render correct_the_errors_below [(f_position, msg_max_value INTEGER_MAX)]).
Proof. reflexivity. Qed.


(** ** Route registration *)

Lemma ModelChoiceField_clean_inl (qs : list Airport) (raw : string)
    (a : Airport) :
  ModelChoiceField_clean qs raw = inl a -> In a qs /\ code a = raw.
Proof.
  unfold ModelChoiceField_clean.
  destruct (raw =? "")%string; [discriminate|].
  destruct (find _ qs) as [b|] eqn:E; [|discriminate].
  intros [= <-]. apply find_some in E. destruct E as [Hin Hc].
  apply String.eqb_eq in Hc. auto.
Qed.

Lemma IntegerField_clean_not_positive (raw : RawInt) :
  (forall z, raw = int_value z -> z < 1) ->
  exists ms, IntegerField_clean 1 raw = inr ms.
Proof.
  intros H. destruct raw as [| |z]; simpl; eauto.
  destruct (Z.ltb_spec z 1); [eauto|].
  specialize (H z eq_refl). lia.
Qed.

Lemma AirportRouteForm_clean_collect (db : Db) (s d : option Airport) :
  exists errs, collect (AirportRouteForm_clean db s d) tt = Ok (tt, errs).
Proof.
  unfold AirportRouteForm_clean.
  destruct s as [s|], d as [d|]; simpl; eauto.
  destruct (Airport_eqb s d); simpl; [eauto|].
  destruct (exists_ _); simpl; eauto.
Qed.

(** C5 (the code at the failing inputs). A route submission with two
    existing, different endpoints and a distance that is absent, not a
    number or below 1 is not answered with a validation error: the
    comparison in [Route.clean] raises [TypeError], which leaves
    [form.is_valid()] and the view; no route is created. *)
Theorem add_route_bad_distance_raises (db : Db) (now : Z)
    (data : RouteFormData) (s d : Airport) :
  ModelChoiceField_clean (airports db) (post_source data) = inl s ->
  ModelChoiceField_clean (airports db) (post_destination data) = inl d ->
  code s <> code d ->
  (forall z, post_distance data = int_value z -> z < 1) ->
  AddRouteView_post db now data = (db, Unhandled TypeError).
Proof.
  intros Hs Hd Hne Hz.
  destruct (IntegerField_clean_not_positive _ Hz) as (ms & Hms).
  unfold AddRouteView_post, AirportRouteForm_full_clean.
  rewrite Hs, Hd, Hms. simpl.
  destruct (AirportRouteForm_clean_collect db (Some s) (Some d)) as (errs & ->).
  simpl. unfold Route_full_clean, Route_clean. simpl.
  apply String.eqb_neq in Hne. unfold Airport_eqb. rewrite Hne.
  reflexivity.
Qed.

Lemma add_route_bad_distance_raises_witness :
  AddRouteView_post two_airports 10 (mkRouteFormData "JFK" "LAX" (int_value 0))
  = (two_airports, Unhandled TypeError).
Proof.
  apply (add_route_bad_distance_raises two_airports 10
           (mkRouteFormData "JFK" "LAX" (int_value 0)) JFK LAX).
  - reflexivity.
  - reflexivity.
  - discriminate.
  - intros z [= <-]. lia.
Defined.

(** C8 (the code at the failing inputs). A route submission whose source
    field fails (nothing chosen, or a code that is no airport) makes
    [Route.clean] read an unset foreign key; the exception is raised outside
    the [try] block of the view, so it is propagated instead of being shown
    as an error message.  The database is as before. *)
Theorem add_route_missing_source_raises (db : Db) (now : Z)
    (data : RouteFormData) (ms : list Message) :
  ModelChoiceField_clean (airports db) (post_source data) = inr ms ->
  AddRouteView_post db now data
  = (db, Unhandled (RelatedObjectDoesNotExist f_source)).
Proof.
  intros Hs. unfold AddRouteView_post, AirportRouteForm_full_clean.
  rewrite Hs. simpl.
  destruct (clean_field f_destination _) as [cd_d e_d].
  destruct (clean_field f_distance _) as [cd_n e_n].
  destruct cd_d; reflexivity.
Qed.

Lemma add_route_missing_source_raises_witness :
  AddRouteView_post two_airports 10 (mkRouteFormData "" "LAX" (int_value 360))
  = (two_airports, Unhandled (RelatedObjectDoesNotExist f_source)).
Proof.
  apply (add_route_missing_source_raises two_airports 10
           (mkRouteFormData "" "LAX" (int_value 360)) [msg_required]).
  reflexivity.
Defined.

(** The sibling validation of airports guards the absent value: an invalid
    position on the airport form is a field error, not an exception. *)
Example add_airport_bad_position_is_field_error :
  AddAirportView_post two_airports (mkAirportFormData "ORD" "Chicago" (int_value 0))
  = (two_airports,
     Render correct_the_errors_below [(f_position, msg_min_value 1)]).
Proof. reflexivity. Qed.

(** What does hold of every write: unless the view answers with its success
    message, the database is as before. *)
Lemma failed_write_leaves_db (db : Db) :
  (forall data, (forall a, snd (AddAirportView_post db data)
                           <> Redirect (airport_added a)) ->
                fst (AddAirportView_post db data) = db) /\
  (forall now data, (forall r, snd (AddRouteView_post db now data)
                               <> Redirect (route_added r)) ->
                    fst (AddRouteView_post db now data) = db) /\
  (forall c, (forall c' n', snd (delete_airport db c)
                            <> Redirect (airport_deleted c' n')) ->
             fst (delete_airport db c) = db) /\
  (forall pk, (forall s d k, snd (delete_route db pk)
                             <> Redirect (route_deleted s d k)) ->
              fst (delete_route db pk) = db).
Proof.
  repeat split.
  - intros data H.
    destruct (AddAirportView_post_cases db data) as [[E _]|(a & E & _)];
      [exact E|].
    exfalso. apply (H a). now rewrite E.
  - intros now data H.
    destruct (AddRouteView_post_cases db now data) as [[E _]|(r & E & _)];
      [exact E|].
    exfalso. apply (H r). now rewrite E.
  - intros c H. unfold delete_airport in *.
    destruct (find _ (airports db)) as [a|]; [|reflexivity].
    destruct (_ >? 0); [reflexivity|].
    exfalso. simpl in H. now apply (H (code a) (name a)).
  - intros pk H. unfold delete_route in *.
    destruct (find _ (routes db)) as [r|]; [|reflexivity].
    exfalso. simpl in H. now apply (H (source r) (destination r) (distance r)).
Qed.

(** A submission with two existing, different endpoints, a distance of at
    least 1 and at most [INTEGER_MAX] and no route yet for the ordered pair
    creates the route. *)
Lemma add_route_created (db : Db) (now : Z) (data : RouteFormData)
    (s d : Airport) (z : Z) :
  ModelChoiceField_clean (airports db) (post_source data) = inl s ->
  ModelChoiceField_clean (airports db) (post_destination data) = inl d ->
  code s <> code d ->
  post_distance data = int_value z -> 1 <= z <= INTEGER_MAX ->
  (forall r, In r (routes db) ->
     ~ (source r = code s /\ destination r = code d)) ->
  AddRouteView_post db now data
  = (mkDb (airports db)
       (routes db ++ [mkRoute (route_seq db + 1) (code s) (code d) z now])
       (route_seq db + 1),
     Redirect (route_added (mkRoute (route_seq db + 1) (code s) (code d) z now))).
Proof.
  intros Hs Hd Hne Hz [Hpos Hmax] Hfree.
  assert (Hr0 : integer_range_errors f_distance z = [])
    by (apply integer_range_errors_nil; split;
        [now apply INTEGER_MIN_below_1 | exact Hmax]).
  assert (Es : exists_ (filter (fun b => (code b =? code s)%string) (airports db))
               = true).
  { apply exists_filter_true. exists s.
    destruct (ModelChoiceField_clean_inl _ _ _ Hs) as [Hin _].
    split; [exact Hin | apply String.eqb_refl]. }
  assert (Ed : exists_ (filter (fun b => (code b =? code d)%string) (airports db))
               = true).
  { apply exists_filter_true. exists d.
    destruct (ModelChoiceField_clean_inl _ _ _ Hd) as [Hin _].
    split; [exact Hin | apply String.eqb_refl]. }
  assert (Er : exists_ (filter (fun r => (source r =? code s)%string
                                         && (destination r =? code d)%string)
                          (routes db)) = false).
  { apply exists_filter_false. intros r Hr.
    apply andb_false_iff.
    destruct (source r =? code s)%string eqn:E1; [|now left].
    destruct (destination r =? code d)%string eqn:E2; [|now right].
    apply String.eqb_eq in E1, E2. destruct (Hfree r Hr). auto. }
  apply String.eqb_neq in Hne.
  unfold AddRouteView_post, AirportRouteForm_full_clean.
  rewrite Hs, Hd, Hz. simpl.
  destruct (Z.ltb_spec z 1); [lia|]. simpl.
  unfold AirportRouteForm_clean, Airport_eqb. rewrite Hne, Er. simpl.
  unfold Route_full_clean, Route_clean, Route_clean_fields, Airport_eqb.
  simpl. rewrite Hne, Es, Ed, Hr0. simpl.
  destruct (Z.leb_spec z 0); [lia|]. simpl.
  unfold Route_validate_unique. simpl. rewrite Er. simpl.
  unfold Route_save, Route_full_clean, Route_clean, Route_clean_fields,
    Airport_eqb. simpl. rewrite Hne, Es, Ed, Hr0. simpl.
  destruct (Z.leb_spec z 0); [lia|]. simpl.
  unfold Route_validate_unique. simpl. rewrite Er. simpl.
  unfold Route_super_save. rewrite Es, Ed, Er. reflexivity.
Qed.

(** * Further properties of the code *)

(** ** What a successful registration has checked *)

Lemma is_upper_upper_char (c : ascii) :
  is_alpha c = true -> is_upper (upper_char c) = true.
Proof. by_cases_on_char c. Qed.

Lemma all_upper_upper (s : string) :
  all_chars is_alpha s = true -> all_chars is_upper (upper s) = true.
Proof.
  induction s as [|c s IH]; simpl; [reflexivity|].
  intros H. apply andb_true_iff in H. destruct H as [Hc Hs].
  now rewrite (is_upper_upper_char c Hc), (IH Hs).
Qed.

(** An airport is added only for an acceptable submission, and it is the
    airport built from the trimmed, uppercased fields. *)
Lemma AddAirportView_post_created (db db' : Db) (data : AirportFormData)
    (a : Airport) :
  AddAirportView_post db data = (db', Redirect (airport_added a)) ->
  exists p,
    registration_acceptable db data p /\
    a = mkAirport (upper (strip (post_code data))) (strip (post_name data)) p /\
    db' = mkDb (airports db ++ [a]) (routes db) (route_seq db).
Proof.
  destruct (AirportForm_full_clean_Ok db data) as (inst & more & E & _).
  unfold AddAirportView_post. rewrite E.
  match goal with
  | |- match ?l with [] => _ | _ :: _ => _ end = _ -> _ =>
      destruct l as [|x xs] eqn:El
  end; [|discriminate].
  apply app_nil_both in El. destruct El as [El _].
  apply app_nil_both in El. destruct El as [Ec El].
  apply app_nil_both in El. destruct El as [En Ep].
  apply clean_field_no_error in Ec; [|apply code_field_inr].
  apply clean_field_no_error in En; [|apply CharField_clean_inr].
  apply clean_field_no_error in Ep; [|apply position_field_inr].
  destruct Ec as (c & Ec), En as (nm & En), Ep as (p & Ep).
  apply code_field_inl in Ec. destruct Ec as (Hlen & Ha & _).
  apply CharField_clean_inl in En.
  destruct En as (-> & Hne & _ & Hnm & Hnull).
  apply position_field_inl in Ep. destruct Ep as (Hpost & Hp & Hfree).
  destruct (Z.le_gt_cases p INTEGER_MAX) as [Hmax|Hmax].
  2:{ destruct (AirportForm_full_clean_out_of_range db data p)
        as (i & es & E'); try assumption.
      rewrite E' in E. discriminate. }
  rewrite (AirportForm_full_clean_fields_ok db data p) in E
    by (try assumption; now split).
  destruct (exists_ (filter (fun b => (code b =? upper (strip (post_code data)))%string)
                       (airports db))) eqn:Ex; [discriminate|].
  injection E as <-.
  assert (Hcode : forall b, In b (airports db) ->
                            code b <> upper (strip (post_code data))).
  { intros b Hb. apply String.eqb_neq.
    apply (proj1 (exists_filter_false _ _) Ex b Hb). }
  rewrite Airport_save_fresh; try assumption.
  - simpl. intros H. injection H as <- <-. exists p.
    split; [|split; reflexivity].
    unfold registration_acceptable. repeat split; assumption.
  - now rewrite len_upper.
  - apply upper_idem.
  - split; [now apply INTEGER_MIN_below_1 | exact Hmax].
Qed.

Lemma registration_acceptable_well_formed (db : Db) (data : AirportFormData)
    (p : Z) :
  registration_acceptable db data p ->
  airport_well_formed
    (mkAirport (upper (strip (post_code data))) (strip (post_name data)) p).
Proof.
  intros (Hlen & Ha & Hne & Hnm & _ & _ & [Hp _] & _).
  unfold airport_well_formed. simpl.
  rewrite len_upper. repeat split; try assumption.
  now apply all_upper_upper.
Qed.

(** [Route.clean] passed: the endpoints differ and the distance is positive. *)
Lemma Route_full_clean_nil (db : Db) (ex : list Field) (vu : bool)
    (s d : Airport) (z : Z) :
  Route_full_clean db ex vu (mkRouteInstance (Some s) (Some d) (Some z)) = Ok [] ->
  code s <> code d /\ 1 <= z.
Proof.
  unfold Route_full_clean, Route_clean, Airport_eqb. simpl.
  destruct (code s =? code d)%string eqn:Ec; simpl.
  - intros H. injection H as H. apply app_nil_both in H. destruct H as [H _].
    apply app_nil_both in H. destruct H as [_ H]. discriminate.
  - destruct (Z.leb_spec z 0) as [Hz|Hz]; simpl.
    + intros H. injection H as H. apply app_nil_both in H. destruct H as [H _].
      apply app_nil_both in H. destruct H as [_ H]. discriminate.
    + intros _. apply String.eqb_neq in Ec. split; [exact Ec | lia].
Qed.

Lemma Route_full_clean_nil_range (db : Db) (vu : bool)
    (s d : Airport) (z : Z) :
  Route_full_clean db [] vu (mkRouteInstance (Some s) (Some d) (Some z)) = Ok [] ->
  INTEGER_MIN <= z <= INTEGER_MAX.
Proof.
  unfold Route_full_clean.
  destruct (collect _ tt) as [[u ce]|e]; simpl; [|discriminate].
  intros H. injection H as H. apply app_nil_both in H. destruct H as [H _].
  apply app_nil_both in H. destruct H as [H _].
  unfold Route_clean_fields in H. simpl in H.
  apply app_nil_both in H. destruct H as [_ H].
  apply app_nil_both in H. destruct H as [_ H].
  now apply integer_range_errors_nil in H.
Qed.

Lemma Route_save_Ok_valid (db db' : Db) (now : Z) (self : RouteInstance)
    (r : Route) :
  Route_save db now self = Ok (db', r) ->
  route_well_formed r /\ route_id r = route_seq db + 1 /\ created_at r = now.
Proof.
  intros H. pose proof (Route_save_Ok _ _ _ _ _ H) as (_ & _ & _ & _ & Hr).
  destruct Hr as (s & d & z & -> & ->).
  unfold Route_save in H.
  destruct (Route_full_clean db [] true _) as [errors|e] eqn:E; simpl in H;
    [|discriminate].
  destruct errors; [|discriminate].
  apply Route_full_clean_nil in E. unfold route_well_formed. simpl. tauto.
Qed.

Lemma AddRouteView_post_created (db db' : Db) (now : Z) (data : RouteFormData)
    (r : Route) :
  AddRouteView_post db now data = (db', Redirect (route_added r)) ->
  db' = mkDb (airports db) (routes db ++ [r]) (route_seq db + 1) /\
  route_well_formed r /\ route_id r = route_seq db + 1 /\ created_at r = now /\
  airport_exists db (source r) /\ airport_exists db (destination r) /\
  (forall r', In r' (routes db) ->
     ~ (source r' = source r /\ destination r' = destination r)).
Proof.
  unfold AddRouteView_post.
  destruct (AirportRouteForm_full_clean db data) as [[instance errors]|e];
    [|discriminate].
  destruct errors as [|x xs]; [|discriminate].
  unfold atomic. destruct (Route_save db now instance) as [[db1 r1]|e] eqn:E;
    [|discriminate].
  intros H. injection H as <- <-.
  pose proof (Route_save_Ok_valid _ _ _ _ _ E) as (Hwf & Hid & Hc).
  apply Route_save_Ok in E. destruct E as (-> & Hs & Hd & Hu & _).
  repeat split; auto; apply Hwf.
Qed.

(** ** More invariants of the reachable states *)

Lemma handle_airports (db : Db) (req : Request) :
  airports (handle db req) = airports db
  \/ (exists keep, airports (handle db req) = filter keep (airports db))
  \/ (exists data p,
        req = POST_add_airport data /\
        registration_acceptable db data p /\
        handle db req
        = mkDb (airports db
                ++ [mkAirport (upper (strip (post_code data)))
                      (strip (post_name data)) p])
            (routes db) (route_seq db)).
Proof.
  destruct req as [data|now data|c|pk|c]; simpl.
  - destruct (AddAirportView_post_cases db data) as [[Hdb _]|(a & Ha & _)].
    + left. now rewrite Hdb.
    + destruct (AddAirportView_post_created _ _ _ _ Ha) as (p & Hacc & -> & _).
      right. right. exists data, p. rewrite Ha. simpl. auto.
  - left. destruct (AddRouteView_post_cases db now data) as [[-> _]|(r & -> & _)];
      reflexivity.
  - destruct (delete_airport_cases db c) as [->|(a & _ & _ & ->)];
      [now left|]. right. left. simpl. unfold exclude. eauto.
  - left. destruct (delete_route_cases db pk) as [->|(r & _ & ->)]; reflexivity.
  - destruct (find _ (airports db)); [|now left].
    right. left. simpl. unfold exclude. eauto.
Qed.

Lemma handle_routes (db : Db) (req : Request) :
  (routes (handle db req) = routes db /\ route_seq (handle db req) = route_seq db)
  \/ (exists keep, routes (handle db req) = filter keep (routes db)
                   /\ route_seq (handle db req) = route_seq db)
  \/ (exists r,
        routes (handle db req) = routes db ++ [r] /\
        route_seq (handle db req) = route_seq db + 1 /\
        route_well_formed r /\ route_id r = route_seq db + 1 /\
        (forall r', In r' (routes db) ->
           ~ (source r' = source r /\ destination r' = destination r))).
Proof.
  destruct req as [data|now data|c|pk|c]; simpl.
  - left. destruct (AddAirportView_post_cases db data) as [[-> _]|(a & -> & _)];
      auto.
  - destruct (AddRouteView_post_cases db now data) as [[Hdb _]|(r & Hr & _)].
    + left. now rewrite Hdb.
    + destruct (AddRouteView_post_created _ _ _ _ _ Hr)
        as (_ & Hwf & Hid & _ & _ & _ & Hu).
      right. right. exists r. rewrite Hr. simpl. auto.
  - destruct (delete_airport_cases db c) as [->|(a & _ & _ & ->)];
      [now left|]. right. left. simpl. unfold exclude. eauto.
  - destruct (delete_route_cases db pk) as [->|(r & _ & ->)];
      [now left|]. right. left. simpl. unfold exclude. eauto.
  - destruct (find _ (airports db)); [|now left].
    right. left. simpl. unfold exclude. eauto.
Qed.

(** The primary key: in every reachable state no two airports share a
    code. *)
Theorem reachable_codes_unique (db : Db) : reachable db -> codes_unique db.
Proof.
  induction 1 as [|db req _ IH]; [constructor|].
  now apply handle_codes_unique.
Qed.

Lemma reachable_codes_unique_witness :
  codes_unique
    (handle (handle empty_db
               (POST_add_airport (mkAirportFormData "jfk" "Kennedy" (int_value 1))))
       (POST_add_airport (mkAirportFormData "JFK" "Again" (int_value 2)))).
Proof.
  apply reachable_codes_unique.
  apply reachable_step, reachable_step, reachable_empty.
Defined.

Lemma handle_airports_well_formed (db : Db) (req : Request) :
  (forall a, In a (airports db) -> airport_well_formed a) ->
  forall a, In a (airports (handle db req)) -> airport_well_formed a.
Proof.
  intros IH a Ha.
  destruct (handle_airports db req)
    as [E|[(keep & E)|(data & p & _ & Hacc & E)]]; rewrite E in Ha.
  - now apply IH.
  - apply filter_In in Ha. now apply IH.
  - simpl in Ha. apply in_app_or in Ha. destruct Ha as [Ha|[<-|[]]].
    + now apply IH.
    + now apply registration_acceptable_well_formed with (db := db).
Qed.

(** In every state reached through requests whose submitted codes and names
    are ASCII text, each airport has a code of exactly three letters A to Z,
    a non-empty name of at most 100 characters and a position of at least
    1. *)
Theorem reachable_airports_well_formed (db : Db) :
  reachable_ascii db -> forall a, In a (airports db) -> airport_well_formed a.
Proof.
  induction 1 as [|db req _ IH _]; [intros a []|].
  now apply handle_airports_well_formed.
Qed.

Lemma reachable_airports_well_formed_witness :
  airport_well_formed (mkAirport "ORD" "Chicago O'Hare" 3).
Proof.
  apply (reachable_airports_well_formed
           (handle empty_db
              (POST_add_airport
                 (mkAirportFormData " ord" " Chicago O'Hare " (int_value 3))))).
  - apply reachable_ascii_step; [apply reachable_ascii_empty|].
    simpl. split; reflexivity.
  - simpl. auto.
Defined.

(** In every reachable state no route joins an airport to itself and every
    distance is at least 1. *)
Theorem reachable_routes_well_formed (db : Db) :
  reachable db -> forall r, In r (routes db) -> route_well_formed r.
Proof.
  induction 1 as [|db req _ IH]; [intros r []|].
  intros r Hr.
  destruct (handle_routes db req)
    as [[E _]|[(keep & E & _)|(r0 & E & _ & Hwf & _)]]; rewrite E in Hr.
  - now apply IH.
  - apply filter_In in Hr. now apply IH.
  - apply in_app_or in Hr. destruct Hr as [Hr|[<-|[]]]; [now apply IH | exact Hwf].
Qed.

(** In every reachable state there is at most one route for an ordered pair
    (source, destination). *)
Theorem reachable_pairs_unique (db : Db) : reachable db -> pairs_unique db.
Proof.
  unfold pairs_unique. induction 1 as [|db req _ IH]; [constructor|].
  destruct (handle_routes db req)
    as [[E _]|[(keep & E & _)|(r0 & E & _ & _ & _ & Hu)]]; rewrite E.
  - exact IH.
  - now apply NoDup_map_filter.
  - apply NoDup_map_snoc; [exact IH|].
    intros r' Hr' Heq. injection Heq as H1 H2. now apply (Hu r' Hr').
Qed.



Lemma reachable_run (db : Db) (reqs : list Request) :
  reachable db -> reachable (run db reqs).
Proof.
  unfold run. revert db. induction reqs as [|req reqs IH]; simpl; intros db H;
    [exact H|].
  apply IH. now apply reachable_step.
Qed.

Lemma sample_db_reachable : reachable sample_db.
Proof.
  change sample_db with (run empty_db sample_requests).
  apply reachable_run, reachable_empty.
Qed.

Lemma reachable_routes_well_formed_witness : route_well_formed LAX_ORD.
Proof.
  apply (reachable_routes_well_formed sample_db).
  - exact sample_db_reachable.
  - simpl. auto.
Defined.

Lemma reachable_pairs_unique_witness : pairs_unique sample_db.
Proof. apply reachable_pairs_unique. exact sample_db_reachable. Defined.


(** ** Deleting *)

Lemma find_by_route_id (rs : list Route) (r : Route) :
  NoDup (map route_id rs) -> In r rs ->
  find (fun r' => route_id r' =? route_id r) rs = Some r.
Proof.
  induction rs as [|x l IH]; simpl; intros Hnd Hin; [destruct Hin|].
  inversion Hnd as [|? ? Hnin Hnd']; subst.
  destruct Hin as [->|Hin]; [now rewrite Z.eqb_refl|].
  destruct (route_id x =? route_id r) eqn:E; [|now apply IH].
  exfalso. apply Z.eqb_eq in E. apply Hnin. rewrite E. now apply in_map.
Qed.

Lemma exclude_route_id_perm (rs : list Route) (r : Route) :
  NoDup (map route_id rs) -> In r rs ->
  Permutation rs (r :: exclude (fun r' => route_id r' =? route_id r) rs).
Proof.
  induction rs as [|x l IH]; simpl; intros Hnd Hin; [destruct Hin|].
  inversion Hnd as [|? ? Hnin Hnd']; subst.
  destruct Hin as [->|Hin].
  - unfold exclude. simpl. rewrite Z.eqb_refl. simpl.
    fold (exclude (fun r' => route_id r' =? route_id r) l).
    rewrite exclude_none; [reflexivity|].
    intros b Hb. apply Z.eqb_neq. intros E. apply Hnin.
    rewrite <- E. now apply in_map.
  - unfold exclude. simpl.
    destruct (route_id x =? route_id r) eqn:E.
    + exfalso. apply Z.eqb_eq in E. apply Hnin. rewrite E. now apply in_map.
    + simpl. fold (exclude (fun r' => route_id r' =? route_id r) l).
      rewrite (IH Hnd' Hin) at 1. apply perm_swap.
Qed.

Lemma find_all_false {A} (p : A -> bool) (l : list A) :
  (forall x, In x l -> p x = false) -> find p l = None.
Proof.
  induction l as [|y l IH]; simpl; intros H; [reflexivity|].
  rewrite (H y) by now left. apply IH. intros x Hx. apply H. now right.
Qed.

(** [delete_route] has no guard: for a route of a table with distinct keys
    it always succeeds, takes out exactly that route and leaves the airports
    alone; for a key that no route has it answers 404 and the database is as
    before. *)
Theorem delete_route_removes (db : Db) :
  (forall r,
     NoDup (map route_id (routes db)) -> In r (routes db) ->
     delete_route db (route_id r)
     = (Route_delete db r,
        Redirect (route_deleted (source r) (destination r) (distance r))) /\
     airports (Route_delete db r) = airports db /\
     Permutation (routes db) (r :: routes (Route_delete db r)) /\
     ~ In r (routes (Route_delete db r))) /\
  (forall pk,
     (forall r, In r (routes db) -> route_id r <> pk) ->
     delete_route db pk = (db, Http404)).
Proof.
  split.
  - intros r Hnd Hin. unfold delete_route.
    rewrite (find_by_route_id _ _ Hnd Hin). simpl.
    repeat split.
    + now apply exclude_route_id_perm.
    + unfold exclude. rewrite filter_In, Z.eqb_refl. simpl.
      intros [_ H]. discriminate.
  - intros pk Hnone. unfold delete_route.
    rewrite find_all_false; [reflexivity|].
    intros r Hr. apply Z.eqb_neq. now apply Hnone.
Qed.

Lemma delete_route_removes_witness :
  delete_route sample_db (route_id JFK_LAX)
  = (Route_delete sample_db JFK_LAX,
     Redirect (route_deleted (source JFK_LAX) (destination JFK_LAX)
                 (distance JFK_LAX))) /\
  airports (Route_delete sample_db JFK_LAX) = airports sample_db /\
  Permutation (routes sample_db) (JFK_LAX :: routes (Route_delete sample_db JFK_LAX)) /\
  ~ In JFK_LAX (routes (Route_delete sample_db JFK_LAX)).
Proof.
  apply (proj1 (delete_route_removes sample_db) JFK_LAX).
  - simpl. repeat constructor; simpl; intuition discriminate.
  - simpl. auto.
Defined.

Lemma delete_airport_routes_same (db : Db) (c : string) :
  routes (fst (delete_airport db c)) = routes db /\
  route_seq (fst (delete_airport db c)) = route_seq db.
Proof.
  unfold delete_airport.
  destruct (find _ (airports db)) as [a|] eqn:E; [|simpl; auto].
  destruct (count_touching db a) as [(Hpos & _)|(Hz & Hnone)].
  - apply Z.gt_lt, Z.gtb_lt in Hpos. rewrite Hpos. simpl. auto.
  - rewrite Hz. simpl. split; [|reflexivity].
    apply exclude_none. intros r Hr. apply orb_false_iff.
    rewrite !String.eqb_neq. unfold touches in Hnone.
    split; intros E'; apply (Hnone r Hr); auto.
Qed.

(** The view [delete_airport] never removes a route, whatever the code it is
    given; for a code that no airport has it answers 404 and the database is
    as before. *)
Theorem delete_airport_keeps_routes (db : Db) (c : string) :
  routes (fst (delete_airport db c)) = routes db /\
  route_seq (fst (delete_airport db c)) = route_seq db /\
  ((forall a, In a (airports db) -> code a <> c) ->
   delete_airport db c = (db, Http404)).
Proof.
  destruct (delete_airport_routes_same db c) as [Hr Hs].
  split; [exact Hr|]. split; [exact Hs|].
  intros Hnone. unfold delete_airport.
  rewrite find_all_false; [reflexivity|].
  intros a Ha. apply String.eqb_neq. now apply Hnone.
Qed.

Lemma delete_airport_keeps_routes_witness :
  delete_airport sample_db "jfk" = (sample_db, Http404).
Proof.
  apply (proj2 (proj2 (delete_airport_keeps_routes sample_db "jfk"))).
  intros a [<-|[<-|[<-|[]]]]; discriminate.
Defined.

(** ** Round trips *)

Lemma Db_eta (db : Db) : mkDb (airports db) (routes db) (route_seq db) = db.
Proof. now destruct db. Qed.

Lemma exclude_app {A} (p : A -> bool) (l1 l2 : list A) :
  exclude p (l1 ++ l2) = exclude p l1 ++ exclude p l2.
Proof. unfold exclude. apply filter_app. Qed.

Lemma find_app_none {A} (p : A -> bool) (l1 l2 : list A) :
  (forall x, In x l1 -> p x = false) -> find p (l1 ++ l2) = find p l2.
Proof.
  induction l1 as [|y l IH]; simpl; intros H; [reflexivity|].
  rewrite (H y) by now left. apply IH. intros x Hx. apply H. now right.
Qed.

(** Registering an airport and then deleting it gives back the database one
    started from. *)
Theorem add_then_delete_airport (db db' : Db) (data : AirportFormData)
    (a : Airport) :
  referential_integrity db ->
  AddAirportView_post db data = (db', Redirect (airport_added a)) ->
  delete_airport db' (code a)
  = (db, Redirect (airport_deleted (code a) (name a))).
Proof.
  intros Href Hadd.
  destruct (AddAirportView_post_created _ _ _ _ Hadd) as (p & Hacc & Ha & ->).
  assert (Hfresh : forall b, In b (airports db) -> code b <> code a).
  { destruct Hacc as (_ & _ & _ & _ & _ & _ & _ & _ & Hc).
    intros b Hb. rewrite Ha. simpl. now apply Hc. }
  clear Ha Hacc Hadd.
  assert (Hcb : forall b, In b (airports db) -> (code b =? code a)%string = false)
    by (intros b Hb; apply String.eqb_neq; now apply Hfresh).
  unfold delete_airport. simpl.
  rewrite (find_app_none _ _ _ Hcb). simpl. rewrite String.eqb_refl.
  assert (Hnone : forall r, In r (routes db) ->
                    ((source r =? code a)%string
                     || (destination r =? code a)%string) = false).
  { intros r Hr. destruct (Href r Hr) as [(x & Hx & Ex) (y & Hy & Ey)].
    apply orb_false_iff. rewrite !String.eqb_neq.
    split; intros E; [apply (Hfresh x Hx) | apply (Hfresh y Hy)]; congruence. }
  unfold outgoing_routes, incoming_routes. simpl.
  rewrite !filter_none.
  - simpl. unfold Airport_delete. simpl.
    rewrite exclude_app, (exclude_none _ _ Hcb), (exclude_none _ _ Hnone).
    unfold exclude at 1. simpl. rewrite String.eqb_refl. simpl.
    now rewrite app_nil_r, Db_eta.
  - intros r Hr. specialize (Hnone r Hr). apply orb_false_iff in Hnone. tauto.
  - intros r Hr. specialize (Hnone r Hr). apply orb_false_iff in Hnone. tauto.
Qed.

Lemma add_then_delete_airport_witness :
  delete_airport (mkDb [JFK; LAX; ORD] [] 0) (code ORD)
  = (two_airports, Redirect (airport_deleted (code ORD) (name ORD))).
Proof.
  apply (add_then_delete_airport two_airports (mkDb [JFK; LAX; ORD] [] 0)
           (mkAirportFormData "ord " "Chicago O'Hare" (int_value 3)) ORD).
  - intros r [].
  - reflexivity.
Defined.

(** Registering a route and then deleting it gives back the airports and the
    routes one started from; only the key counter has moved on. *)
Theorem add_then_delete_route (db db' : Db) (now : Z) (data : RouteFormData)
    (r : Route) :
  route_ids_unique db ->
  AddRouteView_post db now data = (db', Redirect (route_added r)) ->
  delete_route db' (route_id r)
  = (mkDb (airports db) (routes db) (route_seq db + 1),
     Redirect (route_deleted (source r) (destination r) (distance r))).
Proof.
  intros [_ Hids] Hadd.
  destruct (AddRouteView_post_created _ _ _ _ _ Hadd) as (-> & _ & Hid & _).
  assert (Hnb : forall r', In r' (routes db) ->
                           (route_id r' =? route_id r) = false).
  { intros r' Hr'. apply Z.eqb_neq. specialize (Hids r' Hr'). lia. }
  unfold delete_route. simpl.
  rewrite (find_app_none _ _ _ Hnb). simpl. rewrite Z.eqb_refl.
  simpl. unfold Route_delete. simpl.
  rewrite exclude_app, (exclude_none _ _ Hnb).
  unfold exclude at 1. simpl. rewrite Z.eqb_refl. simpl.
  now rewrite app_nil_r.
Qed.

Lemma add_then_delete_route_witness :
  delete_route (mkDb [JFK; LAX] [JFK_LAX] 1) (route_id JFK_LAX)
  = (mkDb [JFK; LAX] [] 1,
     Redirect (route_deleted (source JFK_LAX) (destination JFK_LAX)
                 (distance JFK_LAX))).
Proof.
  apply (add_then_delete_route two_airports (mkDb [JFK; LAX] [JFK_LAX] 1) 10
           (mkRouteFormData "JFK" "LAX" (int_value 360)) JFK_LAX).
  - split; [constructor | intros r []].
  - reflexivity.
Defined.

(** ** The Nth-node query, there and back *)

(** When positions are unique, searching [n] places from airport [a] in one
    direction and then [n] places from the airport found in the other
    direction finds [a] again. *)
Theorem nth_node_there_and_back (db : Db) (a : Airport) (d : string) (n : Z)
    (res : NthResult) :
  positions_unique db -> In a (airports db) ->
  NthNodeSearchView_search db (mkSearchCleaned a d n) = (Some res, None) ->
  NthNodeSearchView_search db (mkSearchCleaned (target_airport res) (opposite d) n)
  = (Some (mkNthResult (target_airport res) (opposite d) n a
             (position (target_airport res)) (position a)), None).
Proof.
  intros Hu Hin Hs.
  destruct (NthNodeSearchView_search_spec db (mkSearchCleaned a d n))
    as [(t & Ht & Hpos & E & _)|(_ & E)]; rewrite E in Hs; [|discriminate].
  injection Hs as <-. simpl.
  unfold target_of in Hpos. simpl in Hpos.
  unfold NthNodeSearchView_search, opposite. simpl.
  assert (Hback : (if ((if (d =? "left")%string then "right" else "left")
                       =? "left")%string
                   then position t - n else position t + n) = position a).
  { destruct (d =? "left")%string; simpl; lia. }
  rewrite Hback, (filter_position_unique db a Hu Hin). reflexivity.
Qed.

Lemma nth_node_there_and_back_witness :
  NthNodeSearchView_search sample_db (mkSearchCleaned ORD (opposite "right") 2)
  = (Some (mkNthResult ORD (opposite "right") 2 JFK (position ORD) (position JFK)),
     None).
Proof.
  apply (nth_node_there_and_back sample_db JFK "right" 2
           (mkNthResult JFK "right" 2 ORD 1 3)).
  - exact sample_db_positions_unique.
  - simpl. auto.
  - reflexivity.
Defined.

(** ** The search form *)

Lemma ModelChoiceField_clean_iff (qs : list Airport) (raw : string)
    (a : Airport) :
  ModelChoiceField_clean qs raw = inl a <->
  raw <> "" /\ find (fun b => (code b =? raw)%string) qs = Some a.
Proof.
  unfold ModelChoiceField_clean.
  destruct (raw =? "")%string eqn:E0.
  - apply String.eqb_eq in E0. split; [discriminate | intros [H _]; contradiction].
  - apply String.eqb_neq in E0.
    destruct (find _ qs) as [b|]; split.
    + intros [= <-]. auto.
    + intros [_ [= <-]]. reflexivity.
    + discriminate.
    + intros [_ H]. discriminate.
Qed.

Lemma IntegerField_clean_inl (min_value : Z) (raw : RawInt) (z : Z) :
  IntegerField_clean min_value raw = inl z <->
  raw = int_value z /\ min_value <= z.
Proof.
  unfold IntegerField_clean. destruct raw as [| |k].
  - split; [discriminate | intros [H _]; discriminate].
  - split; [discriminate | intros [H _]; discriminate].
  - destruct (Z.ltb_spec k min_value); split.
    + discriminate.
    + intros [[= ->] Hz]. lia.
    + intros [= ->]. auto.
    + intros [[= ->] _]. reflexivity.
Qed.

(** The search form accepts a submission exactly when the starting airport
    is the code of an airport of the table, the direction is ["left"] or
    ["right"] and [n] is an integer of at least 1; the cleaned data are then
    that airport, that direction and that number. *)
Theorem search_form_accepts (db : Db) (data : SearchFormData)
    (cd : SearchCleaned) :
  SearchForm_full_clean db data = inl cd <->
  (post_starting_airport data <> "" /\
   find (fun b => (code b =? post_starting_airport data)%string) (airports db)
   = Some (starting_airport cd)) /\
  (post_direction data = "left" \/ post_direction data = "right") /\
  direction cd = post_direction data /\
  post_n data = int_value (n cd) /\ 1 <= n cd.
Proof.
  split.
  - intros H. pose proof (SearchForm_direction _ _ _ H) as Hd.
    apply SearchForm_full_clean_inl in H. destruct H as (Hs & Hdir & Hn).
    apply IntegerField_clean_inl in Hn.
    apply ModelChoiceField_clean_iff in Hs.
    assert (Ed : direction cd = post_direction data).
    { unfold ChoiceField_clean in Hdir.
      destruct (post_direction data =? "")%string; [discriminate|].
      destruct (existsb _ _); [|discriminate]. now injection Hdir. }
    rewrite <- Ed. tauto.
  - intros (Hs & Hd & Ed & Hn & Hpos).
    apply ModelChoiceField_clean_iff in Hs.
    unfold SearchForm_full_clean. rewrite Hs, Hn. simpl.
    destruct (Z.ltb_spec (n cd) 1); [lia|].
    assert (Hc : ChoiceField_clean DIRECTION_CHOICES (post_direction data)
                 = inl (post_direction data)).
    { destruct Hd as [->| ->]; reflexivity. }
    rewrite Hc. simpl. rewrite <- Ed. now destruct cd.
Qed.

Lemma search_form_accepts_witness :
  SearchForm_full_clean sample_db (mkSearchFormData "LAX" "left" (int_value 1))
  = inl (mkSearchCleaned LAX "left" 1).
Proof.
  apply (proj2 (search_form_accepts sample_db
                  (mkSearchFormData "LAX" "left" (int_value 1))
                  (mkSearchCleaned LAX "left" 1))).
  simpl. repeat split; try discriminate; auto; lia.
Defined.

(** ** The outcomes of the route form *)

Lemma ModelChoiceField_clean_inr (qs : list Airport) (raw : string)
    (ms : list Message) :
  ModelChoiceField_clean qs raw = inr ms -> ms <> [].
Proof.
  unfold ModelChoiceField_clean.
  destruct (raw =? "")%string; [intros [= <-]; discriminate|].
  destruct (find _ qs); [discriminate | intros [= <-]; discriminate].
Qed.

Lemma IntegerField_clean_inr (min_value : Z) (raw : RawInt)
    (ms : list Message) :
  IntegerField_clean min_value raw = inr ms -> ms <> [].
Proof.
  unfold IntegerField_clean.
  destruct raw as [| |z]; try (intros [= <-]; discriminate).
  destruct (z <? min_value); [intros [= <-]; discriminate | discriminate].
Qed.

(** Equal endpoints are always answered with validation errors, one on the
    form and one on the destination field, whatever the distance submitted;
    nothing is raised and nothing is written. *)
Theorem add_route_same_endpoints (db : Db) (now : Z) (data : RouteFormData)
    (s d : Airport) :
  ModelChoiceField_clean (airports db) (post_source data) = inl s ->
  ModelChoiceField_clean (airports db) (post_destination data) = inl d ->
  code s = code d ->
  exists errors,
    AddRouteView_post db now data
    = (db, Render correct_the_errors_below errors) /\
    In (NON_FIELD_ERRORS, msg_same_endpoints) errors /\
    In (f_destination, msg_same_endpoints) errors.
Proof.
  intros Hs Hd Hc. apply String.eqb_eq in Hc.
  unfold AddRouteView_post, AirportRouteForm_full_clean.
  rewrite Hs, Hd. simpl.
  destruct (clean_field f_distance _) as [cd_n e_n].
  unfold AirportRouteForm_clean, Airport_eqb. rewrite Hc. simpl.
  unfold Route_full_clean, Route_clean, Airport_eqb. simpl. rewrite Hc. simpl.
  match goal with
  | |- exists _, match ?l with [] => _ | _ :: _ => _ end = _ /\ _ =>
      assert (H1 : In (NON_FIELD_ERRORS, msg_same_endpoints) l);
      [|assert (H2 : In (f_destination, msg_same_endpoints) l);
        [|destruct l as [|x xs]; [destruct H1|]]]
  end.
  - apply in_or_app. left. apply in_or_app. left.
    apply in_or_app. right. now left.
  - apply in_or_app. left. apply in_or_app. right.
    apply in_or_app. left. apply in_or_app. right. now left.
  - eexists. split; [reflexivity|]. split; assumption.
Qed.

Lemma add_route_same_endpoints_witness :
  exists errors,
    AddRouteView_post two_airports 10 (mkRouteFormData "JFK" "JFK" (int_value 0))
    = (two_airports, Render correct_the_errors_below errors) /\
    In (NON_FIELD_ERRORS, msg_same_endpoints) errors /\
    In (f_destination, msg_same_endpoints) errors.
Proof.
  apply (add_route_same_endpoints two_airports 10
           (mkRouteFormData "JFK" "JFK" (int_value 0)) JFK JFK);
    reflexivity.
Defined.

Lemma integer_range_errors_cases (f : Field) (z : Z) :
  1 <= z ->
  (z <= INTEGER_MAX /\ integer_range_errors f z = []) \/
  (INTEGER_MAX < z /\
   integer_range_errors f z = [(f, msg_max_value INTEGER_MAX)]).
Proof.
  intros Hz. unfold integer_range_errors. rewrite Z.gtb_ltb.
  destruct (Z.ltb_spec z INTEGER_MIN); [unfold INTEGER_MIN in *; lia|].
  destruct (Z.ltb_spec INTEGER_MAX z); [right | left]; auto.
Qed.

(** A pair (source, destination) that has a route already is answered, for
    every distance of at least 1, with validation errors and nothing is
    written.  For a distance of at most [INTEGER_MAX] the errors are exactly
    the message of [AirportRouteForm.clean] and the uniqueness message of
    the model; above it the range error of the distance column stands
    between the two. *)
Theorem add_route_duplicate (db : Db) (now : Z) (data : RouteFormData)
    (s d : Airport) (z : Z) (r : Route) :
  ModelChoiceField_clean (airports db) (post_source data) = inl s ->
  ModelChoiceField_clean (airports db) (post_destination data) = inl d ->
  code s <> code d ->
  post_distance data = int_value z -> 1 <= z ->
  In r (routes db) -> source r = code s -> destination r = code d ->
  (z <= INTEGER_MAX ->
   AddRouteView_post db now data
   = (db, Render correct_the_errors_below
            [(NON_FIELD_ERRORS, msg_route_exists (code s) (code d));
             (NON_FIELD_ERRORS, msg_unique)])) /\
  (INTEGER_MAX < z ->
   AddRouteView_post db now data
   = (db, Render correct_the_errors_below
            [(NON_FIELD_ERRORS, msg_route_exists (code s) (code d));
             (f_distance, msg_max_value INTEGER_MAX);
             (NON_FIELD_ERRORS, msg_unique)])).
Proof.
  intros Hs Hd Hne Hz Hpos Hr Hrs Hrd.
  assert (Es : exists_ (filter (fun b => (code b =? code s)%string) (airports db))
               = true).
  { apply exists_filter_true. exists s.
    destruct (ModelChoiceField_clean_inl _ _ _ Hs) as [Hin _].
    split; [exact Hin | apply String.eqb_refl]. }
  assert (Ed : exists_ (filter (fun b => (code b =? code d)%string) (airports db))
               = true).
  { apply exists_filter_true. exists d.
    destruct (ModelChoiceField_clean_inl _ _ _ Hd) as [Hin _].
    split; [exact Hin | apply String.eqb_refl]. }
  assert (Er : exists_ (filter (fun r => (source r =? code s)%string
                                         && (destination r =? code d)%string)
                          (routes db)) = true).
  { apply exists_filter_true. exists r. split; [exact Hr|].
    now rewrite Hrs, Hrd, !String.eqb_refl. }
  apply String.eqb_neq in Hne.
  assert (E : AddRouteView_post db now data
              = (db, Render correct_the_errors_below
                       ([(NON_FIELD_ERRORS, msg_route_exists (code s) (code d))]
                        ++ integer_range_errors f_distance z
                        ++ [(NON_FIELD_ERRORS, msg_unique)]))).
  { unfold AddRouteView_post, AirportRouteForm_full_clean.
    rewrite Hs, Hd, Hz. simpl.
    destruct (Z.ltb_spec z 1); [lia|]. simpl.
    unfold AirportRouteForm_clean, Airport_eqb. rewrite Hne, Er. simpl.
    unfold Route_full_clean, Route_clean, Route_clean_fields, Airport_eqb.
    simpl. rewrite Hne, Es, Ed. simpl.
    destruct (Z.leb_spec z 0); [lia|]. simpl.
    destruct (integer_range_errors_cases f_distance z Hpos) as [[_ ->]|[_ ->]];
      simpl; unfold Route_validate_unique; simpl; rewrite Er; reflexivity. }
  rewrite E.
  destruct (integer_range_errors_cases f_distance z Hpos)
    as [[Hle ->]|[Hgt ->]]; split; intros Hmax; try lia; reflexivity.
Qed.

Lemma add_route_duplicate_witness :
  AddRouteView_post sample_db 12 (mkRouteFormData "JFK" "LAX" (int_value 400))
  = (sample_db, Render correct_the_errors_below
                  [(NON_FIELD_ERRORS, msg_route_exists "JFK" "LAX");
                   (NON_FIELD_ERRORS, msg_unique)]).
Proof.
  apply (proj1 (add_route_duplicate sample_db 12
                  (mkRouteFormData "JFK" "LAX" (int_value 400))
                  JFK LAX 400 JFK_LAX
                  eq_refl eq_refl ltac:(discriminate) eq_refl ltac:(lia)
                  ltac:(simpl; auto) eq_refl eq_refl)).
  unfold INTEGER_MAX. lia.
Defined.

Example add_route_duplicate_out_of_range :
  AddRouteView_post sample_db 12
    (mkRouteFormData "JFK" "LAX" (int_value (INTEGER_MAX + 1)))
  = (sample_db, Render correct_the_errors_below
                  [(NON_FIELD_ERRORS, msg_route_exists "JFK" "LAX");
                   (f_distance, msg_max_value INTEGER_MAX);
                   (NON_FIELD_ERRORS, msg_unique)]).
Proof. reflexivity. Qed.

(** A source that is an airport with a destination that is not (nothing
    chosen, or a code that is no airport) is not answered with a validation
    error either: [Route.clean] reads the unset destination and the
    exception leaves the view; nothing is written. *)
Theorem add_route_missing_destination_raises (db : Db) (now : Z)
    (data : RouteFormData) (s : Airport) (ms : list Message) :
  ModelChoiceField_clean (airports db) (post_source data) = inl s ->
  ModelChoiceField_clean (airports db) (post_destination data) = inr ms ->
  AddRouteView_post db now data
  = (db, Unhandled (RelatedObjectDoesNotExist f_destination)).
Proof.
  intros Hs Hd. unfold AddRouteView_post, AirportRouteForm_full_clean.
  rewrite Hs, Hd. simpl.
  destruct (clean_field f_distance _) as [cd_n e_n]. reflexivity.
Qed.

Lemma add_route_missing_destination_raises_witness :
  AddRouteView_post two_airports 10 (mkRouteFormData "JFK" "SFO" (int_value 360))
  = (two_airports, Unhandled (RelatedObjectDoesNotExist f_destination)).
Proof.
  apply (add_route_missing_destination_raises two_airports 10
           (mkRouteFormData "JFK" "SFO" (int_value 360)) JFK [msg_invalid_choice]);
    reflexivity.
Defined.

(** The form never raises once both endpoints and the distance passed their
    fields. *)
Lemma AirportRouteForm_full_clean_fields (db : Db) (data : RouteFormData)
    (instance : RouteInstance) :
  AirportRouteForm_full_clean db data = Ok (instance, []) ->
  exists s d z,
    ModelChoiceField_clean (airports db) (post_source data) = inl s /\
    ModelChoiceField_clean (airports db) (post_destination data) = inl d /\
    IntegerField_clean 1 (post_distance data) = inl z /\
    instance = mkRouteInstance (Some s) (Some d) (Some z).
Proof.
  unfold AirportRouteForm_full_clean.
  destruct (ModelChoiceField_clean (airports db) (post_source data))
    as [s|ms] eqn:Es.
  2:{ simpl. destruct (clean_field f_destination _) as [cd_d e_d].
      destruct (clean_field f_distance _) as [cd_n e_n].
      destruct cd_d; discriminate. }
  destruct (ModelChoiceField_clean (airports db) (post_destination data))
    as [d|ms] eqn:Ed.
  2:{ simpl. destruct (clean_field f_distance _) as [cd_n e_n]. discriminate. }
  destruct (IntegerField_clean 1 (post_distance data)) as [z|ms] eqn:Ez.
  - simpl. destruct (collect _ tt) as [[u ce]|e]; simpl; [|discriminate].
    destruct (Route_full_clean db _ false _) as [e3|e]; simpl; [|discriminate].
    intros H. injection H as <- _. now exists s, d, z.
  - simpl. destruct (collect _ tt) as [[u ce]|e]; simpl; [|discriminate].
    destruct (Route_full_clean db _ false _) as [e3|e]; simpl; [|discriminate].
    intros H. injection H as _ H. exfalso.
    apply IntegerField_clean_inr in Ez.
    destruct ms; [now apply Ez | discriminate].
Qed.

(** A route is created exactly for a submission with two existing, different
    endpoints, a distance of at least 1 and at most [INTEGER_MAX] and no
    route yet for the ordered pair; it gets the next key and the time of the
    request. *)
Theorem add_route_created_iff (db db' : Db) (now : Z) (data : RouteFormData)
    (r : Route) :
  AddRouteView_post db now data = (db', Redirect (route_added r)) <->
  exists s d z,
    route_acceptable db data s d z /\
    r = mkRoute (route_seq db + 1) (code s) (code d) z now /\
    db' = mkDb (airports db) (routes db ++ [r]) (route_seq db + 1).
Proof.
  split.
  - intros H. pose proof (AddRouteView_post_created _ _ _ _ _ H)
      as (Hdb & _ & _ & _ & _ & _ & Hu).
    unfold AddRouteView_post in H.
    destruct (AirportRouteForm_full_clean db data) as [[instance errors]|e] eqn:E;
      [|discriminate].
    destruct errors as [|x xs]; [|discriminate].
    apply AirportRouteForm_full_clean_fields in E.
    destruct E as (s & d & z & Hs & Hd & Hz & ->).
    unfold atomic in H.
    destruct (Route_save db now _) as [[db1 r1]|e] eqn:Esave; [|discriminate].
    injection H as -> ->.
    pose proof (Route_save_Ok _ _ _ _ _ Esave) as (_ & _ & _ & _ & Hr).
    destruct Hr as (s' & d' & z' & Hi & Hr). injection Hi as <- <- <-.
    unfold Route_save in Esave.
    destruct (Route_full_clean db [] true _) as [errors|e] eqn:Efc;
      simpl in Esave; [|discriminate].
    destruct errors; [|discriminate].
    pose proof (Route_full_clean_nil_range _ _ _ _ _ Efc) as [_ Hmax].
    apply Route_full_clean_nil in Efc. destruct Efc as [Hne Hpos].
    apply IntegerField_clean_inl in Hz. destruct Hz as [Hz _].
    exists s, d, z. split; [|split; assumption].
    unfold route_acceptable.
    split; [exact Hs|]. split; [exact Hd|]. split; [exact Hne|].
    split; [exact Hz|]. split; [now split|].
    intros r' Hr'. specialize (Hu r' Hr'). now rewrite Hr in Hu.
  - intros (s & d & z & (Hs & Hd & Hne & Hz & Hpos & Hfree) & -> & ->).
    now apply add_route_created.
Qed.

Lemma add_route_created_iff_witness :
  AddRouteView_post two_airports 10 (mkRouteFormData "JFK" "LAX" (int_value 360))
  = (mkDb [JFK; LAX] [JFK_LAX] 1, Redirect (route_added JFK_LAX)).
Proof.
  apply (proj2 (add_route_created_iff two_airports (mkDb [JFK; LAX] [JFK_LAX] 1)
                  10 (mkRouteFormData "JFK" "LAX" (int_value 360)) JFK_LAX)).
  exists JFK, LAX, 360. split; [|split; reflexivity].
  unfold route_acceptable, INTEGER_MAX. simpl.
  repeat split; try reflexivity; try discriminate; try lia;
    try (intros r []); intros _ [].
Defined.

(** ** The longest-distance view *)

Lemma by_position_trans a b c :
  by_position a b = true -> by_position b c = true -> by_position a c = true.
Proof. unfold by_position. rewrite !Z.leb_le. lia. Qed.

Lemma by_position_total_order a b :
  by_position a b = false -> by_position b a = true.
Proof. unfold by_position. intros H. apply Z.leb_gt in H. apply Z.leb_le. lia. Qed.

Lemma by_created_at_desc_total r1 r2 :
  by_created_at_desc r1 r2 = false -> by_created_at_desc r2 r1 = true.
Proof.
  unfold by_created_at_desc. intros H. apply Z.leb_gt in H. apply Z.leb_le. lia.
Qed.

(** The rule for ties that the code has: with the default ordering of
    airports, the airport returned is one of lowest position among the
    airports that are an endpoint of a route of the greatest distance. *)
Theorem longest_distance_lowest_position (db : Db) (a : Airport) (m : Z) :
  Route_get_longest_distance_airport db = (Some a, Some m) ->
  forall b r,
    In b (airports db) -> In r (routes db) -> distance r = m -> touches r b ->
    position a <= position b.
Proof.
  unfold Route_get_longest_distance_airport.
  destruct (aggregate_max_distance (routes db)) as [m'|]; [|discriminate].
  intros H. injection H as Hf <-.
  intros b r Hb Hr Hd Ht. apply Z.leb_le.
  apply (first_order_by_least by_position by_position_total_order
           by_position_trans _ a Hf b).
  apply nodup_In. apply filter_In. split; [exact Hb|].
  apply orb_true_iff. destruct Ht as [Hs|Hs]; [left | right];
    apply exists_filter_true; exists r;
    (split; [|now apply Z.eqb_eq]); apply filter_In;
    (split; [exact Hr | now apply String.eqb_eq]).
Qed.

Lemma longest_distance_lowest_position_witness :
  position LAX <= position ORD.
Proof.
  apply (longest_distance_lowest_position sample_db LAX 500 eq_refl ORD LAX_ORD).
  - simpl. auto.
  - simpl. auto.
  - reflexivity.
  - right. reflexivity.
Defined.

Lemma longest_distance_airport_Some (db : Db) :
  referential_integrity db -> routes db <> [] ->
  exists a m,
    Route_get_longest_distance_airport db = (Some a, Some m) /\
    is_max_distance m (routes db) /\
    exists r, In r (routes db) /\ distance r = m /\ touches r a.
Proof.
  intros Href Hne. unfold Route_get_longest_distance_airport.
  destruct (aggregate_max_distance (routes db)) as [m|] eqn:Hmax.
  2:{ apply aggregate_max_distance_None in Hmax. contradiction. }
  pose proof (aggregate_max_distance_Some _ _ Hmax) as Hm.
  destruct (Airport_first _) as [a|] eqn:Hf.
  - exists a, m. split; [reflexivity|]. split; [exact Hm|].
    apply Airport_first_In in Hf. apply nodup_In in Hf.
    apply filter_In in Hf. destruct Hf as [_ Ha].
    apply orb_true_iff in Ha.
    destruct Ha as [Ha|Ha]; apply exists_filter_true in Ha;
      destruct Ha as (r & Hin & Hd); apply filter_In in Hin;
      destruct Hin as [Hin Hc]; apply String.eqb_eq in Hc;
      apply Z.eqb_eq in Hd; exists r; unfold touches; auto.
  - exfalso. apply Airport_first_None in Hf.
    destruct Hm as [(r & Hin & Hd) _].
    destruct (Href r Hin) as [(a & Ha & Hc) _].
    assert (Hd' : In a (distinct
      (filter (fun a0 =>
                 exists_ (filter (fun r0 => distance r0 =? m) (outgoing_routes db a0))
                 || exists_ (filter (fun r0 => distance r0 =? m)
                               (incoming_routes db a0)))
         (airports db)))).
    { apply nodup_In. apply filter_In. split; [exact Ha|].
      apply orb_true_iff. left. apply exists_filter_true.
      exists r. split; [|now apply Z.eqb_eq].
      apply filter_In. split; [exact Hin | now apply String.eqb_eq]. }
    rewrite Hf in Hd'. destruct Hd'.
Qed.

(** [LongestDurationView]: with no route the page shows no airport, no
    distance and no route.  With routes that name existing airports and have
    positive distances it shows an airport, the greatest distance and
    exactly the routes of that distance that touch the airport, at least
    one, newest first. *)
Theorem longest_duration_view (db : Db) :
  (routes db = [] ->
   LongestDurationView_get_context_data db = mkLongestContext None None []) /\
  (referential_integrity db ->
   (forall r, In r (routes db) -> 1 <= distance r) ->
   routes db <> [] ->
   exists a m,
     longest_airport (LongestDurationView_get_context_data db) = Some a /\
     longest_max_distance (LongestDurationView_get_context_data db) = Some m /\
     is_max_distance m (routes db) /\
     longest_routes (LongestDurationView_get_context_data db) <> [] /\
     (forall r, In r (longest_routes (LongestDurationView_get_context_data db))
                <-> In r (routes db) /\ touches r a /\ distance r = m) /\
     Sorted (fun r1 r2 => created_at r2 <= created_at r1)
       (longest_routes (LongestDurationView_get_context_data db))).
Proof.
  split.
  - intros E. unfold LongestDurationView_get_context_data,
      Route_get_longest_distance_airport. now rewrite E.
  - intros Href Hpos Hne.
    destruct (longest_distance_airport_Some db Href Hne)
      as (a & m & E & Hm & r & Hr & Hd & Ht).
    unfold LongestDurationView_get_context_data. rewrite E. simpl.
    assert (Hm1 : (m =? 0) = false).
    { apply Z.eqb_neq. specialize (Hpos r Hr). lia. }
    rewrite Hm1. simpl.
    assert (Hiff : forall r0,
      In r0 (order_by by_created_at_desc
               (filter (fun r1 => ((source r1 =? code a)%string
                                   || (destination r1 =? code a)%string)
                                  && (distance r1 =? m)) (routes db)))
      <-> In r0 (routes db) /\ touches r0 a /\ distance r0 = m).
    { intros r0. rewrite order_by_In, filter_In, andb_true_iff, orb_true_iff,
        !String.eqb_eq, Z.eqb_eq. unfold touches. tauto. }
    exists a, m.
    split; [reflexivity|]. split; [reflexivity|]. split; [exact Hm|].
    split; [|split; [exact Hiff|]].
    + intros Enil. assert (Hin : In r []); [|destruct Hin].
      rewrite <- Enil. apply Hiff. auto.
    + apply Sorted_impl with (R := fun r1 r2 => by_created_at_desc r1 r2 = true).
      * intros r1 r2. unfold by_created_at_desc. apply Z.leb_le.
      * apply order_by_sorted. apply by_created_at_desc_total.
Qed.

Lemma longest_duration_view_witness :
  exists a m,
    longest_airport (LongestDurationView_get_context_data sample_db) = Some a /\
    longest_max_distance (LongestDurationView_get_context_data sample_db) = Some m /\
    is_max_distance m (routes sample_db) /\
    longest_routes (LongestDurationView_get_context_data sample_db) <> [] /\
    (forall r, In r (longest_routes (LongestDurationView_get_context_data sample_db))
               <-> In r (routes sample_db) /\ touches r a /\ distance r = m) /\
    Sorted (fun r1 r2 => created_at r2 <= created_at r1)
      (longest_routes (LongestDurationView_get_context_data sample_db)).
Proof.
  apply (proj2 (longest_duration_view sample_db)).
  - exact sample_db_referential_integrity.
  - intros r [<-|[<-|[]]]; simpl; lia.
  - discriminate.
Defined.

Example longest_duration_view_sample :
  LongestDurationView_get_context_data sample_db
  = mkLongestContext (Some LAX) (Some 500) [LAX_ORD].
Proof. reflexivity. Qed.

(** The two queries agree: the distance of the shortest route is never above
    the greatest distance. *)
Theorem shortest_not_above_longest (db : Db) (r : Route) (oa : option Airport)
    (m : Z) :
  Route_get_shortest_route db = Some r ->
  Route_get_longest_distance_airport db = (oa, Some m) ->
  distance r <= m.
Proof.
  intros Hs Hl. apply first_order_by_In in Hs.
  unfold Route_get_longest_distance_airport in Hl.
  destruct (aggregate_max_distance (routes db)) as [m'|] eqn:E; [|discriminate].
  injection Hl as _ <-.
  apply aggregate_max_distance_Some in E. destruct E as [_ Hall].
  now apply Hall.
Qed.

Lemma shortest_not_above_longest_witness : distance JFK_LAX <= 500.
Proof.
  apply (shortest_not_above_longest sample_db JFK_LAX (Some LAX) 500);
    reflexivity.
Defined.

(** ** The list views and the home page *)




(** [RouteListView] lists every route of the table once, newest first. *)
Theorem route_list_sorted (db : Db) :
  Permutation (RouteListView_get_queryset db) (routes db) /\
  Sorted (fun r1 r2 => created_at r2 <= created_at r1)
    (RouteListView_get_queryset db).
Proof.
  unfold RouteListView_get_queryset. split; [apply order_by_perm|].
  apply Sorted_impl with (R := fun r1 r2 => by_created_at_desc r1 r2 = true).
  - intros r1 r2. unfold by_created_at_desc. apply Z.leb_le.
  - apply order_by_sorted, by_created_at_desc_total.
Qed.

Example route_list_sample :
  RouteListView_get_queryset sample_db = [LAX_ORD; JFK_LAX].
Proof. reflexivity. Qed.

Lemma count_snoc {A} (l : list A) (x : A) : count (l ++ [x]) = count l + 1.
Proof. unfold count. rewrite length_app. simpl. lia. Qed.

Lemma count_perm_cons {A} (l l' : list A) (x : A) :
  Permutation l (x :: l') -> count l' = count l - 1.
Proof.
  intros H. apply Permutation_length in H. unfold count. simpl in H. lia.
Qed.

(** The counters of the home page follow the writes: a registration that
    succeeds adds one to its own counter and leaves the other, and, in a
    table with unique keys, a deletion that succeeds takes one from its own
    counter and leaves the other. *)
Theorem home_counts_follow_writes (db : Db) :
  (forall data db' a,
     AddAirportView_post db data = (db', Redirect (airport_added a)) ->
     HomeView_get_context_data db'
     = mkHomeContext (airport_count (HomeView_get_context_data db) + 1)
         (route_count (HomeView_get_context_data db))) /\
  (forall now data db' r,
     AddRouteView_post db now data = (db', Redirect (route_added r)) ->
     HomeView_get_context_data db'
     = mkHomeContext (airport_count (HomeView_get_context_data db))
         (route_count (HomeView_get_context_data db) + 1)) /\
  (forall c db' c' n',
     codes_unique db ->
     delete_airport db c = (db', Redirect (airport_deleted c' n')) ->
     HomeView_get_context_data db'
     = mkHomeContext (airport_count (HomeView_get_context_data db) - 1)
         (route_count (HomeView_get_context_data db))) /\
  (forall pk db' s d k,
     NoDup (map route_id (routes db)) ->
     delete_route db pk = (db', Redirect (route_deleted s d k)) ->
     HomeView_get_context_data db'
     = mkHomeContext (airport_count (HomeView_get_context_data db))
         (route_count (HomeView_get_context_data db) - 1)).
Proof.
  unfold HomeView_get_context_data. simpl. repeat split.
  - intros data db' a H.
    destruct (AddAirportView_post_created _ _ _ _ H) as (_ & _ & _ & ->).
    simpl. now rewrite count_snoc.
  - intros now data db' r H.
    destruct (AddRouteView_post_created _ _ _ _ _ H) as (-> & _).
    simpl. now rewrite count_snoc.
  - intros c db' c' n' Hu H.
    pose proof (delete_airport_routes_same db c) as (Hr & _).
    rewrite H in Hr. simpl in Hr. rewrite Hr. f_equal.
    unfold delete_airport in H.
    destruct (find _ (airports db)) as [a|] eqn:E; [|discriminate].
    apply find_some in E. destruct E as [Hin _].
    destruct (_ >? 0); [discriminate|]. simpl in H. injection H as <- _ _.
    simpl. apply count_perm_cons with (x := a).
    now apply exclude_code_perm.
  - intros pk db' s d k Hu H. unfold delete_route in H.
    destruct (find _ (routes db)) as [r|] eqn:E; [|discriminate].
    apply find_some in E. destruct E as [Hin _].
    simpl in H. injection H as <- _ _ _. simpl. f_equal.
    apply count_perm_cons with (x := r).
    now apply exclude_route_id_perm.
Qed.

Lemma home_counts_follow_writes_witness :
  HomeView_get_context_data (mkDb [JFK; LAX; ORD] [] 0)
  = mkHomeContext (airport_count (HomeView_get_context_data two_airports) + 1)
      (route_count (HomeView_get_context_data two_airports)).
Proof.
  apply (proj1 (home_counts_follow_writes two_airports)
           (mkAirportFormData "ord " "Chicago O'Hare" (int_value 3))
           (mkDb [JFK; LAX; ORD] [] 0) ORD).
  reflexivity.
Defined.

(** ** Saving at the model layer *)

Lemma upper_nonempty (c : string) :
  (c =? "")%string = false -> (upper c =? "")%string = false.
Proof. destruct c; [discriminate | reflexivity]. Qed.

Lemma Airport_clean_any_code (db : Db) (c nm : string) (p : Z) :
  len c = 3 ->
  (forall b, In b (airports db) -> position b <> p) ->
  Airport_clean db (mkAirportInstance c nm (Some p))
  = (mkAirportInstance (upper c) nm (Some p), Ok tt).
Proof.
  intros Hlen Hfree. unfold Airport_clean. simpl.
  rewrite (len_3_nonempty c Hlen). simpl.
  rewrite (upper_nonempty c (len_3_nonempty c Hlen)), len_upper, Hlen. simpl.
  rewrite (filter_none (fun a => position a =? p) (airports db)).
  - reflexivity.
  - intros b Hb. apply Z.eqb_neq. now apply Hfree.
Qed.

Lemma Airport_clean_nonempty (db : Db) (c nm : string) (p : Z) :
  (c =? "")%string = false ->
  fst (Airport_clean db (mkAirportInstance c nm (Some p)))
  = mkAirportInstance (upper c) nm (Some p) /\
  (snd (Airport_clean db (mkAirportInstance c nm (Some p))) = Ok tt ->
   len c = 3).
Proof.
  intros Ec. unfold Airport_clean. simpl. rewrite Ec. simpl.
  rewrite (upper_nonempty c Ec). simpl.
  destruct (len (upper c) =? 3) eqn:El; simpl.
  - apply Z.eqb_eq in El. rewrite len_upper in El.
    destruct (Airport_first _); simpl; split; auto.
  - split; [reflexivity | discriminate].
Qed.

Lemma Airport_clean_fields_nil (c nm : string) (p : Z) :
  Airport_clean_fields [] (mkAirportInstance c nm (Some p)) = [] ->
  (c =? "")%string = false /\ nm <> "" /\ len nm <= 100.
Proof.
  unfold Airport_clean_fields. simpl.
  destruct (c =? "")%string; simpl; [discriminate|].
  destruct (len c >? 3); simpl; [discriminate|].
  destruct (nm =? "")%string eqn:En; simpl; [discriminate|].
  rewrite Z.gtb_ltb. destruct (Z.ltb_spec 100 (len nm)); simpl; [discriminate|].
  intros _. apply String.eqb_neq in En. auto.
Qed.

Lemma collect_nil (r : result unit) (u : unit) :
  collect r tt = Ok (u, []) ->
  r = Ok tt \/ r = Raise (ValidationError []).
Proof.
  destruct r as [[]|e]; simpl; [auto|].
  destruct e; try discriminate. intros [= _ ->]. auto.
Qed.

Lemma Airport_clean_fields_nil_range (c nm : string) (p : Z) :
  Airport_clean_fields [] (mkAirportInstance c nm (Some p)) = [] ->
  INTEGER_MIN <= p <= INTEGER_MAX.
Proof.
  unfold Airport_clean_fields. simpl. intros H.
  apply app_nil_both in H. destruct H as [_ H].
  apply app_nil_both in H. destruct H as [_ H].
  now apply integer_range_errors_nil in H.
Qed.

(** [Airport.save] on an instance with code [c], name [nm] (ASCII text
    without null characters) and position [p] inserts a row exactly when [c]
    has three characters, [nm] is non-empty with at most 100 characters, [p]
    is in the range of the column, no airport has position [p] and none has
    the uppercase form of [c] as its code; the row stored has the uppercased
    code.  The model, unlike the form, does not ask for letters nor for a
    position of at least 1. *)
Theorem Airport_save_inserts (db db' : Db) (c nm : string) (p : Z)
    (a : Airport) :
  ascii_text c -> ascii_text nm ->
  has_null c = false -> has_null nm = false ->
  (Airport_save db (mkAirportInstance c nm (Some p)) = Ok (db', a) <->
   len c = 3 /\ nm <> "" /\ len nm <= 100 /\
   INTEGER_MIN <= p <= INTEGER_MAX /\
   (forall b, In b (airports db) -> position b <> p) /\
   (forall b, In b (airports db) -> code b <> upper c) /\
   a = mkAirport (upper c) nm p /\
   db' = mkDb (airports db ++ [a]) (routes db) (route_seq db)).
Proof.
  intros _ _ _ _. split.
  - intros H. pose proof (Airport_save_Ok _ _ _ _ H) as (Hdb & Hc & Hp).
    revert H. unfold Airport_save, Airport_full_clean.
    destruct (Airport_clean db (mkAirportInstance c nm (Some p)))
      as [self' r] eqn:Ecl.
    destruct (collect r tt) as [[u ce]|e] eqn:Ecol; simpl; [|discriminate].
    destruct (Airport_clean_fields [] _ ++ ce) as [|x xs] eqn:Eerr; simpl;
      [|discriminate].
    apply app_nil_both in Eerr. destruct Eerr as [Ef ->].
    pose proof (Airport_clean_fields_nil_range _ _ _ Ef) as Hrange.
    apply Airport_clean_fields_nil in Ef. destruct Ef as (Ec & Hne & Hnm).
    destruct (Airport_clean_nonempty db c nm p Ec) as [Hfst Hsnd].
    rewrite Ecl in Hfst, Hsnd. simpl in Hfst, Hsnd. subst self'.
    assert (Hlen : len c = 3).
    { apply Hsnd. destruct (collect_nil _ _ Ecol) as [E|E]; [exact E|].
      exfalso. destruct (Airport_clean_raises db (mkAirportInstance c nm (Some p)))
        as [E'|(f & m & _ & E')]; rewrite Ecl in E'; simpl in E'; congruence. }
    destruct (Airport_validate_unique db [] _); [|discriminate]. simpl.
    destruct (Airport_super_save db _) as [db1|e]; simpl; [|discriminate].
    intros Hok. injection Hok as _ <-. simpl in *. repeat split; auto;
      apply Hrange.
  - intros (Hlen & Hne & Hnm & Hrange & Hfree & Hcode & -> & ->).
    unfold Airport_save, Airport_full_clean.
    rewrite (Airport_clean_any_code db c nm p Hlen Hfree).
    rewrite (Airport_clean_fields_ok c nm p Hlen Hne Hnm Hrange). simpl.
    rewrite (Airport_validate_unique_free db (upper c) nm p Hfree).
    assert (E : exists_ (filter (fun b => (code b =? upper c)%string) (airports db))
                = false).
    { apply exists_filter_false. intros b Hb. apply String.eqb_neq.
      now apply Hcode. }
    rewrite E. simpl.
    now rewrite (Airport_super_save_fresh db (mkAirport (upper c) nm p) Hcode Hfree).
Qed.

Lemma Airport_save_inserts_witness :
  Airport_save two_airports (mkAirportInstance "ord" "Chicago O'Hare" (Some 3))
  = Ok (mkDb [JFK; LAX; ORD] [] 0, ORD).
Proof.
  apply (proj2 (Airport_save_inserts two_airports (mkDb [JFK; LAX; ORD] [] 0)
                  "ord" "Chicago O'Hare" 3 ORD
                  eq_refl eq_refl eq_refl eq_refl)).
  unfold INTEGER_MIN, INTEGER_MAX.
  repeat split; try reflexivity; try discriminate; try lia;
    intros b [<-|[<-|[]]]; discriminate.
Defined.

Lemma Airport_clean_position (db : Db) (self : AirportInstance) :
  inst_position (fst (Airport_clean db self)) = inst_position self.
Proof.
  unfold Airport_clean.
  set (self1 := if negb (inst_code self =? "")%string then _ else self).
  assert (H1 : inst_position self1 = inst_position self)
    by (unfold self1; destruct (negb _); reflexivity).
  destruct (negb (inst_code self1 =? "")%string && negb (len (inst_code self1) =? 3));
    [exact H1|].
  destruct (inst_position self1) as [p|] eqn:Ep; [|simpl; congruence].
  destruct (Airport_first _); simpl; congruence.
Qed.

Lemma Airport_clean_fields_position (self : AirportInstance) :
  Airport_clean_fields [] self = [] -> inst_position self <> None.
Proof.
  unfold Airport_clean_fields. simpl. intros Ef.
  apply app_nil_both in Ef. destruct Ef as [_ Ef].
  apply app_nil_both in Ef. destruct Ef as [_ Ef].
  destruct (inst_position self); [discriminate | discriminate].
Qed.

(** [Airport.save] refuses with a [ValidationError] carrying at least one
    message and with nothing else: the uniqueness checks of [full_clean] run
    before the row is written, so the [IntegrityError] of the database is
    never reached. *)
Theorem Airport_save_refuses (db : Db) (self : AirportInstance)
    (e : Exception) :
  Airport_save db self = Raise e ->
  exists errors, e = ValidationError errors /\ errors <> [].
Proof.
  unfold Airport_save, Airport_full_clean.
  pose proof (Airport_clean_position db self) as Hpos.
  destruct (Airport_clean_raises db self) as [E|(f & m & _ & E)];
    destruct (Airport_clean db self) as [self' r]; simpl in E, Hpos; subst r;
    simpl.
  - rewrite app_nil_r.
    destruct (Airport_clean_fields [] self) as [|x xs] eqn:Ef; simpl.
    + destruct (Airport_validate_unique db [] self') as [|y ys] eqn:Ev.
      * revert Ev. unfold Airport_validate_unique. simpl. intros Ev.
        apply app_nil_both in Ev. destruct Ev as [Ec Ep].
        apply Airport_clean_fields_position in Ef. rewrite <- Hpos in Ef.
        destruct (inst_position self') as [p|]; [|contradiction].
        destruct (exists_ (filter (fun a0 => (code a0 =? inst_code self')%string) _))
          eqn:E1; [discriminate|].
        destruct (exists_ (filter (fun a0 => position a0 =? p) _))
          eqn:E2; [discriminate|].
        rewrite Airport_super_save_fresh; [discriminate| |].
        -- intros b Hb. apply String.eqb_neq.
           apply (proj1 (exists_filter_false _ _) E1 b Hb).
        -- intros b Hb. apply Z.eqb_neq.
           apply (proj1 (exists_filter_false _ _) E2 b Hb).
      * intros [= <-]. eexists. split; [reflexivity | discriminate].
    + intros [= <-]. eexists. split; [reflexivity | discriminate].
  - destruct ((Airport_clean_fields [] self ++ [(f, m)]) ++ _) as [|x xs] eqn:El.
    + apply app_nil_both in El. destruct El as [El _].
      apply app_nil_both in El. destruct El as [_ El]. discriminate.
    + intros [= <-]. eexists. split; [reflexivity | discriminate].
Qed.

Lemma Airport_save_refuses_witness :
  exists errors,
    ValidationError [(f_code, msg_unique)] = ValidationError errors /\
    errors <> [].
Proof.
  apply (Airport_save_refuses two_airports
           (mkAirportInstance "jfk" "Duplicate Airport" (Some 5))).
  reflexivity.
Defined.

Lemma airport_exists_filter (db : Db) (c : string) :
  exists_ (filter (fun b => (code b =? c)%string) (airports db)) = true
  <-> airport_exists db c.
Proof.
  rewrite exists_filter_true. unfold airport_exists.
  split; intros (a & Ha & Hc); exists a; split; auto;
    now apply String.eqb_eq.
Qed.

Lemma pair_filter_false (db : Db) (s d : string) :
  exists_ (filter (fun r => (source r =? s)%string && (destination r =? d)%string)
             (routes db)) = false
  <-> forall r, In r (routes db) -> ~ (source r = s /\ destination r = d).
Proof.
  rewrite exists_filter_false. split; intros H r Hr.
  - specialize (H r Hr). apply andb_false_iff in H.
    rewrite !String.eqb_neq in H. tauto.
  - apply andb_false_iff. rewrite !String.eqb_neq.
    destruct (string_dec (source r) s) as [E1|E1]; [|now left].
    right. intros E2. now apply (H r Hr).
Qed.

(** [Route.save] on an instance with both endpoints and a distance inserts a
    row exactly when both endpoints are airports of the table and differ,
    the distance is at least 1 and at most [INTEGER_MAX] and the ordered
    pair has no route; the row gets the next key and the time of the
    call. *)
Theorem Route_save_inserts (db db' : Db) (now : Z) (s d : Airport) (z : Z)
    (r : Route) :
  Route_save db now (mkRouteInstance (Some s) (Some d) (Some z)) = Ok (db', r)
  <->
  airport_exists db (code s) /\ airport_exists db (code d) /\
  code s <> code d /\ 1 <= z <= INTEGER_MAX /\
  (forall r', In r' (routes db) ->
     ~ (source r' = code s /\ destination r' = code d)) /\
  r = mkRoute (route_seq db + 1) (code s) (code d) z now /\
  db' = mkDb (airports db) (routes db ++ [r]) (route_seq db + 1).
Proof.
  split.
  - intros H.
    pose proof (Route_save_Ok _ _ _ _ _ H) as (Hdb & Hs & Hd & Hu & Hr).
    destruct Hr as (s' & d' & z' & Hi & Hr). injection Hi as <- <- <-.
    unfold Route_save in H.
    destruct (Route_full_clean db [] true _) as [errors|e] eqn:Efc;
      simpl in H; [|discriminate].
    destruct errors; [|discriminate].
    pose proof (Route_full_clean_nil_range _ _ _ _ _ Efc) as [_ Hmax].
    apply Route_full_clean_nil in Efc. destruct Efc as [Hne Hpos].
    subst r. simpl in *. repeat split; auto.
  - intros (Hs & Hd & Hne & [Hpos Hmax] & Hu & -> & ->).
    apply airport_exists_filter in Hs, Hd. apply pair_filter_false in Hu.
    apply String.eqb_neq in Hne.
    assert (Hr0 : integer_range_errors f_distance z = [])
      by (apply integer_range_errors_nil; split;
          [now apply INTEGER_MIN_below_1 | exact Hmax]).
    unfold Route_save, Route_full_clean, Route_clean, Route_clean_fields,
      Airport_eqb. simpl. rewrite Hne, Hs, Hd, Hr0. simpl.
    destruct (Z.leb_spec z 0); [lia|]. simpl.
    unfold Route_validate_unique. simpl. rewrite Hu. simpl.
    unfold Route_super_save. rewrite Hs, Hd, Hu. reflexivity.
Qed.

Lemma Route_save_inserts_witness :
  Route_save two_airports 10 (mkRouteInstance (Some JFK) (Some LAX) (Some 360))
  = Ok (mkDb [JFK; LAX] [JFK_LAX] 1, JFK_LAX).
Proof.
  apply (proj2 (Route_save_inserts two_airports (mkDb [JFK; LAX] [JFK_LAX] 1)
                  10 JFK LAX 360 JFK_LAX)).
  unfold INTEGER_MAX.
  repeat split; try reflexivity; try discriminate; try lia.
  - exists JFK. simpl. auto.
  - exists LAX. simpl. auto.
  - intros _ [].
Defined.

(** [Route.save] on an instance with both endpoints and a distance refuses
    with a [ValidationError] carrying at least one message and with nothing
    else; equal endpoints are reported on the destination field, and a
    distance of zero or less between different endpoints on the distance
    field. *)
Theorem Route_save_refuses (db : Db) (now : Z) (s d : Airport) (z : Z) :
  (forall e,
     Route_save db now (mkRouteInstance (Some s) (Some d) (Some z)) = Raise e ->
     exists errors, e = ValidationError errors /\ errors <> []) /\
  (code s = code d ->
   exists errors,
     Route_save db now (mkRouteInstance (Some s) (Some d) (Some z))
     = Raise (ValidationError errors) /\
     In (f_destination, msg_same_endpoints) errors) /\
  (code s <> code d -> z <= 0 ->
   exists errors,
     Route_save db now (mkRouteInstance (Some s) (Some d) (Some z))
     = Raise (ValidationError errors) /\
     In (f_distance, msg_distance_positive) errors).
Proof.
  split; [|split].
  - intros e. unfold Route_save, Route_full_clean.
    assert (Hc : exists ce, collect (Route_clean (mkRouteInstance (Some s) (Some d) (Some z))) tt
                            = Ok (tt, ce) /\
                            (ce = [] -> code s <> code d /\ 1 <= z)).
    { unfold Route_clean, Airport_eqb. simpl.
      destruct (code s =? code d)%string eqn:Ec; simpl.
      - eexists. split; [reflexivity | discriminate].
      - destruct (Z.leb_spec z 0); simpl.
        + eexists. split; [reflexivity | discriminate].
        + eexists. split; [reflexivity|]. intros _.
          apply String.eqb_neq in Ec. split; [exact Ec | lia]. }
    destruct Hc as (ce & -> & Hce). simpl.
    match goal with
    | |- match ?l with [] => _ | _ :: _ => _ end = _ -> _ =>
        destruct l as [|x xs] eqn:El
    end.
    + apply app_nil_both in El. destruct El as [El Ev].
      apply app_nil_both in El. destruct El as [Ef ->].
      destruct (Hce eq_refl) as [Hne Hpos]. simpl in Ev.
      revert Ef Ev. unfold Route_clean_fields, Route_validate_unique,
        Route_super_save. simpl.
      destruct (exists_ (filter (fun b => (code b =? code s)%string) _));
        simpl; [|discriminate].
      destruct (exists_ (filter (fun b => (code b =? code d)%string) _));
        simpl; [|discriminate].
      destruct (exists_ (filter (fun r => (source r =? code s)%string
                                          && (destination r =? code d)%string) _));
        simpl; intros ->; simpl; discriminate.
    + intros [= <-]. eexists. split; [reflexivity | discriminate].
  - intros Hc. apply String.eqb_eq in Hc.
    unfold Route_save, Route_full_clean, Route_clean, Airport_eqb. simpl.
    rewrite Hc. simpl.
    match goal with
    | |- exists _, match ?l with [] => _ | _ :: _ => _ end = _ /\ _ =>
        assert (Hin : In (f_destination, msg_same_endpoints) l)
          by (apply in_or_app; left; apply in_or_app; right; now left);
        destruct l as [|x xs]; [destruct Hin|]
    end.
    eexists. split; [reflexivity | exact Hin].
  - intros Hne Hz. apply String.eqb_neq in Hne.
    unfold Route_save, Route_full_clean, Route_clean, Airport_eqb. simpl.
    rewrite Hne. destruct (Z.leb_spec z 0); [|lia]. simpl.
    match goal with
    | |- exists _, match ?l with [] => _ | _ :: _ => _ end = _ /\ _ =>
        assert (Hin : In (f_distance, msg_distance_positive) l)
          by (apply in_or_app; left; apply in_or_app; right; now left);
        destruct l as [|x xs]; [destruct Hin|]
    end.
    eexists. split; [reflexivity | exact Hin].
Qed.

Lemma Route_save_refuses_witness :
  (exists errors,
      Route_save two_airports 10 (mkRouteInstance (Some JFK) (Some JFK) (Some 100))
      = Raise (ValidationError errors) /\
      In (f_destination, msg_same_endpoints) errors) /\
  (exists errors,
      Route_save two_airports 10 (mkRouteInstance (Some JFK) (Some LAX) (Some (-10)))
      = Raise (ValidationError errors) /\
      In (f_distance, msg_distance_positive) errors).
Proof.
  split.
  - apply (proj1 (proj2 (Route_save_refuses two_airports 10 JFK JFK 100))).
    reflexivity.
  - apply (proj2 (proj2 (Route_save_refuses two_airports 10 JFK LAX (-10)))).
    + discriminate.
    + lia.
Defined.

(** ** The code field normalises *)

Lemma all_chars_lstrip (P : ascii -> bool) (s : string) :
  all_chars P s = true -> all_chars P (lstrip s) = true.
Proof.
  induction s as [|c s IH]; simpl; [auto|].
  intros H. apply andb_true_iff in H. destruct H as [Hc Hs].
  destruct (is_space c); [now apply IH|]. simpl. now rewrite Hc, Hs.
Qed.

Lemma all_chars_rstrip (P : ascii -> bool) (s : string) :
  all_chars P s = true -> all_chars P (rstrip s) = true.
Proof.
  induction s as [|c s IH]; simpl; [auto|].
  intros H. apply andb_true_iff in H. destruct H as [Hc Hs].
  specialize (IH Hs). destruct (rstrip s) as [|d t].
  - destruct (is_space c); simpl; [reflexivity | now rewrite Hc].
  - simpl in *. now rewrite Hc, IH.
Qed.

Lemma all_upper_fixed (s : string) : all_chars is_upper_fixed (upper s) = true.
Proof.
  induction s as [|c s IH]; simpl; [reflexivity|].
  unfold is_upper_fixed at 1. rewrite upper_char_idem, Ascii.eqb_refl. exact IH.
Qed.

Lemma alpha_fixed_is_upper (c : ascii) :
  is_alpha c = true -> is_upper_fixed c = true -> is_upper c = true.
Proof. unfold is_upper_fixed. by_cases_on_char c. Qed.

Lemma alpha_fixed_string (s : string) :
  all_chars is_alpha s = true -> all_chars is_upper_fixed s = true ->
  all_chars is_upper s = true /\ upper s = s.
Proof.
  induction s as [|c s IH]; simpl; [auto|].
  intros Ha Hf. apply andb_true_iff in Ha, Hf.
  destruct Ha as [Ha1 Ha2], Hf as [Hf1 Hf2].
  destruct (IH Ha2 Hf2) as [IH1 IH2].
  rewrite (alpha_fixed_is_upper c Ha1 Hf1), IH1, IH2.
  unfold is_upper_fixed in Hf1. apply Ascii.eqb_eq in Hf1. now rewrite Hf1.
Qed.

(** Whatever ASCII text [AirportForm.clean_code] is given, a code it returns
    has exactly three letters A to Z, and cleaning that code again returns
    it unchanged. *)
Theorem clean_code_normalizes (v c : string) :
  ascii_text v ->
  AirportForm_clean_code v = inl c ->
  len c = 3 /\ all_chars is_upper c = true /\
  AirportForm_clean_code c = inl c.
Proof.
  intros _. unfold AirportForm_clean_code.
  destruct (len (strip (upper v)) =? 3) eqn:El; simpl; [|discriminate].
  destruct (isalpha (strip (upper v))) eqn:Ea; simpl; [|discriminate].
  intros [= <-]. apply Z.eqb_eq in El.
  apply isalpha_all in Ea. destruct Ea as [_ Ea].
  assert (Hf : all_chars is_upper_fixed (strip (upper v)) = true).
  { unfold strip. apply all_chars_rstrip, all_chars_lstrip, all_upper_fixed. }
  destruct (alpha_fixed_string _ Ea Hf) as [Hu Hup].
  split; [exact El|]. split; [exact Hu|].
  rewrite Hup, (strip_alpha _ Ea), El. simpl.
  assert (Hi : isalpha (strip (upper v)) = true).
  { apply isalpha_all. split; [|exact Ea].
    intros E. rewrite E in El. discriminate. }
  now rewrite Hi.
Qed.

Lemma clean_code_normalizes_witness :
  len "ORD" = 3 /\ all_chars is_upper "ORD" = true /\
  AirportForm_clean_code "ORD" = inl "ORD".
Proof. apply (clean_code_normalizes " ord "); reflexivity. Defined.

(** ** Deleting the routes first *)

Lemma delete_route_fst (db : Db) (pk : Z) :
  fst (delete_route db pk)
  = mkDb (airports db) (exclude (fun r => route_id r =? pk) (routes db))
      (route_seq db).
Proof.
  unfold delete_route.
  destruct (find _ (routes db)) as [r|] eqn:E; simpl.
  - apply find_some in E. destruct E as [_ E]. apply Z.eqb_eq in E.
    unfold Route_delete. now rewrite E.
  - rewrite exclude_none; [now rewrite Db_eta|].
    intros r Hr. apply (List.find_none _ _ E r Hr).
Qed.

Lemma filter_filter_and {A} (p q : A -> bool) (l : list A) :
  filter p (filter q l) = filter (fun x => q x && p x) l.
Proof.
  induction l as [|x l IH]; simpl; [reflexivity|].
  destruct (q x); simpl; [|exact IH]. destruct (p x); now rewrite IH.
Qed.

Lemma filter_all {A} (p : A -> bool) (l : list A) :
  (forall x, p x = true) -> filter p l = l.
Proof.
  intros H. induction l as [|x l IH]; simpl; [reflexivity|].
  now rewrite H, IH.
Qed.

Lemma delete_routes_fold (pks : list Z) (db : Db) :
  delete_routes db pks
  = mkDb (airports db)
      (filter (fun r => negb (existsb (Z.eqb (route_id r)) pks)) (routes db))
      (route_seq db).
Proof.
  unfold delete_routes. revert db.
  induction pks as [|pk pks IH]; intros db; simpl.
  - rewrite filter_all by reflexivity. now rewrite Db_eta.
  - rewrite IH, delete_route_fst. simpl. unfold exclude.
    rewrite filter_filter_and. f_equal. apply filter_ext.
    intros r. now rewrite negb_orb.
Qed.

Lemma existsb_ids_of_filter (rs : list Route) (p : Route -> bool) (r : Route) :
  NoDup (map route_id rs) -> In r rs ->
  existsb (Z.eqb (route_id r)) (map route_id (filter p rs)) = p r.
Proof.
  intros Hnd Hr. destruct (p r) eqn:Ep.
  - apply existsb_exists. exists (route_id r). split; [|apply Z.eqb_refl].
    apply in_map. apply filter_In. now split.
  - destruct (existsb _ _) eqn:Ex; [|reflexivity].
    apply existsb_exists in Ex. destruct Ex as (k & Hk & Ek).
    apply Z.eqb_eq in Ek. apply in_map_iff in Hk.
    destruct Hk as (r' & Hid & Hr'). apply filter_In in Hr'.
    destruct Hr' as [Hin Hp].
    assert (r = r') by (apply (NoDup_map_eq route_id rs); auto; congruence).
    subst r'. congruence.
Qed.

(** Doing by hand what the refusal message asks for is the cascade:
    deleting, through [delete_route], every route that touches an airport
    and then the airport through [delete_airport] succeeds and leaves the
    database that [Airport.delete()] would have left at once. *)
Theorem delete_routes_then_airport (db : Db) (a : Airport) :
  codes_unique db -> NoDup (map route_id (routes db)) -> In a (airports db) ->
  delete_airport (delete_routes db (map route_id (touching db a))) (code a)
  = (Airport_delete db a, Redirect (airport_deleted (code a) (name a))).
Proof.
  intros Hu Hids Hin. rewrite delete_routes_fold.
  set (touch := fun r => (source r =? code a)%string
                         || (destination r =? code a)%string).
  assert (Hr : filter (fun r => negb (existsb (Z.eqb (route_id r))
                                        (map route_id (touching db a))))
                 (routes db)
               = exclude touch (routes db)).
  { unfold exclude. apply filter_ext_in. intros r Hr. f_equal.
    unfold touching. now apply existsb_ids_of_filter. }
  rewrite Hr.
  set (db1 := mkDb (airports db) (exclude touch (routes db)) (route_seq db)).
  assert (Hnone : forall r, In r (routes db1) -> touch r = false).
  { intros r Hin1. simpl in Hin1. unfold exclude in Hin1.
    apply filter_In in Hin1. destruct Hin1 as [_ H].
    now apply negb_true_iff in H. }
  unfold delete_airport.
  rewrite (find_by_code db1 a Hu Hin).
  destruct (count_touching db1 a) as [(_ & r & Hr1 & Ht)|(Hz & _)].
  - exfalso. specialize (Hnone r Hr1). unfold touch in Hnone.
    apply orb_false_iff in Hnone. rewrite !String.eqb_neq in Hnone.
    destruct Ht; tauto.
  - rewrite Hz. simpl. unfold Airport_delete. simpl. fold touch.
    now rewrite (exclude_none touch (exclude touch (routes db)) Hnone).
Qed.

Lemma delete_routes_then_airport_witness :
  delete_airport (delete_routes sample_db (map route_id (touching sample_db LAX)))
    (code LAX)
  = (Airport_delete sample_db LAX,
     Redirect (airport_deleted (code LAX) (name LAX))).
Proof.
  apply (delete_routes_then_airport sample_db LAX).
  - exact sample_db_codes_unique.
  - simpl. repeat constructor; simpl; intuition discriminate.
  - simpl. auto.
Defined.

(** ** More on the Nth-node query *)

(** For a submission accepted by the search form the airport found is never
    the starting airport: the position looked up differs from the starting
    position by [n >= 1]. *)
Theorem nth_node_never_start (db : Db) (data : SearchFormData)
    (cd : SearchCleaned) (res : NthResult) :
  SearchForm_full_clean db data = inl cd ->
  result_ (NthNodeSearchView_post db data) = Some res ->
  position (target_airport res) <> position (starting_airport cd) /\
  target_airport res <> starting_airport cd.
Proof.
  intros Hcd Hres.
  assert (Hn : 1 <= n cd).
  { apply SearchForm_full_clean_inl in Hcd. destruct Hcd as (_ & _ & Hn).
    apply IntegerField_clean_inl in Hn. tauto. }
  unfold NthNodeSearchView_post in Hres. rewrite Hcd in Hres.
  destruct (NthNodeSearchView_search_spec db cd)
    as [(t & _ & Hpos & E & _)|(_ & E)]; rewrite E in Hres; simpl in Hres;
    [|discriminate].
  injection Hres as <-. simpl.
  assert (Hp : position t <> position (starting_airport cd)).
  { rewrite Hpos. unfold target_of.
    destruct (direction cd =? "left")%string; lia. }
  split; [exact Hp | congruence].
Qed.

Lemma nth_node_never_start_witness :
  position ORD <> position JFK /\ ORD <> JFK.
Proof.
  apply (nth_node_never_start sample_db
           (mkSearchFormData "JFK" "right" (int_value 2))
           (mkSearchCleaned JFK "right" 2)
           (mkNthResult JFK "right" 2 ORD 1 3)); reflexivity.
Defined.

(** Two searches in the same direction add up: when positions are unique,
    going [n] places from [a] to [b] and [m] places from [b] to [c] is going
    [n + m] places from [a] to [c]. *)
Theorem nth_node_steps_add (db : Db) (a : Airport) (d : string) (n m : Z)
    (res1 res2 : NthResult) :
  positions_unique db ->
  NthNodeSearchView_search db (mkSearchCleaned a d n) = (Some res1, None) ->
  NthNodeSearchView_search db (mkSearchCleaned (target_airport res1) d m)
  = (Some res2, None) ->
  NthNodeSearchView_search db (mkSearchCleaned a d (n + m))
  = (Some (mkNthResult a d (n + m) (target_airport res2) (position a)
             (position (target_airport res2))), None).
Proof.
  intros Hu H1 H2.
  destruct (NthNodeSearchView_search_spec db (mkSearchCleaned a d n))
    as [(b & Hb & Hpb & E1 & _)|(_ & E1)]; rewrite E1 in H1; [|discriminate].
  injection H1 as <-. simpl in H2.
  destruct (NthNodeSearchView_search_spec db (mkSearchCleaned b d m))
    as [(c & Hc & Hpc & E2 & _)|(_ & E2)]; rewrite E2 in H2; [|discriminate].
  injection H2 as <-. simpl.
  unfold target_of in Hpb, Hpc. simpl in Hpb, Hpc.
  unfold NthNodeSearchView_search. simpl.
  assert (Ht : (if (d =? "left")%string then position a - (n + m)
                else position a + (n + m)) = position c).
  { destruct (d =? "left")%string; lia. }
  rewrite Ht, (filter_position_unique db c Hu Hc). reflexivity.
Qed.

Lemma nth_node_steps_add_witness :
  NthNodeSearchView_search sample_db (mkSearchCleaned JFK "right" (1 + 1))
  = (Some (mkNthResult JFK "right" (1 + 1) ORD (position JFK) (position ORD)),
     None).
Proof.
  apply (nth_node_steps_add sample_db JFK "right" 1 1
           (mkNthResult JFK "right" 1 LAX 1 2)
           (mkNthResult LAX "right" 1 ORD 2 3)).
  - exact sample_db_positions_unique.
  - reflexivity.
  - reflexivity.
Defined.

(** ** Codes up to letter case *)



